(** * Boot orchestration of the emulator core (Source/Core/Core/Boot/Boot.cpp)

    A shallow embedding of [CBoot::DVDRead], [CBoot::Load_FST],
    [CBoot::FindMapFile], [CBoot::LoadMapFromFilename], [CBoot::Load_BS2]
    and [CBoot::BootUp], followed by the properties of the boot path; and
    of the notebook-pane functions of the main frame
    (Source/Core/DolphinWX/FrameAui.cpp): [CFrame::GetNotebookCount],
    [CFrame::GetNotebookFromId], [CFrame::GetNotebookPageFromId] and
    [CFrame::GetNotebookAffiliation].

    Conventions of the embedding:
    - a [u32] is a [Z] in [0, 2^32); every operation that can leave that
      range in C++ is followed by its wrap-around, written out;
    - a [size_t] is a [Z] in [0, 2^64), with [npos = 2^64 - 1];
    - the file buffer [std::string data] is a [list byte], followed in
      memory by the terminator that [c_str] adds; an access past the
      buffer is undefined in C++, and the model hands such a run to the
      collaborator [BufferOverrun], about which nothing is assumed;
    - the process-wide singletons ([SConfig], [PowerPC::ppcState], the
      emulated memory, the DVD interface, the symbol database, ...) are the
      fields of one [World] that every function threads through, and every
      run also yields the list of calls it made to the outside;
    - every service that lives outside Boot.cpp is a field of [Services];
      the boot code is verified for every implementation of them. *)

From Stdlib Require Import ZArith List String Ascii Bool Lia.
From Stdlib Require Import Strings.Byte.
Import ListNotations.
Local Open Scope string_scope.
Local Open Scope Z_scope.

(** ** Fixed-width arithmetic *)

Module U32.

Definition modulus : Z := 2 ^ 32.

Definition wrap (z : Z) : Z := z mod modulus.

(** [a - b] on [u32] operands. *)
Definition sub (a b : Z) : Z := wrap (a - b).

(** [a << s] on a [u32] operand. *)
Definition shl (a s : Z) : Z := wrap (Z.shiftl a s).

Definition in_range (z : Z) : Prop := 0 <= z < modulus.

End U32.

Module SizeT.

Definition modulus : Z := 2 ^ 64.

Definition wrap (z : Z) : Z := z mod modulus.

(** [std::string::npos], i.e. [size_t(-1)]. *)
Definition npos : Z := modulus - 1.

End SizeT.

(** Modelled from the spec: [Common::AlignDown] (Common/Align.h is not part
    of the sources at hand).  The spec describes its result as "the greatest
    address <= value that is a multiple of" the alignment. *)
Definition AlignDown (value size : Z) : Z := value - value mod size.

(** ** Enumerations *)

(** [DiscIO::Region]. *)
Inductive Region : Type :=
| NTSC_J
| NTSC_U
| PAL
| UNKNOWN_REGION.

Definition Region_eqb (a b : Region) : bool :=
  match a, b with
  | NTSC_J, NTSC_J | NTSC_U, NTSC_U | PAL, PAL
  | UNKNOWN_REGION, UNKNOWN_REGION => true
  | _, _ => false
  end.

(** [DiscIO::Platform]; only [WII_DISC] is compared against in Boot.cpp. *)
Inductive Platform : Type :=
| GAMECUBE_DISC
| WII_DISC
| WII_WAD
| ELF_OR_DOL
| NUMBER_OF_PLATFORMS.

Definition is_WII_DISC (p : Platform) : bool :=
  match p with WII_DISC => true | _ => false end.

(** [SConfig::EBootType].  [BOOT_out_of_range] stands for any value of the
    underlying integer that is none of the enumerators; it is what the
    [default:] labels of the two [switch] statements catch. *)
Inductive EBootType : Type :=
| BOOT_ISO
| BOOT_ELF
| BOOT_DOL
| BOOT_WII_NAND
| BOOT_BS2
| BOOT_DFF
| BOOT_out_of_range (raw : Z).

(** The entries of [PowerPC::ppcState.spr] that Boot.cpp names. *)
Inductive SPRIndex : Type :=
| SPR_HID0 | SPR_HID4
| SPR_IBAT0U | SPR_IBAT0L | SPR_IBAT3U | SPR_IBAT3L | SPR_IBAT4U | SPR_IBAT4L
| SPR_DBAT0U | SPR_DBAT0L | SPR_DBAT1U | SPR_DBAT1L | SPR_DBAT3U | SPR_DBAT3L
| SPR_DBAT4U | SPR_DBAT4L | SPR_DBAT5U | SPR_DBAT5L.

Definition SPRIndex_eq_dec (a b : SPRIndex) : {a = b} + {a <> b}.
Proof. decide equality. Defined.

(** ** The singletons *)

(** [SConfig], restricted to the members Boot.cpp reads or writes. *)
Record SConfig : Type := mkSConfig {
  m_BootType : EBootType;
  m_strFilename : string;
  m_region : Region;
  bWii : bool;
  bPAL60 : bool;
  bHLE_BS2 : bool;
  bEnableDebugging : bool;
  m_strDVDRoot : string;
  m_strDefaultISO : string;
  m_strApploader : string;
  m_strBootROM : string;
  (** what [GetGameID()] returns *)
  m_strGameID : string
}.

Definition set_bWii (b : bool) (c : SConfig) : SConfig :=
  mkSConfig (m_BootType c) (m_strFilename c) (m_region c) b (bPAL60 c)
            (bHLE_BS2 c) (bEnableDebugging c) (m_strDVDRoot c)
            (m_strDefaultISO c) (m_strApploader c) (m_strBootROM c)
            (m_strGameID c).

(** [PowerPC::ppcState], restricted to what Boot.cpp writes, plus [PC]. *)
Record PPCState : Type := mkPPC {
  gpr : Z -> Z;
  msr : Z;
  spr : SPRIndex -> Z;
  pc : Z
}.

Definition set_gpr (i v : Z) (p : PPCState) : PPCState :=
  mkPPC (fun j => if j =? i then v else gpr p j) (msr p) (spr p) (pc p).

Definition set_msr (v : Z) (p : PPCState) : PPCState :=
  mkPPC (gpr p) v (spr p) (pc p).

Definition set_spr (i : SPRIndex) (v : Z) (p : PPCState) : PPCState :=
  mkPPC (gpr p) (msr p)
        (fun j => if SPRIndex_eq_dec j i then v else spr p j) (pc p).

Definition set_pc (v : Z) (p : PPCState) : PPCState :=
  mkPPC (gpr p) (msr p) (spr p) v.

(** ** Firmware checksums ([Load_BS2], the [constexpr] table) *)

Definition USA_v1_0 : Z := 0x6D740AE7.
Definition USA_v1_1 : Z := 0xD5E6FEEA.
Definition USA_v1_2 : Z := 0x86573808.
Definition BRA_v1_0 : Z := 0x667D0B64.
Definition JAP_v1_0 : Z := 0x6DAC1F2A.
Definition JAP_v1_1 : Z := 0xD235E3F9.
Definition PAL_v1_0 : Z := 0x4F319F43.
Definition PAL_v1_1 : Z := 0xDD8CAB7C.
Definition PAL_v1_2 : Z := 0xAD1B7F16.

(** The [switch (ipl_hash)] of [Load_BS2]: the value of [ipl_region] after
    it.  The last branch is the [default:] label, the only one that yields
    [UNKNOWN_REGION] (and the one that raises the unknown-hash alert). *)
Definition classify_ipl (ipl_hash : Z) : Region :=
  if (ipl_hash =? USA_v1_0) || (ipl_hash =? USA_v1_1)
     || (ipl_hash =? USA_v1_2) || (ipl_hash =? BRA_v1_0) then NTSC_U
  else if (ipl_hash =? JAP_v1_0) || (ipl_hash =? JAP_v1_1) then NTSC_J
  else if (ipl_hash =? PAL_v1_0) || (ipl_hash =? PAL_v1_1)
          || (ipl_hash =? PAL_v1_2) then PAL
  else UNKNOWN_REGION.

(** ** The arena boundary of [Load_FST] *)

Definition FST_CEILING : Z := 0x817FFFFF.

Definition fst_shift (is_wii : bool) : Z := if is_wii then 2 else 0.

(** [Common::AlignDown(0x817FFFFF - (max_fst_size << shift), 0x20)],
    every operator on [u32]. *)
Definition arena_high_of (max_fst_size : Z) (is_wii : bool) : Z :=
  AlignDown (U32.sub FST_CEILING (U32.shl max_fst_size (fst_shift is_wii)))
            0x20.

(** ** [std::string] operations used by [FindMapFile] *)

Module StdString.

Definition size (s : string) : Z := Z.of_nat (String.length s).

(** Is [c] one of the characters of [chars]? *)
Fixpoint mem (c : ascii) (chars : string) : bool :=
  match chars with
  | EmptyString => false
  | String d rest => Ascii.eqb c d || mem c rest
  end.

(** [s.find_last_of(chars)]: the index of the last character of [s] that
    occurs in [chars], or [npos] when there is none. *)
Fixpoint find_last_of (s chars : string) : Z :=
  match s with
  | EmptyString => SizeT.npos
  | String a rest =>
      let later := find_last_of rest chars in
      if later =? SizeT.npos
      then (if mem a chars then 0 else SizeT.npos)
      else later + 1
  end.

(** [s.substr(pos, count)]: throws [std::out_of_range] when
    [pos > size()] (here [None]); otherwise the characters
    [pos, pos + min(count, size() - pos))]. *)
Definition substr (s : string) (pos count : Z) : option string :=
  if pos >? size s then None
  else Some (substring (Z.to_nat pos)
                       (Z.to_nat (Z.min count (size s - pos))) s).

End StdString.

(** The [BOOT_ELF] / [BOOT_DOL] case of [FindMapFile]: the value assigned to
    [title_id_str].  All index arithmetic is on [size_t]. *)
Definition executable_title_id (m_strFilename : string) : option string :=
  let name_begin_index :=
    SizeT.wrap (StdString.find_last_of m_strFilename "/" + 1) in
  let name_begin_index :=
    if SizeT.wrap (StdString.find_last_of m_strFilename "\" + 1)
       >? name_begin_index
    then SizeT.wrap (StdString.find_last_of m_strFilename "\" + 1)
    else name_begin_index in
  StdString.substr m_strFilename name_begin_index
    (SizeT.wrap (StdString.size m_strFilename - 4 - name_begin_index)).

(** Uppercase hexadecimal digit of a value in [0, 16). *)
Definition hex_digit_upper (d : Z) : ascii :=
  nth (Z.to_nat d)
      ["0"; "1"; "2"; "3"; "4"; "5"; "6"; "7";
       "8"; "9"; "A"; "B"; "C"; "D"; "E"; "F"]%char "?"%char.

(** The conversion [%08X] of the C library's [printf] family, to which
    [StringFromFormat] hands its format string, applied to a [u32]:
    uppercase hexadecimal, zero-padded to width 8, which for a 32-bit
    argument is exactly the eight nibbles, most significant first. *)
Definition format_08X (v : Z) : string :=
  string_of_list_ascii
    (map (fun k => hex_digit_upper (Z.land (Z.shiftr v (4 * k)) 0xF))
         [7; 6; 5; 4; 3; 2; 1; 0]).

(** The [BOOT_WII_NAND] case of [FindMapFile]:
    [StringFromFormat("%08X_%08X", (u32)(TitleID >> 32) & 0xFFFFFFFF,
                      (u32)TitleID & 0xFFFFFFFF)]. *)
Definition nand_title_id (TitleID : Z) : string :=
  (format_08X (Z.land (U32.wrap (Z.shiftr TitleID 32)) 0xFFFFFFFF)
   ++ "_"
   ++ format_08X (Z.land (U32.wrap TitleID) 0xFFFFFFFF))%string.

(** *** The derivation rules as the specification words them *)

Definition is_separator (c : ascii) : bool :=
  Ascii.eqb c "/" || Ascii.eqb c "\".

Fixpoint has_separator (s : string) : bool :=
  match s with
  | EmptyString => false
  | String a rest => is_separator a || has_separator rest
  end.

(** "strip any directory prefix (recognizing either path-separator
    convention)": what follows the last separator. *)
Fixpoint spec_strip_directory (s : string) : string :=
  match s with
  | EmptyString => EmptyString
  | String a rest =>
      if has_separator rest then spec_strip_directory rest
      else if is_separator a then rest else s
  end.

(** "and the trailing 4 characters (assumed extension)". *)
Definition spec_strip_extension (s : string) : string :=
  substring 0 (String.length s - 4) s.

Definition spec_executable_title_id (path : string) : string :=
  spec_strip_extension (spec_strip_directory path).

(** Value of an uppercase hexadecimal numeral, [None] on any other
    character; used to read the formatted title id back. *)
Definition hex_value_of_digit (c : ascii) : option Z :=
  let n := Z.of_nat (nat_of_ascii c) in
  if (48 <=? n) && (n <=? 57) then Some (n - 48)
  else if (65 <=? n) && (n <=? 70) then Some (n - 55)
  else None.

Fixpoint hex_value_from (acc : Z) (s : string) : option Z :=
  match s with
  | EmptyString => Some acc
  | String c rest =>
      match hex_value_of_digit c with
      | Some d => hex_value_from (16 * acc + d) rest
      | None => None
      end
  end.

Definition spec_hex_value (s : string) : option Z := hex_value_from 0 s.

(** ** Observable interactions *)

(** The messages of the [PanicAlertT] calls of Boot.cpp. *)
Inductive Alert : Type :=
| Alert_IPL_unknown_hash (ipl_hash : Z)
| Alert_IPL_region_mismatch (ipl_region boot_region : Region)
| Alert_ISO_wrong_console_mode
| Alert_DOL_wrong_console_mode
| Alert_unknown_file_type.

(** One entry per call that leaves Boot.cpp with an effect (or an I/O
    request), in program order, with its arguments. *)
Inductive Event : Type :=
| EvNoticeLog (msg : string)
| EvPanicAlert (a : Alert)
| EvReadFileToString (path : string)
| EvVolumeRead (offset length : Z) (decrypt : bool)
| EvCopyToEmu (address : Z) (bytes : list byte)
| EvWrite_U32 (value address : Z)
| EvDescrambler (offset size : Z)
| EvDBATUpdated
| EvIBATUpdated
| EvSymbolDB_Clear
| EvVideoInterface_Preset (ntsc : bool)
| EvSetVolumeName (path : string)
| EvSetVolumeDirectory (root : string) (is_wii : bool)
                       (apploader dol : string)
| EvEmulatedBS2 (is_wii : bool)
| EvEmulatedBS2_GC (skip_apploader : bool)
| EvSetupWiiMemory (ios_title_id : Z)
| EvLoadPatches
| EvFindFunctions (start_addr end_addr : Z)
| EvSignatureDB_Load (path : string)
| EvSignatureDB_Apply
| EvSignatureDB_Clear
| EvHLE_PatchFunctions
| EvHLE_PatchFixedFunctions
| EvSymbolDB_LoadMap (path : string)
| EvHost_NotifyMapLoaded
| EvDolLoader_Load (path : string)
| EvBoot_ELF (path : string)
| EvBoot_WiiWAD (path : string)
| EvAddAutoBreakpoints
| EvBufferOverrun.

(** Events that write emulated memory from Boot.cpp itself. *)
Definition is_memory_write (e : Event) : bool :=
  match e with
  | EvCopyToEmu _ _ | EvWrite_U32 _ _ => true
  | _ => false
  end.

Definition is_disc_read (e : Event) : bool :=
  match e with
  | EvVolumeRead _ _ _ => true
  | _ => false
  end.

(** ** External collaborators *)

(** A collaborator that may read the configuration and rewrite both the CPU
    state and the rest of the emulated machine ([X]). *)
Definition Collab (X R : Type) : Type :=
  SConfig -> PPCState -> X -> R * PPCState * X.

(** Everything Boot.cpp calls and does not define.  [X] is the state of the
    emulated machine outside [ppcState]: guest memory, the DVD interface, the
    symbol database, video, patches.  The host file system does not change
    during a boot attempt, so its queries do not depend on [X]. *)
Record Services (X : Type) : Type := mkServices {
  (* Common/FileUtil.h, Common/CommonPaths.h *)
  File_ReadFileToString : string -> option (list byte);
  File_Exists : string -> bool;
  File_GetUserPath_D_MAPS_IDX : string;
  File_GetSysDirectory : string;
  MAPS_DIR_DIR_SEP : string;
  TOTALDB : string;
  (* zlib: crc32(crc32(0L, Z_NULL, 0), data, size) *)
  crc32 : list byte -> Z;
  (* ExpansionInterface::CEXIIPL::Descrambler(data, size), as the new
     contents of data[0 .. size) *)
  Descrambler : list byte -> list byte;
  Descrambler_size :
    forall l, List.length (Descrambler l) = List.length l;
  (* DiscIO *)
  IsNTSC : Region -> bool;
  NANDLoader_IsValid : string -> bool;
  NANDLoader_GetTitleId : string -> Z;
  (* DVDInterface and the mounted IVolume *)
  IsDiscInside : X -> bool;
  Volume_Read : X -> Z -> Z -> bool -> option (list byte);
  Volume_GetVolumeType : X -> Platform;
  SetVolumeName : string -> X -> X;
  SetVolumeDirectory : string -> bool -> string -> string -> X -> X;
  (* Memory *)
  Memory_CopyToEmu : Z -> list byte -> X -> X;
  Memory_Write_U32 : Z -> Z -> X -> X;
  Memory_Read_U32 : Z -> X -> Z;
  (* PowerPC: rebuild the BAT tables from ppcState *)
  DBATUpdated : PPCState -> X -> X;
  IBATUpdated : PPCState -> X -> X;
  (* bit masks of the UReg_MSR / UReg_HID4 bit-fields (Gekko.h) *)
  UReg_MSR_FP : Z;
  UReg_MSR_DR : Z;
  UReg_MSR_IR : Z;
  UReg_MSR_EE : Z;
  UReg_HID4_SBE : Z;
  (* g_symbolDB, Host, VideoInterface, PatchEngine, PPCAnalyst, SignatureDB,
     HLE, Dolphin_Debugger *)
  SymbolDB_Clear : X -> X;
  SymbolDB_LoadMap : string -> X -> bool * X;
  Host_NotifyMapLoaded : X -> X;
  VideoInterface_Preset : bool -> X -> X;
  PatchEngine_LoadPatches : SConfig -> X -> X;
  PPCAnalyst_FindFunctions : Z -> Z -> X -> X;
  SignatureDB_Load : string -> bool;
  SignatureDB_Apply : string -> X -> X;
  HLE_PatchFunctions : X -> X;
  HLE_PatchFixedFunctions : X -> X;
  AddAutoBreakpoints : X -> X;
  (* the other members of CBoot (Boot_BS2Emu.cpp, Boot_ELF.cpp,
     Boot_WiiWAD.cpp) and CDolLoader *)
  EmulatedBS2 : bool -> Collab X bool;
  EmulatedBS2_GC : bool -> Collab X bool;
  SetupWiiMemory : Z -> Collab X bool;
  Boot_ELF : string -> Collab X bool;
  Boot_WiiWAD : string -> Collab X bool;
  DolLoader_IsValid : string -> bool;
  DolLoader_IsWii : string -> bool;
  DolLoader_GetEntryPoint : string -> Z;
  DolLoader_Load : string -> Collab X unit;
  (* not a function of the program: what the process does once Load_BS2
     has accessed memory outside its file buffer (undefined behaviour) *)
  BufferOverrun : Collab X bool
}.

Arguments File_ReadFileToString {X}.
Arguments File_Exists {X}.
Arguments File_GetUserPath_D_MAPS_IDX {X}.
Arguments File_GetSysDirectory {X}.
Arguments MAPS_DIR_DIR_SEP {X}.
Arguments TOTALDB {X}.
Arguments crc32 {X}.
Arguments Descrambler {X}.
Arguments Descrambler_size {X}.
Arguments IsNTSC {X}.
Arguments NANDLoader_IsValid {X}.
Arguments NANDLoader_GetTitleId {X}.
Arguments IsDiscInside {X}.
Arguments Volume_Read {X}.
Arguments Volume_GetVolumeType {X}.
Arguments SetVolumeName {X}.
Arguments SetVolumeDirectory {X}.
Arguments Memory_CopyToEmu {X}.
Arguments Memory_Write_U32 {X}.
Arguments Memory_Read_U32 {X}.
Arguments DBATUpdated {X}.
Arguments IBATUpdated {X}.
Arguments UReg_MSR_FP {X}.
Arguments UReg_MSR_DR {X}.
Arguments UReg_MSR_IR {X}.
Arguments UReg_MSR_EE {X}.
Arguments UReg_HID4_SBE {X}.
Arguments SymbolDB_Clear {X}.
Arguments SymbolDB_LoadMap {X}.
Arguments Host_NotifyMapLoaded {X}.
Arguments VideoInterface_Preset {X}.
Arguments PatchEngine_LoadPatches {X}.
Arguments PPCAnalyst_FindFunctions {X}.
Arguments SignatureDB_Load {X}.
Arguments SignatureDB_Apply {X}.
Arguments HLE_PatchFunctions {X}.
Arguments HLE_PatchFixedFunctions {X}.
Arguments AddAutoBreakpoints {X}.
Arguments EmulatedBS2 {X}.
Arguments EmulatedBS2_GC {X}.
Arguments SetupWiiMemory {X}.
Arguments Boot_ELF {X}.
Arguments Boot_WiiWAD {X}.
Arguments DolLoader_IsValid {X}.
Arguments DolLoader_IsWii {X}.
Arguments DolLoader_GetEntryPoint {X}.
Arguments DolLoader_Load {X}.
Arguments BufferOverrun {X}.

(** ** The world and the monad that threads it *)

Record World (X : Type) : Type := mkWorld {
  config : SConfig;
  ppcState : PPCState;
  ext : X
}.

Arguments mkWorld {X}.
Arguments config {X}.
Arguments ppcState {X}.
Arguments ext {X}.

(** What a run produces: the returned value, the world it leaves, and the
    events it emitted, oldest first. *)
Record Outcome (X A : Type) : Type := mkOutcome {
  result : A;
  final : World X;
  events : list Event
}.

Arguments mkOutcome {X A}.
Arguments result {X A}.
Arguments final {X A}.
Arguments events {X A}.

Definition M (X A : Type) : Type := World X -> Outcome X A.

Definition ret {X A} (a : A) : M X A := fun w => mkOutcome a w [].

Definition bind {X A B} (m : M X A) (k : A -> M X B) : M X B :=
  fun w =>
    let o1 := m w in
    let o2 := k (result o1) (final o1) in
    mkOutcome (result o2) (final o2) (events o1 ++ events o2).

Declare Scope boot_scope.
Delimit Scope boot_scope with boot.
Notation "x <- m ;; k" := (bind m (fun x => k))
  (at level 61, m at next level, right associativity) : boot_scope.
Notation "m ;; k" := (bind m (fun _ => k))
  (at level 61, right associativity) : boot_scope.
Local Open Scope boot_scope.

Definition get_config {X} : M X SConfig := fun w => mkOutcome (config w) w [].

Definition get_ext {X} : M X X := fun w => mkOutcome (ext w) w [].

Definition put_config {X} (c : SConfig) : M X unit :=
  fun w => mkOutcome tt (mkWorld c (ppcState w) (ext w)) [].

(** A direct assignment to a member of [PowerPC::ppcState]. *)
Definition modify_ppc {X} (f : PPCState -> PPCState) : M X unit :=
  fun w => mkOutcome tt (mkWorld (config w) (f (ppcState w)) (ext w)) [].

Definition log {X} (e : Event) : M X unit := fun w => mkOutcome tt w [e].

(** A call to a service that only touches [X]. *)
Definition on_ext {X} (e : Event) (f : X -> X) : M X unit :=
  fun w => mkOutcome tt (mkWorld (config w) (ppcState w) (f (ext w))) [e].

(** A call to a collaborator that may also rewrite [ppcState]. *)
Definition call {X R} (e : Event) (c : Collab X R) : M X R :=
  fun w =>
    let r := c (config w) (ppcState w) (ext w) in
    mkOutcome (fst (fst r)) (mkWorld (config w) (snd (fst r)) (snd r)) [e].

Definition PanicAlertT {X} (a : Alert) : M X unit := log (EvPanicAlert a).

Definition when {X} (b : bool) (m : M X unit) : M X unit :=
  if b then m else ret tt.

(** ** Helpers on host buffers *)

(** The bytes [data[offset .. offset + size)] of a host buffer, for a
    range that lies inside the buffer.  C++ leaves an access past the end
    undefined: the embedded functions test the range before they take a
    slice, and no property is stated of a slice outside its buffer. *)
Definition slice (data : list byte) (offset size : Z) : list byte :=
  firstn (Z.to_nat size) (skipn (Z.to_nat offset) data).

(** An in-place transformation [f(data + offset, size)] of a host buffer,
    for a range that lies inside the buffer. *)
Definition in_place (f : list byte -> list byte)
           (data : list byte) (offset size : Z) : list byte :=
  firstn (Z.to_nat offset) data
  ++ f (slice data offset size)
  ++ skipn (Z.to_nat (offset + size)) data.

(** What [data.data()] points to: the characters of a [std::string]
    followed by its terminator, [data.data()[data.size()] = 0], which may
    be read but not changed. *)
Definition c_str (data : list byte) : list byte := (data ++ [x00])%list.

(** Big-endian value of a byte string. *)
Definition from_big_endian (bs : list byte) : Z :=
  fold_left (fun acc b => acc * 256 + Z.of_N (Byte.to_N b)) bs 0.

Definition string_empty (s : string) : bool :=
  match s with EmptyString => true | String _ _ => false end.

(** The result of [FindMapFile]: its return value and its three
    out-parameters ([existing_map_file] is assigned only when found). *)
Record MapFileReference : Type := mkMapFileReference {
  found : bool;
  existing_map_file : option string;
  writable_map_file : string;
  title_id : string
}.

(** ** The functions of Boot.cpp *)

Section Boot.

Context {X : Type} (sv : Services X).

Local Abbreviation Run := (M X).

Definition Memory_CopyToEmu_ (address : Z) (bytes : list byte) : Run unit :=
  on_ext (EvCopyToEmu address bytes) (Memory_CopyToEmu sv address bytes).

Definition Memory_Write_U32_ (value address : Z) : Run unit :=
  on_ext (EvWrite_U32 value address) (Memory_Write_U32 sv value address).

Definition Memory_Read_U32_ (address : Z) : Run Z :=
  fun w => mkOutcome (Memory_Read_U32 sv address (ext w)) w [].

Definition DBATUpdated_ : Run unit :=
  fun w => on_ext EvDBATUpdated (DBATUpdated sv (ppcState w)) w.

Definition IBATUpdated_ : Run unit :=
  fun w => on_ext EvIBATUpdated (IBATUpdated sv (ppcState w)) w.

(** [CBoot::DVDRead]. *)
Definition DVDRead (dvd_offset output_address length : Z) (decrypt : bool)
  : Run bool :=
  x <- get_ext ;;
  log (EvVolumeRead dvd_offset length decrypt) ;;
  match Volume_Read sv x dvd_offset length decrypt with
  | None => ret false
  | Some buffer =>
      Memory_CopyToEmu_ output_address buffer ;;
      ret true
  end.

(** Modelled from the spec: [IVolume::ReadSwapped] at type [u32]
    (DiscIO/Volume.h is not part of the sources at hand): "reads ... header
    fields ... each a 32-bit unsigned value", stored big-endian on the
    disc; [*buffer] keeps its previous value when the read fails. *)
Definition ReadSwapped (offset : Z) (buffer : Z) (decrypt : bool) : Run Z :=
  x <- get_ext ;;
  log (EvVolumeRead offset 4 decrypt) ;;
  match Volume_Read sv x offset 4 decrypt with
  | None => ret buffer
  | Some temp => ret (U32.wrap (from_big_endian temp))
  end.

(** [CBoot::Load_FST]. *)
Definition Load_FST (is_wii : bool) : Run unit :=
  x <- get_ext ;;
  if negb (IsDiscInside sv x) then ret tt
  else
    (* copy first 32 bytes of disc to start of Mem 1 *)
    DVDRead 0 0 0x20 false ;;
    (* copy of game id *)
    id <- Memory_Read_U32_ 0x0000 ;;
    Memory_Write_U32_ id 0x3180 ;;
    let shift := fst_shift is_wii in
    fst_offset <- ReadSwapped 0x0424 0 is_wii ;;
    fst_size <- ReadSwapped 0x0428 0 is_wii ;;
    max_fst_size <- ReadSwapped 0x042c 0 is_wii ;;
    let arena_high := arena_high_of max_fst_size is_wii in
    Memory_Write_U32_ arena_high 0x00000034 ;;
    (* load FST *)
    DVDRead (U32.shl fst_offset shift) arena_high (U32.shl fst_size shift)
            is_wii ;;
    Memory_Write_U32_ arena_high 0x00000038 ;;
    Memory_Write_U32_ (U32.shl max_fst_size shift) 0x0000003c.

(** [CBoot::UpdateDebugger_MapLoaded]. *)
Definition UpdateDebugger_MapLoaded : Run unit :=
  on_ext EvHost_NotifyMapLoaded (Host_NotifyMapLoaded sv).

(** The [switch (_StartupPara.m_BootType)] of [FindMapFile].  [substr]
    cannot throw at its only call site ([executable_title_id_defined]
    below), so no exceptional exit is threaded through the callers. *)
Definition title_id_str_of (cfg : SConfig) : string :=
  match m_BootType cfg with
  | BOOT_WII_NAND =>
      if NANDLoader_IsValid sv (m_strFilename cfg)
      then nand_title_id (NANDLoader_GetTitleId sv (m_strFilename cfg))
      else ""
  | BOOT_ELF | BOOT_DOL =>
      match executable_title_id (m_strFilename cfg) with
      | Some t => t
      | None => ""
      end
  | _ => m_strGameID cfg
  end.

(** The [for] loop of [FindMapFile] over [maps_directories]. *)
Fixpoint search_maps_directories (dirs : list string) (title : string)
  : option string :=
  match dirs with
  | [] => None
  | dir :: rest =>
      let path := (dir ++ title ++ ".map")%string in
      if File_Exists sv path then Some path
      else search_maps_directories rest title
  end.

Definition maps_directories : list string :=
  [File_GetUserPath_D_MAPS_IDX sv;
   (File_GetSysDirectory sv ++ MAPS_DIR_DIR_SEP sv)%string].

(** [CBoot::FindMapFile], called with all three out-parameters. *)
Definition FindMapFile (cfg : SConfig) : MapFileReference :=
  let title_id_str := title_id_str_of cfg in
  let existing := search_maps_directories maps_directories title_id_str in
  mkMapFileReference
    (match existing with Some _ => true | None => false end)
    existing
    (File_GetUserPath_D_MAPS_IDX sv ++ title_id_str ++ ".map")%string
    title_id_str.

Definition SymbolDB_LoadMap_ (filename : string) : Run bool :=
  fun w =>
    let r := SymbolDB_LoadMap sv filename (ext w) in
    mkOutcome (fst r) (mkWorld (config w) (ppcState w) (snd r))
              [EvSymbolDB_LoadMap filename].

(** [CBoot::LoadMapFromFilename]. *)
Definition LoadMapFromFilename : Run bool :=
  cfg <- get_config ;;
  match existing_map_file (FindMapFile cfg) with
  | None => ret false
  | Some strMapFilename =>
      loaded <- SymbolDB_LoadMap_ strMapFilename ;;
      if loaded then UpdateDebugger_MapLoaded ;; ret true
      else ret false
  end.

(** [crc32(crc32(0L, Z_NULL, 0), data.data(), (u32)data.size())]: the
    checksum of the buffer, whose length is first converted to [u32]. *)
Definition ipl_hash_of (data : list byte) : Z :=
  crc32 sv
    (firstn (Z.to_nat (U32.wrap (Z.of_nat (List.length data)))) data).

(** The register and program-counter assignments that close
    [Load_BS2]. *)
Definition Load_BS2_registers : Run unit :=
  modify_ppc (set_gpr 3 0xfff0001f) ;;
  modify_ppc (set_gpr 4 0x00002030) ;;
  modify_ppc (set_gpr 5 0x0000009c) ;;
  modify_ppc (set_msr 0x00002030) ;;
  modify_ppc (set_spr SPR_HID0 0x0011c464) ;;
  modify_ppc (set_spr SPR_IBAT0U 0x80001fff) ;;
  modify_ppc (set_spr SPR_IBAT0L 0x00000002) ;;
  modify_ppc (set_spr SPR_IBAT3U 0xfff0001f) ;;
  modify_ppc (set_spr SPR_IBAT3L 0xfff00001) ;;
  modify_ppc (set_spr SPR_DBAT0U 0x80001fff) ;;
  modify_ppc (set_spr SPR_DBAT0L 0x00000002) ;;
  modify_ppc (set_spr SPR_DBAT1U 0xc0001fff) ;;
  modify_ppc (set_spr SPR_DBAT1L 0x0000002a) ;;
  modify_ppc (set_spr SPR_DBAT3U 0xfff0001f) ;;
  modify_ppc (set_spr SPR_DBAT3L 0xfff00001) ;;
  DBATUpdated_ ;;
  IBATUpdated_ ;;
  modify_ppc (set_pc 0x81200150).

(** An access outside the file buffer.  C++ gives the run no meaning from
    there on (a process usually dies of it): the model hands the run to
    [BufferOverrun], of which nothing is known, so that nothing can be
    proved of such a run but what holds whatever happens. *)
Definition buffer_overrun : Run bool :=
  call EvBufferOverrun (BufferOverrun sv).

(** [CBoot::Load_BS2].  The source does not look at the size of the file:
    [Descrambler(data.data() + 0x100, 0x1AFE00)] rewrites
    [data[0x100 .. 0x1AFF00)] and the second [CopyToEmu] reads
    [data.data()[0x820 .. 0x1B0620)], whose last byte may be the
    terminator.  The tests on [size] below are not tests of the source:
    they tell the runs in which these accesses stay inside the buffer from
    those in which they do not. *)
Definition Load_BS2 (boot_rom_filename : string) : Run bool :=
  (* Load the whole ROM dump *)
  log (EvReadFileToString boot_rom_filename) ;;
  match File_ReadFileToString sv boot_rom_filename with
  | None => ret false
  | Some data =>
      let size := Z.of_nat (List.length data) in
      (* Use zlibs crc32 implementation to compute the hash *)
      let ipl_hash := ipl_hash_of data in
      let ipl_region := classify_ipl ipl_hash in
      (* the default: label of the switch *)
      when (Region_eqb ipl_region UNKNOWN_REGION)
           (PanicAlertT (Alert_IPL_unknown_hash ipl_hash)) ;;
      cfg <- get_config ;;
      let boot_region := m_region cfg in
      when (negb (Region_eqb ipl_region UNKNOWN_REGION)
            && negb (Region_eqb boot_region ipl_region))
           (PanicAlertT (Alert_IPL_region_mismatch ipl_region boot_region)) ;;
      (* Run the descrambler over the encrypted section containing BS1/BS2 *)
      if size <? 0x100 + 0x1AFE00 then buffer_overrun
      else
        log (EvDescrambler 0x100 0x1AFE00) ;;
        let data := in_place (Descrambler sv) data 0x100 0x1AFE00 in
        Memory_CopyToEmu_ 0x01200000 (slice data 0x100 0x700) ;;
        if size + 1 <? 0x820 + 0x1AFE00 then buffer_overrun
        else
          Memory_CopyToEmu_ 0x01300000 (slice (c_str data) 0x820 0x1AFE00) ;;
          Load_BS2_registers ;;
          ret true
  end.

(** The mounting of a companion disc that the [BOOT_DOL] and [BOOT_ELF]
    cases share: a directory as virtual disc, else the default image. *)
Definition mount_root_or_default (cfg : SConfig) (is_wii : bool)
           (apploader dol : string) : Run unit :=
  if negb (string_empty (m_strDVDRoot cfg)) then
    log (EvNoticeLog ("Setting DVDRoot " ++ m_strDVDRoot cfg)%string) ;;
    on_ext (EvSetVolumeDirectory (m_strDVDRoot cfg) is_wii apploader dol)
           (SetVolumeDirectory sv (m_strDVDRoot cfg) is_wii apploader dol)
  else if negb (string_empty (m_strDefaultISO cfg)) then
    log (EvNoticeLog ("Loading default ISO " ++ m_strDefaultISO cfg)%string) ;;
    on_ext (EvSetVolumeName (m_strDefaultISO cfg))
           (SetVolumeName sv (m_strDefaultISO cfg))
  else ret tt.

Definition HLE_PatchFunctions_ : Run unit :=
  on_ext EvHLE_PatchFunctions (HLE_PatchFunctions sv).

(** [if (LoadMapFromFilename()) HLE::PatchFunctions();] *)
Definition load_map_and_patch : Run unit :=
  map_loaded <- LoadMapFromFilename ;;
  when map_loaded HLE_PatchFunctions_.

(** Each [case] of the [switch] of [BootUp] yields [false] where the
    source has [return false;] and [true] where it reaches [break;]. *)

(** [case SConfig::BOOT_ISO:] *)
Definition BootUp_ISO : Run bool :=
  cfg <- get_config ;;
  on_ext (EvSetVolumeName (m_strFilename cfg))
         (SetVolumeName sv (m_strFilename cfg)) ;;
  x <- get_ext ;;
  if negb (IsDiscInside sv x) then ret false
  else
    let is_wii_disc := is_WII_DISC (Volume_GetVolumeType sv x) in
    when (negb (Bool.eqb is_wii_disc (bWii cfg)))
         (PanicAlertT Alert_ISO_wrong_console_mode) ;;
    put_config (set_bWii is_wii_disc cfg) ;;
    cfg <- get_config ;;
    (* HLE BS2 or not *)
    (if bHLE_BS2 cfg then
       call (EvEmulatedBS2 (bWii cfg)) (EmulatedBS2 sv (bWii cfg)) ;;
       ret tt
     else
       loaded <- Load_BS2 (m_strBootROM cfg) ;;
       if negb loaded then
         (* If we can't load the bootrom file we HLE it instead *)
         call (EvEmulatedBS2 (bWii cfg)) (EmulatedBS2 sv (bWii cfg)) ;;
         ret tt
       else ret tt) ;;
    on_ext EvLoadPatches (PatchEngine_LoadPatches sv cfg) ;;
    (* Scan for common HLE functions *)
    when (bHLE_BS2 cfg && negb (bEnableDebugging cfg))
         (on_ext (EvFindFunctions 0x80004000 0x811fffff)
                 (PPCAnalyst_FindFunctions sv 0x80004000 0x811fffff) ;;
          let db_path := (File_GetSysDirectory sv ++ TOTALDB sv)%string in
          log (EvSignatureDB_Load db_path) ;;
          when (SignatureDB_Load sv db_path)
               (on_ext EvSignatureDB_Apply (SignatureDB_Apply sv db_path) ;;
                HLE_PatchFunctions_ ;;
                log EvSignatureDB_Clear)) ;;
    (* Try to load the symbol map if there is one *)
    load_map_and_patch ;;
    ret true.

(** The block of [case SConfig::BOOT_DOL:] guarded by
    [if (!EmulatedBS2(dolWii))]. *)
Definition BootUp_DOL_direct_entry (filename : string) : Run unit :=
  (* Set up MSR and the BAT SPR registers. *)
  modify_ppc (fun p => set_msr (Z.lor (msr p) (UReg_MSR_FP sv)) p) ;;
  modify_ppc (fun p => set_msr (Z.lor (msr p) (UReg_MSR_DR sv)) p) ;;
  modify_ppc (fun p => set_msr (Z.lor (msr p) (UReg_MSR_IR sv)) p) ;;
  modify_ppc (fun p => set_msr (Z.lor (msr p) (UReg_MSR_EE sv)) p) ;;
  modify_ppc (set_spr SPR_IBAT0U 0x80001fff) ;;
  modify_ppc (set_spr SPR_IBAT0L 0x00000002) ;;
  modify_ppc (set_spr SPR_IBAT4U 0x90001fff) ;;
  modify_ppc (set_spr SPR_IBAT4L 0x10000002) ;;
  modify_ppc (set_spr SPR_DBAT0U 0x80001fff) ;;
  modify_ppc (set_spr SPR_DBAT0L 0x00000002) ;;
  modify_ppc (set_spr SPR_DBAT1U 0xc0001fff) ;;
  modify_ppc (set_spr SPR_DBAT1L 0x0000002a) ;;
  modify_ppc (set_spr SPR_DBAT4U 0x90001fff) ;;
  modify_ppc (set_spr SPR_DBAT4L 0x10000002) ;;
  modify_ppc (set_spr SPR_DBAT5U 0xd0001fff) ;;
  modify_ppc (set_spr SPR_DBAT5L 0x1000002a) ;;
  when (DolLoader_IsWii sv filename)
       (modify_ppc (fun p => set_spr SPR_HID4
                               (Z.lor (spr p SPR_HID4) (UReg_HID4_SBE sv))
                               p)) ;;
  DBATUpdated_ ;;
  IBATUpdated_ ;;
  (* we default to IOS58 *)
  when (DolLoader_IsWii sv filename)
       (call (EvSetupWiiMemory 0x000000010000003a)
             (SetupWiiMemory sv 0x000000010000003a) ;;
        ret tt) ;;
  call (EvDolLoader_Load filename) (DolLoader_Load sv filename) ;;
  modify_ppc (set_pc (DolLoader_GetEntryPoint sv filename)).

(** [case SConfig::BOOT_DOL:] *)
Definition BootUp_DOL : Run bool :=
  cfg <- get_config ;;
  let filename := m_strFilename cfg in
  if negb (DolLoader_IsValid sv filename) then ret false
  else
    (* Check if we have gotten a Wii file or not *)
    let dolWii := DolLoader_IsWii sv filename in
    when (negb (Bool.eqb dolWii (bWii cfg)))
         (PanicAlertT Alert_DOL_wrong_console_mode) ;;
    mount_root_or_default cfg dolWii (m_strApploader cfg) filename ;;
    hle <- call (EvEmulatedBS2 dolWii) (EmulatedBS2 sv dolWii) ;;
    when (negb hle) (BootUp_DOL_direct_entry filename) ;;
    load_map_and_patch ;;
    ret true.

(** [case SConfig::BOOT_ELF:] *)
Definition BootUp_ELF : Run bool :=
  cfg <- get_config ;;
  (* load image or create virtual drive from directory *)
  mount_root_or_default cfg (bWii cfg) "" "" ;;
  (* Poor man's bootup *)
  (if bWii cfg then
     call (EvSetupWiiMemory 0x000000010000003a)
          (SetupWiiMemory sv 0x000000010000003a) ;;
     ret tt
   else
     call (EvEmulatedBS2_GC true) (EmulatedBS2_GC sv true) ;;
     ret tt) ;;
  Load_FST (bWii cfg) ;;
  loaded <- call (EvBoot_ELF (m_strFilename cfg))
                 (Boot_ELF sv (m_strFilename cfg)) ;;
  if negb loaded then ret false
  else
    UpdateDebugger_MapLoaded ;;
    on_ext EvAddAutoBreakpoints (AddAutoBreakpoints sv) ;;
    ret true.

(** [case SConfig::BOOT_WII_NAND:].  The call to [Boot_WiiWAD] is an
    expression statement: whatever it returns is dropped. *)
Definition BootUp_WII_NAND : Run bool :=
  cfg <- get_config ;;
  call (EvBoot_WiiWAD (m_strFilename cfg))
       (Boot_WiiWAD sv (m_strFilename cfg)) ;;
  on_ext EvLoadPatches (PatchEngine_LoadPatches sv cfg) ;;
  load_map_and_patch ;;
  (* load default image or create virtual drive from directory *)
  (if negb (string_empty (m_strDVDRoot cfg)) then
     on_ext (EvSetVolumeDirectory (m_strDVDRoot cfg) true "" "")
            (SetVolumeDirectory sv (m_strDVDRoot cfg) true "" "")
   else if negb (string_empty (m_strDefaultISO cfg)) then
     on_ext (EvSetVolumeName (m_strDefaultISO cfg))
            (SetVolumeName sv (m_strDefaultISO cfg))
   else ret tt) ;;
  ret true.

(** [case SConfig::BOOT_BS2:] *)
Definition BootUp_BS2 : Run bool :=
  cfg <- get_config ;;
  loaded <- Load_BS2 (m_strBootROM cfg) ;;
  if loaded then
    load_map_and_patch ;;
    ret true
  else ret false.

(** The [switch (_StartupPara.m_BootType)] of [BootUp]. *)
Definition BootUp_dispatch (boot_type : EBootType) : Run bool :=
  match boot_type with
  | BOOT_ISO => BootUp_ISO
  | BOOT_DOL => BootUp_DOL
  | BOOT_ELF => BootUp_ELF
  | BOOT_WII_NAND => BootUp_WII_NAND
  | BOOT_BS2 => BootUp_BS2
  | BOOT_DFF => ret true
  | BOOT_out_of_range _ =>
      PanicAlertT Alert_unknown_file_type ;;
      ret false
  end.

(** What [BootUp] does before the [switch]. *)
Definition BootUp_prologue : Run unit :=
  cfg <- get_config ;;
  log (EvNoticeLog ("Booting " ++ m_strFilename cfg)%string) ;;
  on_ext EvSymbolDB_Clear (SymbolDB_Clear sv) ;;
  (* PAL Wii uses NTSC framerate and linecount in 60Hz modes *)
  let ntsc := IsNTSC sv (m_region cfg) || (bWii cfg && bPAL60 cfg) in
  on_ext (EvVideoInterface_Preset ntsc) (VideoInterface_Preset sv ntsc).

(** [CBoot::BootUp]. *)
Definition BootUp : Run bool :=
  BootUp_prologue ;;
  cfg <- get_config ;;
  reached_break <- BootUp_dispatch (m_BootType cfg) ;;
  if reached_break then
    on_ext EvHLE_PatchFixedFunctions (HLE_PatchFixedFunctions sv) ;;
    ret true
  else ret false.

End Boot.

(** ** A concrete instance of the services

    A small host with two mountable disc images, two full-size firmware
    dumps, one of them with a documented checksum, one DOL and one
    installed title, used to run the model on explicit inputs. *)

Module Demo.

(** CRC-32 as zlib computes it (reflected polynomial [0xEDB88320]). *)
Definition crc32_bit (c : Z) : Z :=
  if Z.odd c then Z.lxor (Z.shiftr c 1) 0xEDB88320 else Z.shiftr c 1.

Definition crc32_byte (crc : Z) (b : byte) : Z :=
  let c := Z.lxor crc (Z.of_N (Byte.to_N b)) in
  crc32_bit (crc32_bit (crc32_bit (crc32_bit
    (crc32_bit (crc32_bit (crc32_bit (crc32_bit c))))))).

Definition zlib_crc32 (data : list byte) : Z :=
  Z.lxor (fold_left crc32_byte data 0xFFFFFFFF) 0xFFFFFFFF.

Definition byte_of_Z (z : Z) : byte :=
  match Byte.of_N (Z.to_N (z mod 256)) with
  | Some b => b
  | None => x00
  end.

(** A stand-in cipher: complements every byte of the range. *)
Definition complement (b : byte) : byte :=
  byte_of_Z (Z.lxor (Z.of_N (Byte.to_N b)) 0xFF).

Definition descramble (l : list byte) : list byte := map complement l.

Definition descramble_size
  : forall l, List.length (descramble l) = List.length l :=
  fun l => length_map complement l.

Record Ext : Type := mkExt {
  mounted : option string;
  ram : list (Z * list byte);
  map_loaded : option string
}.

Definition no_disc : Ext := mkExt None [] None.

Definition with_disc (image : string) : Ext := mkExt (Some image) [] None.

Definition mount (path : string) (x : Ext) : Ext :=
  mkExt (if String.eqb path "game.iso" || String.eqb path "odd.iso"
         then Some path else None)
        (ram x) (map_loaded x).

(** The header fields at 0x424, 0x428 and 0x42c of the two images:
    "odd.iso" announces a maximum FST size of [0x81800000]. *)
Definition disc_read (image : string) (offset length : Z) : list byte :=
  if offset =? 0x0424 then [x00; x00; x04; x40]
  else if offset =? 0x0428 then [x00; x00; x00; x20]
  else if offset =? 0x042c then
    (if String.eqb image "odd.iso" then [x81; x80; x00; x00]
     else [x00; x00; x10; x00])
  else repeat x01 (Z.to_nat length).

Definition store (address : Z) (bytes : list byte) (x : Ext) : Ext :=
  mkExt (mounted x) ((address, bytes) :: ram x) (map_loaded x).

Definition u32_bytes (v : Z) : list byte :=
  [byte_of_Z (Z.shiftr v 24); byte_of_Z (Z.shiftr v 16);
   byte_of_Z (Z.shiftr v 8); byte_of_Z v].

(** A full-size firmware dump (2 MiB) whose every byte is [0x5a]. *)
Definition ipl_size : Z := 0x200000.

Definition ipl_bin : list byte := repeat x5a (Z.to_nat ipl_size).

(** A full-size dump whose CRC-32 is [USA_v1_0]: zeroes between four
    leading [0xff] bytes and four trailing bytes chosen for that. *)
Definition usa_bin : list byte :=
  ([xff; xff; xff; xff] ++ repeat x00 (Z.to_nat (ipl_size - 8))
   ++ [x93; xcc; x3e; x8c])%list.

Definition read_file (path : string) : option (list byte) :=
  if String.eqb path "ipl.bin" then Some ipl_bin
  else if String.eqb path "usa.bin" then Some usa_bin
  else None.

Definition services : Services Ext :=
  {| File_ReadFileToString := read_file;
     File_Exists := fun path => String.eqb path "Maps/GAME01.map";
     File_GetUserPath_D_MAPS_IDX := "Maps/";
     File_GetSysDirectory := "Sys/";
     MAPS_DIR_DIR_SEP := "Maps/";
     TOTALDB := "totaldb.dsy";
     crc32 := zlib_crc32;
     Descrambler := descramble;
     Descrambler_size := descramble_size;
     IsNTSC := fun r => match r with NTSC_J | NTSC_U => true | _ => false end;
     NANDLoader_IsValid := fun path => String.eqb path "title.wad";
     NANDLoader_GetTitleId := fun _ => 0x0001000248414241;
     IsDiscInside :=
       fun x => match mounted x with Some _ => true | None => false end;
     Volume_Read :=
       fun x offset length decrypt =>
         match mounted x with
         | Some image => Some (disc_read image offset length)
         | None => None
         end;
     Volume_GetVolumeType := fun _ => GAMECUBE_DISC;
     SetVolumeName := mount;
     SetVolumeDirectory := fun root _ _ _ x => mount "game.iso" x;
     Memory_CopyToEmu := store;
     Memory_Write_U32 := fun value address => store address (u32_bytes value);
     Memory_Read_U32 := fun _ _ => 0;
     DBATUpdated := fun _ x => x;
     IBATUpdated := fun _ x => x;
     UReg_MSR_FP := 0x2000;
     UReg_MSR_DR := 0x10;
     UReg_MSR_IR := 0x20;
     UReg_MSR_EE := 0x8000;
     UReg_HID4_SBE := 0x02000000;
     SymbolDB_Clear := fun x => mkExt (mounted x) (ram x) None;
     SymbolDB_LoadMap :=
       fun path x => (true, mkExt (mounted x) (ram x) (Some path));
     Host_NotifyMapLoaded := fun x => x;
     VideoInterface_Preset := fun _ x => x;
     PatchEngine_LoadPatches := fun _ x => x;
     PPCAnalyst_FindFunctions := fun _ _ x => x;
     SignatureDB_Load := fun _ => true;
     SignatureDB_Apply := fun _ x => x;
     HLE_PatchFunctions := fun x => x;
     HLE_PatchFixedFunctions := fun x => x;
     AddAutoBreakpoints := fun x => x;
     EmulatedBS2 := fun _ _ p x => (true, set_pc 0x81300000 p, x);
     EmulatedBS2_GC := fun _ _ p x => (true, set_pc 0x81300000 p, x);
     SetupWiiMemory := fun _ _ p x => (true, p, x);
     Boot_ELF := fun path _ p x => (String.eqb path "homebrew.elf", p, x);
     Boot_WiiWAD := fun path _ p x => (String.eqb path "title.wad", p, x);
     DolLoader_IsValid := fun path => String.eqb path "C:/games/Foo.dol";
     DolLoader_IsWii := fun _ => false;
     DolLoader_GetEntryPoint := fun _ => 0x80003100;
     DolLoader_Load := fun _ _ p x => (tt, p, x);
     BufferOverrun := fun _ p x => (false, p, x)
  |}.

Definition cfg (boot_type : EBootType) (filename : string)
           (hle_bs2 debugging : bool) (boot_rom : string) : SConfig :=
  {| m_BootType := boot_type;
     m_strFilename := filename;
     m_region := PAL;
     bWii := false;
     bPAL60 := false;
     bHLE_BS2 := hle_bs2;
     bEnableDebugging := debugging;
     m_strDVDRoot := "";
     m_strDefaultISO := "";
     m_strApploader := "";
     m_strBootROM := boot_rom;
     m_strGameID := "GAME01" |}.

Definition reset : PPCState :=
  mkPPC (fun _ => 0) 0 (fun _ => 0) 0.

Definition world (c : SConfig) (x : Ext) : World Ext :=
  mkWorld c reset x.

End Demo.

(** ** Notions used to state the properties *)


(** The CPU state after the register assignments at the end of [Load_BS2],
    as the two BAT notifications see it, *)
Definition Load_BS2_registers_set (p : PPCState) : PPCState :=
  set_spr SPR_DBAT3L 0xfff00001 (set_spr SPR_DBAT3U 0xfff0001f
  (set_spr SPR_DBAT1L 0x0000002a (set_spr SPR_DBAT1U 0xc0001fff
  (set_spr SPR_DBAT0L 0x00000002 (set_spr SPR_DBAT0U 0x80001fff
  (set_spr SPR_IBAT3L 0xfff00001 (set_spr SPR_IBAT3U 0xfff0001f
  (set_spr SPR_IBAT0L 0x00000002 (set_spr SPR_IBAT0U 0x80001fff
  (set_spr SPR_HID0 0x0011c464
  (set_msr 0x00002030
  (set_gpr 5 0x0000009c (set_gpr 4 0x00002030 (set_gpr 3 0xfff0001f
   p)))))))))))))).

(** and after the assignment to [PC] that follows them. *)
Definition Load_BS2_cpu (p : PPCState) : PPCState :=
  set_pc 0x81200150 (Load_BS2_registers_set p).

(** The two alerts [Load_BS2] can raise, in program order. *)
Definition Load_BS2_alerts (ipl_hash : Z) (boot_region : Region)
  : list Event :=
  (if Region_eqb (classify_ipl ipl_hash) UNKNOWN_REGION
   then [EvPanicAlert (Alert_IPL_unknown_hash ipl_hash)] else [])
  ++ (if negb (Region_eqb (classify_ipl ipl_hash) UNKNOWN_REGION)
         && negb (Region_eqb boot_region (classify_ipl ipl_hash))
      then [EvPanicAlert
              (Alert_IPL_region_mismatch (classify_ipl ipl_hash) boot_region)]
      else []).

(** The registers [Load_BS2] assigns, read off a CPU state: r3, r4, r5, MSR,
    HID0, the five BAT pairs (upper, lower) and PC. *)
Definition hand_set_registers (p : PPCState) : list Z :=
  [gpr p 3; gpr p 4; gpr p 5; msr p; spr p SPR_HID0;
   spr p SPR_IBAT0U; spr p SPR_IBAT0L; spr p SPR_IBAT3U; spr p SPR_IBAT3L;
   spr p SPR_DBAT0U; spr p SPR_DBAT0L; spr p SPR_DBAT1U; spr p SPR_DBAT1L;
   spr p SPR_DBAT3U; spr p SPR_DBAT3L; pc p].

Definition Load_BS2_literals : list Z :=
  [0xfff0001f; 0x00002030; 0x0000009c; 0x00002030; 0x0011c464;
   0x80001fff; 0x00000002; 0xfff0001f; 0xfff00001;
   0x80001fff; 0x00000002; 0xc0001fff; 0x0000002a;
   0xfff0001f; 0xfff00001; 0x81200150].

(** General-purpose register [i] is hand-set by [Load_BS2 path]: every
    successful load leaves the same value in it, whatever it held before. *)
Definition gpr_hand_set {X} (sv : Services X) (path : string) (i : Z) : Prop :=
  exists v, forall w,
      result (Load_BS2 sv path w) = true ->
      gpr (ppcState (final (Load_BS2 sv path w))) i = v.

(** Byte [i] of a host buffer, if it has one. *)
Definition byte_at (data : list byte) (i : Z) : option byte :=
  nth_error data (Z.to_nat i).

(** The state of the DVD interface right after the [BOOT_ISO] case has
    mounted the configured image. *)
Definition ext_after_mount {X} (sv : Services X) (w : World X) : X :=
  SetVolumeName sv (m_strFilename (config w))
                (ext (final (BootUp_prologue sv w))).

(** The events the symbol-map step ([LoadMapFromFilename] followed by
    [HLE::PatchFunctions]) can emit. *)
Definition is_map_event (e : Event) : bool :=
  match e with
  | EvSymbolDB_LoadMap _ | EvHost_NotifyMapLoaded | EvHLE_PatchFunctions => true
  | _ => false
  end.

Definition is_alert (e : Event) : bool :=
  match e with
  | EvPanicAlert _ => true
  | _ => false
  end.

Definition is_EmulatedBS2 (e : Event) : bool :=
  match e with
  | EvEmulatedBS2 _ => true
  | _ => false
  end.

(** The events of the signature scan: the function scan and the three
    operations on the signature database. *)
Definition is_scan_event (e : Event) : bool :=
  match e with
  | EvFindFunctions _ _ | EvSignatureDB_Load _
  | EvSignatureDB_Apply | EvSignatureDB_Clear => true
  | _ => false
  end.

(** The events of the firmware bring-up step of the [BOOT_ISO] case, run
    from world [w]: the high-level stub when it is requested, else
    [Load_BS2] followed by the stub when the load failed. *)
Definition ISO_bring_up_events {X} (sv : Services X) (w : World X)
  : list Event :=
  if bHLE_BS2 (config w) then [EvEmulatedBS2 (bWii (config w))]
  else (events (Load_BS2 sv (m_strBootROM (config w)) w)
        ++ (if result (Load_BS2 sv (m_strBootROM (config w)) w) then []
            else [EvEmulatedBS2 (bWii (config w))]))%list.

(** The events of the signature scan of the [BOOT_ISO] case. *)
Definition signature_scan_events {X} (sv : Services X) : list Event :=
  EvFindFunctions 0x80004000 0x811fffff
  :: EvSignatureDB_Load (File_GetSysDirectory sv ++ TOTALDB sv)%string
  :: (if SignatureDB_Load sv (File_GetSysDirectory sv ++ TOTALDB sv)%string
      then [EvSignatureDB_Apply; EvHLE_PatchFunctions; EvSignatureDB_Clear]
      else []).

Definition ISO_scan_events {X} (sv : Services X) (cfg : SConfig)
  : list Event :=
  if bHLE_BS2 cfg && negb (bEnableDebugging cfg)
  then signature_scan_events sv else [].

(** What the [BOOT_ISO] path of [BootUp] emits before the firmware
    bring-up: the prologue, the mount and the console-mode warning. *)
Definition ISO_preamble_events {X} (sv : Services X) (w : World X)
  : list Event :=
  (events (BootUp_prologue sv w)
   ++ EvSetVolumeName (m_strFilename (config w))
   :: (if negb (Bool.eqb (is_WII_DISC
                            (Volume_GetVolumeType sv (ext_after_mount sv w)))
                         (bWii (config w)))
       then [EvPanicAlert Alert_ISO_wrong_console_mode] else []))%list.

(** The world in which the [BOOT_ISO] case starts its firmware bring-up:
    the image is mounted and the console mode follows the detected disc. *)
Definition ISO_world_at_bring_up {X} (sv : Services X) (w : World X)
  : World X :=
  mkWorld (set_bWii (is_WII_DISC
                       (Volume_GetVolumeType sv (ext_after_mount sv w)))
                    (config w))
          (ppcState w)
          (ext_after_mount sv w).

(** Does some character of [chars] occur in [s]? *)
Fixpoint occurs (chars s : string) : bool :=
  match s with
  | EmptyString => false
  | String a rest => StdString.mem a chars || occurs chars rest
  end.

(** The index just after the last character of [s] that belongs to [chars],
    or 0 when there is none. *)
Fixpoint begin_after (chars s : string) : nat :=
  match s with
  | EmptyString => 0
  | String a rest =>
      if occurs chars rest then S (begin_after chars rest)
      else if StdString.mem a chars then 1 else 0
  end.

(** The same index for the two path separators together. *)
Fixpoint separator_end (s : string) : nat :=
  match s with
  | EmptyString => 0
  | String a rest =>
      if has_separator rest then S (separator_end rest)
      else if is_separator a then 1 else 0
  end.

Fixpoint string_drop (n : nat) (s : string) : string :=
  match n, s with
  | O, _ => s
  | S _, EmptyString => EmptyString
  | S n', String _ rest => string_drop n' rest
  end.

Definition is_Write_U32 (e : Event) : bool :=
  match e with
  | EvWrite_U32 _ _ => true
  | _ => false
  end.

(** ** Whole-run properties of a computation *)

(** Every event a run of [m] can emit satisfies [P]. *)
Definition emits {X A} (P : Event -> bool) (m : M X A) : Prop :=
  forall w e, In e (events (m w)) -> P e = true.

(** A run of [m] leaves the component [f] of the world as it found it. *)
Definition keeps {X A T} (f : World X -> T) (m : M X A) : Prop :=
  forall w, f (final (m w)) = f w.

Definition is_final_patch (e : Event) : bool :=
  match e with
  | EvHLE_PatchFixedFunctions => true
  | _ => false
  end.

Definition is_mount (e : Event) : bool :=
  match e with
  | EvSetVolumeName _ | EvSetVolumeDirectory _ _ _ _ => true
  | _ => false
  end.

Definition not_final_patch (e : Event) : bool := negb (is_final_patch e).

(** The events a disc-image boot can emit once the disc is mounted and the
    console-mode warning is out, [wii] being the mode it settled on. *)
Definition is_ISO_tail_event (wii : bool) (e : Event) : bool :=
  match e with
  | EvEmulatedBS2 b => Bool.eqb b wii
  | EvReadFileToString _ | EvDescrambler _ _ | EvCopyToEmu _ _
  | EvDBATUpdated | EvIBATUpdated | EvBufferOverrun
  | EvPanicAlert (Alert_IPL_unknown_hash _)
  | EvPanicAlert (Alert_IPL_region_mismatch _ _)
  | EvLoadPatches | EvFindFunctions _ _ | EvSignatureDB_Load _
  | EvSignatureDB_Apply | EvSignatureDB_Clear
  | EvSymbolDB_LoadMap _ | EvHost_NotifyMapLoaded | EvHLE_PatchFunctions
  | EvHLE_PatchFixedFunctions => true
  | _ => false
  end.

(** The demo host with a high-level stub that never applies. *)
Definition demo_services_without_stub : Services Demo.Ext :=
  mkServices Demo.Ext
    (File_ReadFileToString Demo.services)
    (File_Exists Demo.services)
    (File_GetUserPath_D_MAPS_IDX Demo.services)
    (File_GetSysDirectory Demo.services)
    (MAPS_DIR_DIR_SEP Demo.services)
    (TOTALDB Demo.services)
    (crc32 Demo.services)
    (Descrambler Demo.services)
    (Descrambler_size Demo.services)
    (IsNTSC Demo.services)
    (NANDLoader_IsValid Demo.services)
    (NANDLoader_GetTitleId Demo.services)
    (IsDiscInside Demo.services)
    (Volume_Read Demo.services)
    (Volume_GetVolumeType Demo.services)
    (SetVolumeName Demo.services)
    (SetVolumeDirectory Demo.services)
    (Memory_CopyToEmu Demo.services)
    (Memory_Write_U32 Demo.services)
    (Memory_Read_U32 Demo.services)
    (DBATUpdated Demo.services)
    (IBATUpdated Demo.services)
    (UReg_MSR_FP Demo.services)
    (UReg_MSR_DR Demo.services)
    (UReg_MSR_IR Demo.services)
    (UReg_MSR_EE Demo.services)
    (UReg_HID4_SBE Demo.services)
    (SymbolDB_Clear Demo.services)
    (SymbolDB_LoadMap Demo.services)
    (Host_NotifyMapLoaded Demo.services)
    (VideoInterface_Preset Demo.services)
    (PatchEngine_LoadPatches Demo.services)
    (PPCAnalyst_FindFunctions Demo.services)
    (SignatureDB_Load Demo.services)
    (SignatureDB_Apply Demo.services)
    (HLE_PatchFunctions Demo.services)
    (HLE_PatchFixedFunctions Demo.services)
    (AddAutoBreakpoints Demo.services)
    (fun _ _ p x => (false, p, x))
    (EmulatedBS2_GC Demo.services)
    (SetupWiiMemory Demo.services)
    (Boot_ELF Demo.services)
    (Boot_WiiWAD Demo.services)
    (DolLoader_IsValid Demo.services)
    (DolLoader_IsWii Demo.services)
    (DolLoader_GetEntryPoint Demo.services)
    (DolLoader_Load Demo.services)
    (BufferOverrun Demo.services).

(** The world in which the [BOOT_DOL] case calls the high-level stub: the
    prologue has run and the companion disc, if any, is mounted. *)
Definition DOL_world_at_bring_up {X} (sv : Services X) (w : World X)
  : World X :=
  final (mount_root_or_default sv (config w)
           (DolLoader_IsWii sv (m_strFilename (config w)))
           (m_strApploader (config w)) (m_strFilename (config w))
           (final (BootUp_prologue sv w))).

(** The events an ELF boot can emit before it calls [Boot_ELF], [wii]
    being the configured console mode: the prologue, at most a mount, the
    bring-up of that mode, and the disc reads and memory writes of
    [Load_FST]. *)
Definition is_ELF_prefix_event (wii : bool) (e : Event) : bool :=
  match e with
  | EvNoticeLog _ | EvSymbolDB_Clear | EvVideoInterface_Preset _
  | EvSetVolumeName _ | EvSetVolumeDirectory _ _ _ _
  | EvVolumeRead _ _ _ | EvCopyToEmu _ _ | EvWrite_U32 _ _ => true
  | EvSetupWiiMemory id => wii && (id =? 0x000000010000003a)
  | EvEmulatedBS2_GC skip => negb wii && skip
  | _ => false
  end.

(** The demo host with a disc that is inside but cannot be read. *)
Definition demo_services_unreadable_disc : Services Demo.Ext :=
  mkServices Demo.Ext
    (File_ReadFileToString Demo.services)
    (File_Exists Demo.services)
    (File_GetUserPath_D_MAPS_IDX Demo.services)
    (File_GetSysDirectory Demo.services)
    (MAPS_DIR_DIR_SEP Demo.services)
    (TOTALDB Demo.services)
    (crc32 Demo.services)
    (Descrambler Demo.services)
    (Descrambler_size Demo.services)
    (IsNTSC Demo.services)
    (NANDLoader_IsValid Demo.services)
    (NANDLoader_GetTitleId Demo.services)
    (fun _ => true)
    (fun _ _ _ _ => None)
    (Volume_GetVolumeType Demo.services)
    (SetVolumeName Demo.services)
    (SetVolumeDirectory Demo.services)
    (Memory_CopyToEmu Demo.services)
    (Memory_Write_U32 Demo.services)
    (Memory_Read_U32 Demo.services)
    (DBATUpdated Demo.services)
    (IBATUpdated Demo.services)
    (UReg_MSR_FP Demo.services)
    (UReg_MSR_DR Demo.services)
    (UReg_MSR_IR Demo.services)
    (UReg_MSR_EE Demo.services)
    (UReg_HID4_SBE Demo.services)
    (SymbolDB_Clear Demo.services)
    (SymbolDB_LoadMap Demo.services)
    (Host_NotifyMapLoaded Demo.services)
    (VideoInterface_Preset Demo.services)
    (PatchEngine_LoadPatches Demo.services)
    (PPCAnalyst_FindFunctions Demo.services)
    (SignatureDB_Load Demo.services)
    (SignatureDB_Apply Demo.services)
    (HLE_PatchFunctions Demo.services)
    (HLE_PatchFixedFunctions Demo.services)
    (AddAutoBreakpoints Demo.services)
    (EmulatedBS2 Demo.services)
    (EmulatedBS2_GC Demo.services)
    (SetupWiiMemory Demo.services)
    (Boot_ELF Demo.services)
    (Boot_WiiWAD Demo.services)
    (DolLoader_IsValid Demo.services)
    (DolLoader_IsWii Demo.services)
    (DolLoader_GetEntryPoint Demo.services)
    (DolLoader_Load Demo.services)
    (BufferOverrun Demo.services).

(** What a [DVDRead] into [address] can have written: nothing, or one
    block at that address. *)
Definition is_copy_to (address : Z) (l : list Event) : Prop :=
  l = [] \/ exists bytes, l = [EvCopyToEmu address bytes].

Definition no_mount (e : Event) : bool := negb (is_mount e).

(** The companion disc the [BOOT_DOL], [BOOT_ELF] and [BOOT_WII_NAND]
    cases mount: the configured directory as a virtual disc when there is
    one, else the default image when there is one, else nothing. *)
Definition companion_mount (cfg : SConfig) (is_wii : bool)
           (apploader dol : string) : list Event :=
  if negb (string_empty (m_strDVDRoot cfg))
  then [EvSetVolumeDirectory (m_strDVDRoot cfg) is_wii apploader dol]
  else if negb (string_empty (m_strDefaultISO cfg))
       then [EvSetVolumeName (m_strDefaultISO cfg)]
       else [].

(** ** The notebook panes of the main frame
       (Source/Core/DolphinWX/FrameAui.cpp)

    [m_Mgr->GetAllPanes()] is the list of the panes' windows, in the order
    of the array; a window is told apart only by
    [IsKindOf(CLASSINFO(wxAuiNotebook))].  A notebook is the list of its
    pages, page [j] being [GetPage(j)] with tab text [GetPageText(j)].
    The four functions embedded here only read the panes.  Pane and page
    counts stay far below [2^31], so the [u32] and [int] counters do not
    wrap. *)

Module FrameAui.

Record Page : Type := mkPage {
  GetId : Z;
  GetPageText : string
}.

Inductive Window : Type :=
| AuiNotebook (pages : list Page)
| OtherWindow.

(** [window->IsKindOf(CLASSINFO(wxAuiNotebook))] *)
Definition IsKindOf_AuiNotebook (window : Window) : bool :=
  match window with
  | AuiNotebook _ => true
  | OtherWindow => false
  end.

(** The loop of [CFrame::GetNotebookCount], [Ret] being the count so
    far. *)
Fixpoint GetNotebookCount_loop (panes : list Window) (Ret : Z) : Z :=
  match panes with
  | [] => Ret
  | window :: rest =>
      GetNotebookCount_loop rest
        (if IsKindOf_AuiNotebook window then Ret + 1 else Ret)
  end.

(** [CFrame::GetNotebookCount]. *)
Definition GetNotebookCount (panes : list Window) : Z :=
  GetNotebookCount_loop panes 0.

(** The loop of [CFrame::GetNotebookFromId]; [None] is [nullptr]. *)
Fixpoint GetNotebookFromId_loop (panes : list Window) (j NBId : Z)
  : option Window :=
  match panes with
  | [] => None
  | window :: rest =>
      if negb (IsKindOf_AuiNotebook window)
      then GetNotebookFromId_loop rest j NBId
      else if j =? NBId then Some window
           else GetNotebookFromId_loop rest (j + 1) NBId
  end.

(** [CFrame::GetNotebookFromId]. *)
Definition GetNotebookFromId (panes : list Window) (NBId : Z)
  : option Window :=
  GetNotebookFromId_loop panes 0 NBId.

(** The inner loop of [GetNotebookPageFromId] and of
    [GetNotebookAffiliation]: the first page whose window has id [Id]. *)
Fixpoint page_with_id (pages : list Page) (Id : Z) : option Page :=
  match pages with
  | [] => None
  | page :: rest =>
      if GetId page =? Id then Some page else page_with_id rest Id
  end.

(** [CFrame::GetNotebookPageFromId]; [None] is [nullptr]. *)
Fixpoint GetNotebookPageFromId (panes : list Window) (Id : Z)
  : option Page :=
  match panes with
  | [] => None
  | AuiNotebook pages :: rest =>
      match page_with_id pages Id with
      | Some page => Some page
      | None => GetNotebookPageFromId rest Id
      end
  | OtherWindow :: rest => GetNotebookPageFromId rest Id
  end.

(** The loop of [CFrame::GetNotebookAffiliation]. *)
Fixpoint GetNotebookAffiliation_loop (panes : list Window) (j Id : Z) : Z :=
  match panes with
  | [] => -1
  | AuiNotebook pages :: rest =>
      match page_with_id pages Id with
      | Some _ => j
      | None => GetNotebookAffiliation_loop rest (j + 1) Id
      end
  | OtherWindow :: rest => GetNotebookAffiliation_loop rest j Id
  end.

(** [CFrame::GetNotebookAffiliation]. *)
Definition GetNotebookAffiliation (panes : list Window) (Id : Z) : Z :=
  GetNotebookAffiliation_loop panes 0 Id.

End FrameAui.

(** The calls by which the [BOOT_DOL] case itself puts a DOL into the
    machine: the BAT updates, the Wii memory set-up and the load of the
    container's sections. *)
Definition is_direct_entry_event (e : Event) : bool :=
  match e with
  | EvDBATUpdated | EvIBATUpdated | EvSetupWiiMemory _
  | EvDolLoader_Load _ => true
  | _ => false
  end.

(** The worlds an ELF boot passes through.  [ELF_world_at_FST] is the one
    in which [Load_FST] runs: the prologue has run, the companion disc, if
    any, is mounted and the machine has been brought up for the configured
    console mode.  [ELF_world_at_load] is the one [Load_FST] leaves, in
    which [Boot_ELF] is called. *)
Definition ELF_world_at_FST {X} (sv : Services X) (w : World X) : World X :=
  let wm := final (mount_root_or_default sv (config w) (bWii (config w))
                     "" "" (final (BootUp_prologue sv w))) in
  let r := (if bWii (config w)
            then SetupWiiMemory sv 0x000000010000003a
            else EmulatedBS2_GC sv true)
             (config wm) (ppcState wm) (ext wm) in
  mkWorld (config wm) (snd (fst r)) (snd r).

Definition ELF_world_at_load {X} (sv : Services X) (w : World X) : World X :=
  final (Load_FST sv (bWii (config w)) (ELF_world_at_FST sv w)).

(** * Properties *)

(** ** Arithmetic of the arena boundary *)

Lemma U32_wrap_range : forall z, U32.in_range (U32.wrap z).
Proof.
  intro z. unfold U32.in_range, U32.wrap, U32.modulus.
  apply Z.mod_pos_bound. reflexivity.
Qed.

Lemma U32_shl_range : forall a s, U32.in_range (U32.shl a s).
Proof. intros. apply U32_wrap_range. Qed.

Lemma AlignDown_multiple :
  forall value size, 0 < size -> AlignDown value size mod size = 0.
Proof.
  intros value size Hs. unfold AlignDown.
  rewrite Zminus_mod, Z.mod_mod, Z.sub_diag by lia.
  apply Z.mod_0_l. lia.
Qed.

(** [AlignDown] is what the specification says: the greatest multiple of
    [size] that does not exceed [value]. *)
Lemma AlignDown_greatest :
  forall value size, 0 < size ->
    AlignDown value size <= value /\
    forall k, k * size <= value -> k * size <= AlignDown value size.
Proof.
  intros value size Hs. unfold AlignDown.
  pose proof (Z.mod_pos_bound value size Hs) as Hm.
  split; [lia|].
  intros k Hk.
  pose proof (Z.div_mod value size ltac:(lia)) as Hd.
  assert (k <= value / size) by (apply Z.div_le_lower_bound; lia).
  nia.
Qed.

Lemma arena_high_of_cases :
  forall max_fst_size is_wii,
    let scaled := U32.shl max_fst_size (fst_shift is_wii) in
    let a := arena_high_of max_fst_size is_wii in
    (scaled <= FST_CEILING ->
       a <= FST_CEILING - scaled < a + 32) /\
    (FST_CEILING < scaled -> 0x81800000 <= a < U32.modulus).
Proof.
  intros m is_wii scaled a.
  pose proof (U32_shl_range m (fst_shift is_wii)) as Hr.
  fold scaled in Hr. unfold U32.in_range in Hr.
  subst a. unfold arena_high_of, AlignDown, U32.sub, U32.wrap.
  fold scaled. unfold FST_CEILING, U32.modulus in *.
  change (2 ^ 32) with 4294967296 in *.
  split; intro H.
  - rewrite (Z.mod_small (2172649471 - scaled)) by lia.
    pose proof (Z.mod_pos_bound (2172649471 - scaled) 32 ltac:(lia)). lia.
  - replace (2172649471 - scaled)
      with ((6467616767 - scaled) + (-1) * 4294967296) by lia.
    rewrite Z.mod_add by lia.
    rewrite (Z.mod_small (6467616767 - scaled)) by lia.
    pose proof (Z.div_mod (6467616767 - scaled) 32 ltac:(lia)).
    pose proof (Z.mod_pos_bound (6467616767 - scaled) 32 ltac:(lia)).
    assert (67895296 <= (6467616767 - scaled) / 32)
      by (apply Z.div_le_lower_bound; lia).
    lia.
Qed.

Lemma arena_high_of_range :
  forall max_fst_size is_wii,
    U32.in_range (arena_high_of max_fst_size is_wii).
Proof.
  intros m is_wii. unfold arena_high_of, AlignDown.
  pose proof (U32_wrap_range
                (FST_CEILING - U32.shl m (fst_shift is_wii))) as Hv.
  fold (U32.sub FST_CEILING (U32.shl m (fst_shift is_wii))) in Hv.
  unfold U32.in_range in *.
  set (v := U32.sub FST_CEILING (U32.shl m (fst_shift is_wii))) in *.
  pose proof (Z.mod_pos_bound v 32 ltac:(lia)).
  pose proof (Z.mod_le v 32 ltac:(lia) ltac:(lia)).
  lia.
Qed.

(** C5, as amended.  For every 32-bit maximum FST size, in either console
    mode, the arena boundary computed by [Load_FST] is a 32-bit value that
    is a multiple of 32; it does not exceed the ceiling [0x817FFFFF] exactly
    when the scaled size ([max_fst_size << shift], truncated to 32 bits) does
    not exceed that ceiling, and it is then the greatest multiple of 32 below
    [0x817FFFFF - scaled size]. *)
Theorem Load_FST_arena_boundary :
  forall max_fst_size is_wii,
    U32.in_range max_fst_size ->
    let scaled := U32.shl max_fst_size (fst_shift is_wii) in
    let a := arena_high_of max_fst_size is_wii in
    a mod 32 = 0 /\
    U32.in_range a /\
    (a <= FST_CEILING <-> scaled <= FST_CEILING) /\
    (scaled <= FST_CEILING ->
       a <= FST_CEILING - scaled /\
       forall k, k * 32 <= FST_CEILING - scaled -> k * 32 <= a).
Proof.
  intros m is_wii Hm scaled a.
  pose proof (arena_high_of_cases m is_wii) as [Hlow Hhigh].
  fold scaled in Hlow, Hhigh. fold a in Hlow, Hhigh.
  pose proof (U32_shl_range m (fst_shift is_wii)) as Hr.
  fold scaled in Hr. unfold U32.in_range in *.
  assert (Hal : a mod 32 = 0).
  { subst a. unfold arena_high_of. apply AlignDown_multiple. lia. }
  unfold FST_CEILING, U32.modulus in *.
  change (2 ^ 32) with 4294967296 in *.
  pose proof (arena_high_of_range m is_wii) as Hrange.
  fold a in Hrange. unfold U32.in_range, U32.modulus in Hrange.
  change (2 ^ 32) with 4294967296 in Hrange.
  repeat split.
  - exact Hal.
  - lia.
  - lia.
  - intro Ha. destruct (Z_le_gt_dec scaled 2172649471); lia.
  - intro Hs. lia.
  - lia.
  - intros k Hk.
    assert (a = AlignDown (2172649471 - scaled) 32) as ->.
    { subst a. unfold arena_high_of, U32.sub, U32.wrap, FST_CEILING,
        U32.modulus. fold scaled.
      rewrite Z.mod_small; [reflexivity|].
      change (2 ^ 32) with 4294967296. lia. }
    apply AlignDown_greatest; lia.
Qed.

Lemma Load_FST_arena_boundary_witness :
  U32.in_range 0x1000 /\
  arena_high_of 0x1000 true mod 32 = 0 /\
  arena_high_of 0x1000 true <= FST_CEILING.
Proof.
  assert (H : U32.in_range 0x1000) by (unfold U32.in_range, U32.modulus; lia).
  pose proof (Load_FST_arena_boundary 0x1000 true H) as (Ha & _ & Hiff & _).
  split; [exact H|]. split; [exact Ha|].
  apply Hiff. vm_compute. discriminate.
Defined.

(** C5, as stated, fails: a header announcing a maximum FST size of
    [0x81800000] (primary mode, unshifted) makes the 32-bit subtraction wrap
    around, and the boundary [0xFFFFFFE0] lies above the ceiling; [Load_FST]
    writes that value to the low-memory slot [0x34]. *)
Lemma Load_FST_arena_boundary_counterexample :
  U32.in_range 0x81800000 /\
  arena_high_of 0x81800000 false = 0xFFFFFFE0 /\
  ~ (arena_high_of 0x81800000 false <= FST_CEILING) /\
  In (EvWrite_U32 0xFFFFFFE0 0x34)
     (events (Load_FST Demo.services false
                (Demo.world (Demo.cfg BOOT_ELF "homebrew.elf" false false "")
                            (Demo.with_disc "odd.iso")))).
Proof.
  split; [unfold U32.in_range, U32.modulus; lia|].
  split; [vm_compute; reflexivity|].
  split; [vm_compute; intro H; apply H; reflexivity|].
  vm_compute. do 6 right. left. reflexivity.
Qed.

(** ** The monad's bookkeeping *)

Lemma when_log_final :
  forall X (b : bool) (e : Event) (w : World X),
    final ((if b then log e else ret tt) w) = w.
Proof. intros X [] e w; reflexivity. Qed.

Lemma when_log_events :
  forall X (b : bool) (e : Event) (w : World X),
    events ((if b then log e else ret tt) w) = if b then [e] else [].
Proof. intros X [] e w; reflexivity. Qed.

Ltac run :=
  cbn [bind ret log on_ext call modify_ppc get_config get_ext put_config
       result final events ppcState config ext app fst snd].

(** ** [Load_BS2] *)

Section Load_BS2_facts.

Context {X : Type} (sv : Services X).

Lemma Load_BS2_unreadable :
  forall path w,
    File_ReadFileToString sv path = None ->
    Load_BS2 sv path w = mkOutcome false w [EvReadFileToString path].
Proof.
  intros path w H. unfold Load_BS2. unfold bind at 1.
  cbn [log result final events]. rewrite H. reflexivity.
Qed.

(** The run in which every buffer access stays inside the file: the file
    holds at least the [0x1B061F] bytes that end one before the end of the
    second block, whose last byte is then the terminator. *)
Lemma Load_BS2_in_bounds :
  forall path w data,
    File_ReadFileToString sv path = Some data ->
    0x820 + 0x1AFE00 - 1 <= Z.of_nat (List.length data) ->
    let scrambled := in_place (Descrambler sv) data 0x100 0x1AFE00 in
    let regs := Load_BS2_registers_set (ppcState w) in
    Load_BS2 sv path w =
    mkOutcome true
      (mkWorld (config w) (Load_BS2_cpu (ppcState w))
         (IBATUpdated sv regs
            (DBATUpdated sv regs
               (Memory_CopyToEmu sv 0x01300000
                  (slice (c_str scrambled) 0x820 0x1AFE00)
                  (Memory_CopyToEmu sv 0x01200000
                     (slice scrambled 0x100 0x700) (ext w))))))
      (EvReadFileToString path
       :: Load_BS2_alerts (ipl_hash_of sv data) (m_region (config w))
       ++ [EvDescrambler 0x100 0x1AFE00;
           EvCopyToEmu 0x01200000 (slice scrambled 0x100 0x700);
           EvCopyToEmu 0x01300000 (slice (c_str scrambled) 0x820 0x1AFE00);
           EvDBATUpdated; EvIBATUpdated]).
Proof.
  intros path w data H Hlen scrambled regs.
  assert (E1 : (Z.of_nat (List.length data) <? 0x100 + 0x1AFE00) = false)
    by (apply Z.ltb_ge; lia).
  assert (E2 : (Z.of_nat (List.length data) + 1 <? 0x820 + 0x1AFE00) = false)
    by (apply Z.ltb_ge; lia).
  unfold Load_BS2. unfold bind at 1.
  cbn [log result final events]. rewrite H. cbv zeta. rewrite E1, E2.
  unfold Load_BS2_registers, Memory_CopyToEmu_, DBATUpdated_, IBATUpdated_,
    PanicAlertT, when, Load_BS2_alerts.
  run. rewrite !when_log_final, !when_log_events. run.
  rewrite <- app_assoc. reflexivity.
Qed.

Lemma Load_BS2_result :
  forall path w data,
    File_ReadFileToString sv path = Some data ->
    0x820 + 0x1AFE00 - 1 <= Z.of_nat (List.length data) ->
    result (Load_BS2 sv path w) = true.
Proof.
  intros path w data H Hlen.
  rewrite (Load_BS2_in_bounds path w data H Hlen). reflexivity.
Qed.

(** Whatever the size of the file, a readable one makes [Load_BS2] raise
    its alerts first; what follows is the descrambling and the two copies,
    as far as the buffer reaches. *)
Lemma Load_BS2_events :
  forall path w data,
    File_ReadFileToString sv path = Some data ->
    exists tail,
      events (Load_BS2 sv path w)
      = (EvReadFileToString path
         :: Load_BS2_alerts (ipl_hash_of sv data) (m_region (config w))
         ++ tail)%list /\
      forall e, In e tail ->
                match e with
                | EvDescrambler _ _ | EvCopyToEmu _ _ | EvDBATUpdated
                | EvIBATUpdated | EvBufferOverrun => True
                | _ => False
                end.
Proof.
  intros path w data H.
  unfold Load_BS2. unfold bind at 1.
  cbn [log result final events]. rewrite H. cbv zeta.
  unfold Load_BS2_registers, Memory_CopyToEmu_, DBATUpdated_, IBATUpdated_,
    PanicAlertT, when, Load_BS2_alerts, buffer_overrun.
  destruct (Z.of_nat (List.length data) <? 0x100 + 0x1AFE00);
    [|destruct (Z.of_nat (List.length data) + 1 <? 0x820 + 0x1AFE00)];
    run; rewrite ?when_log_final, !when_log_events; run;
    match goal with
    | |- exists tail, (_ :: _ ++ _ ++ ?t)%list = _ /\ _ => exists t
    end;
    (split; [rewrite <- app_assoc; reflexivity|]);
    intros e Hin; cbn [In] in Hin;
    repeat (destruct Hin as [<- | Hin]; [exact I|]); contradiction.
Qed.

End Load_BS2_facts.

(** ** The checksum table *)







(** C3.  When the firmware file cannot be read, [Load_BS2] returns false,
    leaves the configuration, the CPU state (registers and program counter)
    and the rest of the machine (guest memory included) exactly as they
    were, and its only interaction is the failed read itself: no memory
    write, no descrambling, no BAT update. *)
Theorem Load_BS2_unreadable_is_atomic :
  forall X (sv : Services X) path w,
    File_ReadFileToString sv path = None ->
    let o := Load_BS2 sv path w in
    result o = false /\
    final o = w /\
    events o = [EvReadFileToString path] /\
    existsb is_memory_write (events o) = false.
Proof.
  intros X sv path w H o. subst o.
  rewrite (Load_BS2_unreadable sv path w H). cbn [result final events].
  repeat split.
Qed.

Lemma Load_BS2_unreadable_is_atomic_witness :
  File_ReadFileToString Demo.services "missing.bin" = None /\
  final (Load_BS2 Demo.services "missing.bin"
           (Demo.world (Demo.cfg BOOT_BS2 "" false false "missing.bin")
                       Demo.no_disc))
  = Demo.world (Demo.cfg BOOT_BS2 "" false false "missing.bin") Demo.no_disc.
Proof.
  assert (H : File_ReadFileToString Demo.services "missing.bin" = None)
    by reflexivity.
  split; [exact H|].
  exact (proj1 (proj2 (Load_BS2_unreadable_is_atomic
                         _ Demo.services "missing.bin"
                         (Demo.world
                            (Demo.cfg BOOT_BS2 "" false false "missing.bin")
                            Demo.no_disc) H))).
Defined.

(** ** The hand-set CPU state *)

Lemma Load_BS2_cpu_literals :
  forall p, hand_set_registers (Load_BS2_cpu p) = Load_BS2_literals.
Proof. intro p. reflexivity. Qed.

Lemma Load_BS2_cpu_gpr_frame :
  forall p i, i <> 3 -> i <> 4 -> i <> 5 -> gpr (Load_BS2_cpu p) i = gpr p i.
Proof.
  intros p i H3 H4 H5. unfold Load_BS2_cpu, Load_BS2_registers_set.
  cbn [set_pc set_spr set_msr gpr].
  unfold set_gpr. cbn [gpr].
  destruct (Z.eqb_spec i 5); [contradiction|].
  destruct (Z.eqb_spec i 4); [contradiction|].
  destruct (Z.eqb_spec i 3); [contradiction|].
  reflexivity.
Qed.

Lemma Load_BS2_cpu_spr_frame :
  forall p s,
    In s [SPR_HID4; SPR_IBAT4U; SPR_IBAT4L; SPR_DBAT4U; SPR_DBAT4L;
          SPR_DBAT5U; SPR_DBAT5L] ->
    spr (Load_BS2_cpu p) s = spr p s.
Proof.
  intros p s H. simpl in H.
  repeat (destruct H as [<- | H]; [reflexivity|]). contradiction.
Qed.

Lemma Load_BS2_final_cpu :
  forall X (sv : Services X) path w data,
    File_ReadFileToString sv path = Some data ->
    0x820 + 0x1AFE00 - 1 <= Z.of_nat (List.length data) ->
    ppcState (final (Load_BS2 sv path w)) = Load_BS2_cpu (ppcState w).
Proof.
  intros X sv path w data Hread Hlen.
  rewrite (Load_BS2_in_bounds sv path w data Hread Hlen). reflexivity.
Qed.

(** C4, as amended.  Every load of a firmware image -- a file that can be
    read and holds the ranges [Load_BS2] installs -- succeeds, and after it
    the registers [Load_BS2] hand-sets -- three general-purpose registers
    (r3, r4, r5), the machine status register, HID0, the five BAT pairs
    IBAT0, IBAT3, DBAT0, DBAT1, DBAT3 -- and the program counter hold the
    fixed literals of the source, the same for every image, checksum, region
    and initial state (so also for any two such loads); every other
    general-purpose register and every other special-purpose register keeps
    the value it had before. *)
Theorem Load_BS2_hand_set_state :
  forall X (sv : Services X) path data w,
    File_ReadFileToString sv path = Some data ->
    0x820 + 0x1AFE00 - 1 <= Z.of_nat (List.length data) ->
    let o := Load_BS2 sv path w in
    let p := ppcState (final o) in
    result o = true /\
    hand_set_registers p = Load_BS2_literals /\
    (forall Y (sv' : Services Y) path' data' w',
        File_ReadFileToString sv' path' = Some data' ->
        0x820 + 0x1AFE00 - 1 <= Z.of_nat (List.length data') ->
        result (Load_BS2 sv' path' w') = true /\
        hand_set_registers (ppcState (final (Load_BS2 sv' path' w')))
        = hand_set_registers p) /\
    (forall i, i <> 3 -> i <> 4 -> i <> 5 -> gpr p i = gpr (ppcState w) i) /\
    (forall s,
        In s [SPR_HID4; SPR_IBAT4U; SPR_IBAT4L; SPR_DBAT4U; SPR_DBAT4L;
              SPR_DBAT5U; SPR_DBAT5L] ->
        spr p s = spr (ppcState w) s).
Proof.
  intros X sv path data w Hread Hlen o p. subst o p.
  rewrite (Load_BS2_final_cpu X sv path w data Hread Hlen).
  split; [exact (Load_BS2_result sv path w data Hread Hlen)|].
  split; [apply Load_BS2_cpu_literals|].
  split.
  { intros Y sv' path' data' w' Hread' Hlen'.
    split; [exact (Load_BS2_result sv' path' w' data' Hread' Hlen')|].
    rewrite (Load_BS2_final_cpu Y sv' path' w' data' Hread' Hlen').
    rewrite !Load_BS2_cpu_literals. reflexivity. }
  split; [apply Load_BS2_cpu_gpr_frame | apply Load_BS2_cpu_spr_frame].
Qed.

Lemma Load_BS2_hand_set_state_witness :
  let w := Demo.world (Demo.cfg BOOT_BS2 "" false false "ipl.bin")
                      Demo.no_disc in
  File_ReadFileToString Demo.services "ipl.bin" = Some Demo.ipl_bin /\
  0x820 + 0x1AFE00 - 1 <= Z.of_nat (List.length Demo.ipl_bin) /\
  result (Load_BS2 Demo.services "ipl.bin" w) = true /\
  hand_set_registers (ppcState (final (Load_BS2 Demo.services "ipl.bin" w)))
  = Load_BS2_literals.
Proof.
  intro w.
  assert (Hread : File_ReadFileToString Demo.services "ipl.bin"
                  = Some Demo.ipl_bin) by reflexivity.
  assert (Hlen : 0x820 + 0x1AFE00 - 1
                 <= Z.of_nat (List.length Demo.ipl_bin)).
  { unfold Demo.ipl_bin, Demo.ipl_size. rewrite repeat_length. lia. }
  split; [exact Hread|]. split; [exact Hlen|].
  destruct (Load_BS2_hand_set_state _ Demo.services "ipl.bin" Demo.ipl_bin w
              Hread Hlen) as (Hr & Hl & _).
  split; [exact Hr | exact Hl].
Defined.

(** C4, as stated, fails: [Load_BS2] does not hand-set five general-purpose
    registers.  On the demo host, whose "ipl.bin" is a full-size image (2 MiB)
    that always loads, no five distinct general-purpose registers all end up
    with a value that is independent of what they held before: only r3, r4
    and r5 do. *)
Lemma Load_BS2_hand_set_state_counterexample :
  File_ReadFileToString Demo.services "ipl.bin" = Some Demo.ipl_bin /\
  Z.of_nat (List.length Demo.ipl_bin) = 0x200000 /\
  (forall w, result (Load_BS2 Demo.services "ipl.bin" w) = true) /\
  ~ exists regs : list Z,
      NoDup regs /\ List.length regs = 5%nat /\
      forall i, In i regs -> gpr_hand_set Demo.services "ipl.bin" i.
Proof.
  assert (Hread : File_ReadFileToString Demo.services "ipl.bin"
                  = Some Demo.ipl_bin) by reflexivity.
  assert (Hsize : Z.of_nat (List.length Demo.ipl_bin) = 0x200000).
  { unfold Demo.ipl_bin, Demo.ipl_size. rewrite repeat_length. lia. }
  assert (Hlen : 0x820 + 0x1AFE00 - 1
                 <= Z.of_nat (List.length Demo.ipl_bin))
    by (rewrite Hsize; lia).
  split; [exact Hread|]. split; [exact Hsize|].
  split; [intro w; exact (Load_BS2_result _ _ w _ Hread Hlen)|].
  intros (regs & Hnd & Hlen5 & Hset).
  destruct (Forall_Exists_dec (fun i => In i [3; 4; 5])
                              (fun i => in_dec Z.eq_dec i [3; 4; 5]) regs)
    as [Hall | Hex].
  - assert (Hincl : incl regs [3; 4; 5])
      by (intros i Hi; exact (proj1 (Forall_forall _ _) Hall i Hi)).
    pose proof (NoDup_incl_length Hnd Hincl) as Hle.
    rewrite Hlen5 in Hle. simpl in Hle. lia.
  - apply Exists_exists in Hex. destruct Hex as (i & Hi & Hout).
    destruct (Hset i Hi) as (v & Hv).
    assert (H3 : i <> 3) by (intro; apply Hout; subst i; simpl; tauto).
    assert (H4 : i <> 4) by (intro; apply Hout; subst i; simpl; tauto).
    assert (H5 : i <> 5) by (intro; apply Hout; subst i; simpl; tauto).
    set (c := Demo.cfg BOOT_BS2 "" false false "ipl.bin").
    set (w0 := mkWorld c (mkPPC (fun _ => 0) 0 (fun _ => 0) 0) Demo.no_disc).
    set (w1 := mkWorld c (mkPPC (fun _ => 1) 0 (fun _ => 0) 0) Demo.no_disc).
    pose proof (Hv w0 (Load_BS2_result _ _ w0 _ Hread Hlen)) as E0.
    pose proof (Hv w1 (Load_BS2_result _ _ w1 _ Hread Hlen)) as E1.
    rewrite (Load_BS2_final_cpu _ _ _ w0 _ Hread Hlen) in E0.
    rewrite (Load_BS2_final_cpu _ _ _ w1 _ Hread Hlen) in E1.
    rewrite Load_BS2_cpu_gpr_frame in E0, E1 by assumption.
    simpl in E0, E1. congruence.
Qed.

(** ** [Load_FST] *)

Section Load_FST_facts.

Context {X : Type} (sv : Services X).

Lemma DVDRead_events_kind :
  forall dvd_offset output_address length decrypt w e,
    In e (events (DVDRead sv dvd_offset output_address length decrypt w)) ->
    is_Write_U32 e = false.
Proof.
  intros dvd_offset output_address length decrypt w e. unfold DVDRead.
  cbn [bind get_ext log result final events ext app].
  destruct (Volume_Read sv (ext w) dvd_offset length decrypt);
    unfold Memory_CopyToEmu_;
    cbn [bind ret on_ext result final events app In];
    intros [<- | Hin]; try reflexivity; try contradiction.
  destruct Hin as [<- | []]. reflexivity.
Qed.

Lemma ReadSwapped_events_kind :
  forall offset buffer decrypt w e,
    In e (events (ReadSwapped sv offset buffer decrypt w)) ->
    is_Write_U32 e = false.
Proof.
  intros offset buffer decrypt w e. unfold ReadSwapped.
  cbn [bind get_ext log result final events ext app].
  destruct (Volume_Read sv (ext w) offset 4 decrypt);
    cbn [ret events app In]; intros [<- | []]; reflexivity.
Qed.

Lemma ReadSwapped_range :
  forall offset buffer decrypt w,
    U32.in_range buffer ->
    U32.in_range (result (ReadSwapped sv offset buffer decrypt w)).
Proof.
  intros offset buffer decrypt w Hb. unfold ReadSwapped.
  cbn [bind get_ext log result final events ext].
  destruct (Volume_Read sv (ext w) offset 4 decrypt);
    cbn [ret result]; [apply U32_wrap_range | exact Hb].
Qed.

Lemma ReadSwapped_final :
  forall offset buffer decrypt w,
    final (ReadSwapped sv offset buffer decrypt w) = w.
Proof.
  intros offset buffer decrypt w. unfold ReadSwapped.
  cbn [bind get_ext log result final events ext].
  destruct (Volume_Read sv (ext w) offset 4 decrypt); reflexivity.
Qed.

(** With a disc mounted, the value [Load_FST] stores in the low-memory
    slots [0x34] and [0x38] is [arena_high_of] of the maximum FST size it
    read from the header (a 32-bit value), and nothing else is stored in
    slot [0x34]. *)
Lemma Load_FST_stores_arena_boundary :
  forall is_wii w,
    IsDiscInside sv (ext w) = true ->
    exists max_fst_size,
      U32.in_range max_fst_size /\
      In (EvWrite_U32 (arena_high_of max_fst_size is_wii) 0x34)
         (events (Load_FST sv is_wii w)) /\
      In (EvWrite_U32 (arena_high_of max_fst_size is_wii) 0x38)
         (events (Load_FST sv is_wii w)) /\
      In (EvWrite_U32 (U32.shl max_fst_size (fst_shift is_wii)) 0x3c)
         (events (Load_FST sv is_wii w)) /\
      forall v, In (EvWrite_U32 v 0x34) (events (Load_FST sv is_wii w)) ->
                v = arena_high_of max_fst_size is_wii.
Proof.
  intros is_wii w H. unfold Load_FST.
  cbn [bind get_ext result final events ext app]. rewrite H. cbn [negb].
  unfold Memory_Read_U32_, Memory_Write_U32_.
  cbn [bind get_ext on_ext result final events ext app].
  rewrite !ReadSwapped_final.
  match goal with
  | |- context [arena_high_of (result ?r) is_wii] => set (rd := r)
  end.
  exists (result rd).
  split; [apply ReadSwapped_range; unfold U32.in_range, U32.modulus; lia|].
  split.
  { apply in_or_app. right. right. do 3 (apply in_or_app; right).
    left. reflexivity. }
  split.
  { apply in_or_app. right. right. do 3 (apply in_or_app; right).
    right. apply in_or_app. right. left. reflexivity. }
  split.
  { apply in_or_app. right. right. do 3 (apply in_or_app; right).
    right. apply in_or_app. right. right. left. reflexivity. }
  intros v Hin.
  apply in_app_or in Hin. destruct Hin as [Hin | Hin];
    [apply DVDRead_events_kind in Hin; discriminate|].
  destruct Hin as [Hin | Hin]; [discriminate|].
  do 3 (apply in_app_or in Hin; destruct Hin as [Hin | Hin];
        [apply ReadSwapped_events_kind in Hin; discriminate|]).
  destruct Hin as [Hin | Hin]; [injection Hin as <-; reflexivity|].
  apply in_app_or in Hin. destruct Hin as [Hin | Hin];
    [apply DVDRead_events_kind in Hin; discriminate|].
  cbn [In] in Hin. destruct Hin as [Hin | [Hin | []]]; discriminate.
Qed.

End Load_FST_facts.

(** C6.  Called while no disc is mounted, [Load_FST] returns at once: the
    world it leaves is the world it was given, and it emitted no event at
    all -- no guest-memory write and no disc read. *)
Theorem Load_FST_without_disc :
  forall X (sv : Services X) is_wii w,
    IsDiscInside sv (ext w) = false ->
    let o := Load_FST sv is_wii w in
    final o = w /\
    events o = [] /\
    existsb is_memory_write (events o) = false /\
    existsb is_disc_read (events o) = false.
Proof.
  intros X sv is_wii w H o.
  assert (E : o = mkOutcome tt w []).
  { subst o. unfold Load_FST. unfold bind at 1.
    cbn [get_ext result final events]. rewrite H. reflexivity. }
  rewrite E. repeat split.
Qed.

Lemma Load_FST_without_disc_witness :
  let w := Demo.world (Demo.cfg BOOT_ELF "homebrew.elf" false false "")
                      Demo.no_disc in
  IsDiscInside Demo.services (ext w) = false /\
  final (Load_FST Demo.services false w) = w.
Proof.
  intro w.
  assert (H : IsDiscInside Demo.services (ext w) = false) by reflexivity.
  split; [exact H|].
  exact (proj1 (Load_FST_without_disc _ Demo.services false w H)).
Defined.

(** ** Host buffers: slices and in-place transformations *)

Lemma byte_at_slice :
  forall (l : list byte) (off sz i : Z),
    0 <= off -> 0 <= i < sz ->
    byte_at (slice l off sz) i = byte_at l (off + i).
Proof.
  intros l off sz i Hoff Hi. unfold byte_at, slice.
  rewrite nth_error_firstn.
  assert (Hlt : Nat.ltb (Z.to_nat i) (Z.to_nat sz) = true)
    by (apply Nat.ltb_lt; lia).
  rewrite Hlt, nth_error_skipn.
  f_equal. lia.
Qed.

Lemma length_slice :
  forall (l : list byte) (off sz : Z),
    0 <= off -> 0 <= sz -> off + sz <= Z.of_nat (List.length l) ->
    Z.of_nat (List.length (slice l off sz)) = sz.
Proof.
  intros l off sz Hoff Hsz Hin. unfold slice.
  rewrite length_firstn, length_skipn. lia.
Qed.

Section Buffers.

Variable f : list byte -> list byte.
Hypothesis f_size : forall l, List.length (f l) = List.length l.

Variables (data : list byte) (offset size : Z).
Hypothesis offset_nonneg : 0 <= offset.
Hypothesis size_nonneg : 0 <= size.
Hypothesis range_inside : offset + size <= Z.of_nat (List.length data).

Lemma length_in_place :
  List.length (in_place f data offset size) = List.length data.
Proof.
  unfold in_place.
  rewrite !length_app, f_size, length_firstn, length_skipn.
  pose proof (length_slice data offset size offset_nonneg size_nonneg
                           range_inside).
  lia.
Qed.


Lemma byte_at_in_place_inside :
  forall j, offset <= j < offset + size ->
            byte_at (in_place f data offset size) j
            = byte_at (f (slice data offset size)) (j - offset).
Proof.
  intros j Hj. unfold byte_at, in_place.
  pose proof (length_slice data offset size offset_nonneg size_nonneg
                           range_inside) as Hs.
  rewrite nth_error_app2 by (rewrite length_firstn; lia).
  rewrite nth_error_app1 by (rewrite f_size, length_firstn; lia).
  f_equal. rewrite length_firstn. lia.
Qed.


End Buffers.

Lemma byte_at_defined :
  forall (l : list byte) (i : Z),
    0 <= i < Z.of_nat (List.length l) -> byte_at l i <> None.
Proof.
  intros l i Hi. unfold byte_at. apply nth_error_Some. lia.
Qed.

(** A range that lies inside the characters of a string does not reach
    its terminator. *)
Lemma slice_c_str :
  forall (l : list byte) (off sz : Z),
    0 <= off -> 0 <= sz -> off + sz <= Z.of_nat (List.length l) ->
    slice (c_str l) off sz = slice l off sz.
Proof.
  intros l off sz Hoff Hsz Hin. unfold slice, c_str.
  rewrite skipn_app, firstn_app, length_skipn.
  replace (Z.to_nat sz - (List.length l - Z.to_nat off))%nat with 0%nat
    by lia.
  cbn [firstn]. apply app_nil_r.
Qed.

(** The run on an image that holds both installed ranges whole: the second
    block is made of characters of the file only. *)
Lemma Load_BS2_readable :
  forall X (sv : Services X) path w data,
    File_ReadFileToString sv path = Some data ->
    0x820 + 0x1AFE00 <= Z.of_nat (List.length data) ->
    let scrambled := in_place (Descrambler sv) data 0x100 0x1AFE00 in
    let regs := Load_BS2_registers_set (ppcState w) in
    Load_BS2 sv path w =
    mkOutcome true
      (mkWorld (config w) (Load_BS2_cpu (ppcState w))
         (IBATUpdated sv regs
            (DBATUpdated sv regs
               (Memory_CopyToEmu sv 0x01300000
                  (slice scrambled 0x820 0x1AFE00)
                  (Memory_CopyToEmu sv 0x01200000
                     (slice scrambled 0x100 0x700) (ext w))))))
      (EvReadFileToString path
       :: Load_BS2_alerts (ipl_hash_of sv data) (m_region (config w))
       ++ [EvDescrambler 0x100 0x1AFE00;
           EvCopyToEmu 0x01200000 (slice scrambled 0x100 0x700);
           EvCopyToEmu 0x01300000 (slice scrambled 0x820 0x1AFE00);
           EvDBATUpdated; EvIBATUpdated]).
Proof.
  intros X sv path w data Hread Hlen scrambled regs.
  rewrite (Load_BS2_in_bounds sv path w data Hread) by lia.
  cbv zeta. fold scrambled. fold regs.
  rewrite (slice_c_str scrambled 0x820 0x1AFE00); [reflexivity | lia | lia |].
  unfold scrambled.
  rewrite (length_in_place (Descrambler sv) (Descrambler_size sv)
             data 0x100 0x1AFE00); lia.
Qed.



(** ** [BootUp] *)

Lemma map_events_exclude :
  forall (l : list Event) (e : Event),
    forallb is_map_event l = true -> is_map_event e = false -> ~ In e l.
Proof.
  intros l e Hall He Hin.
  rewrite forallb_forall in Hall. rewrite (Hall e Hin) in He. discriminate.
Qed.

Section BootUp_facts.

Context {X : Type} (sv : Services X).

Lemma load_map_and_patch_frame :
  forall w,
    let o := load_map_and_patch sv w in
    config (final o) = config w /\
    ppcState (final o) = ppcState w /\
    forallb is_map_event (events o) = true.
Proof.
  intros w o. subst o.
  unfold load_map_and_patch, LoadMapFromFilename, HLE_PatchFunctions_,
    UpdateDebugger_MapLoaded, SymbolDB_LoadMap_, when.
  run.
  destruct (existing_map_file (FindMapFile sv (config w))) as [m|]; run.
  - destruct (fst (SymbolDB_LoadMap sv m (ext w))); run; repeat split.
  - repeat split.
Qed.

Lemma load_map_and_patch_events :
  forall w e,
    is_map_event e = false -> ~ In e (events (load_map_and_patch sv w)).
Proof.
  intros w e He. apply map_events_exclude; [|exact He].
  apply (load_map_and_patch_frame w).
Qed.

(** The prologue leaves the configuration and the CPU alone. *)
Lemma BootUp_prologue_frame :
  forall w,
    config (final (BootUp_prologue sv w)) = config w /\
    ppcState (final (BootUp_prologue sv w)) = ppcState w.
Proof. intro w. split; reflexivity. Qed.

Lemma BootUp_WII_NAND_outcome :
  forall w,
    let o := BootUp_WII_NAND sv w in
    result o = true /\
    forall e, In e (events o) -> is_alert e = false.
Proof.
  intros w o. subst o. unfold BootUp_WII_NAND. run.
  split; [reflexivity|].
  intros e Hin. cbn [In] in Hin.
  destruct Hin as [<- | [<- | Hin]]; try reflexivity.
  rewrite app_nil_r in Hin. apply in_app_or in Hin.
  destruct Hin as [Hin | Hin].
  - destruct (is_map_event e) eqn:He.
    + destruct e; try discriminate; reflexivity.
    + elim (load_map_and_patch_events _ _ He Hin).
  - destruct (negb (string_empty (m_strDVDRoot (config w))));
      [|destruct (negb (string_empty (m_strDefaultISO (config w))))];
      cbn [on_ext ret events In] in Hin;
      try contradiction; destruct Hin as [<- | []]; reflexivity.
Qed.

(** [BootUp] is its prologue, then the selected case, then the final
    patches when the case reached its [break]. *)
Lemma BootUp_unfold :
  forall w,
    let w1 := final (BootUp_prologue sv w) in
    let d := BootUp_dispatch sv (m_BootType (config w)) w1 in
    result (BootUp sv w) = result d /\
    events (BootUp sv w)
    = (events (BootUp_prologue sv w) ++ events d
       ++ (if result d then [EvHLE_PatchFixedFunctions] else []))%list.
Proof.
  intros w w1 d. unfold BootUp.
  cbn [bind get_config result final events app].
  rewrite (proj1 (BootUp_prologue_frame w)).
  fold w1. fold d.
  destruct (result d); cbn [bind on_ext ret result events app];
    split; reflexivity.
Qed.

(** The events of the [BOOT_ISO] case once the disc is mounted: the
    mount, the console-mode warning if any, the firmware bring-up, the
    patches, the signature scan if any, the symbol map. *)
Lemma BootUp_ISO_shape :
  forall w,
    let x := SetVolumeName sv (m_strFilename (config w)) (ext w) in
    let wii := is_WII_DISC (Volume_GetVolumeType sv x) in
    IsDiscInside sv x = true ->
    exists wk,
      result (BootUp_ISO sv w) = true /\
      events (BootUp_ISO sv w)
      = (EvSetVolumeName (m_strFilename (config w))
         :: (if negb (Bool.eqb wii (bWii (config w)))
             then [EvPanicAlert Alert_ISO_wrong_console_mode] else [])
         ++ ISO_bring_up_events sv
              (mkWorld (set_bWii wii (config w)) (ppcState w) x)
         ++ EvLoadPatches
         :: ISO_scan_events sv (config w)
         ++ events (load_map_and_patch sv wk))%list.
Proof.
  intros w x wii Hdisc.
  unfold BootUp_ISO, ISO_bring_up_events, ISO_scan_events,
    signature_scan_events, HLE_PatchFunctions_.
  cbn [bind get_config get_ext on_ext result final events config ext
       ppcState app].
  fold x. rewrite Hdisc. cbn [negb]. fold wii.
  unfold PanicAlertT, when.
  cbn [bind get_config get_ext put_config result final events config ext
       ppcState app].
  rewrite !when_log_final, !when_log_events.
  cbn [bind get_config get_ext put_config result final events config ext
       ppcState app set_bWii bHLE_BS2 bWii m_strBootROM bEnableDebugging].
  destruct (bHLE_BS2 (config w)).
  - destruct (bEnableDebugging (config w));
      [ | destruct (SignatureDB_Load sv
                      (File_GetSysDirectory sv ++ TOTALDB sv)%string) ];
      cbn [andb negb bind ret log call on_ext result final events config
           ext ppcState app];
      eexists; (split; [reflexivity|]);
      rewrite <- ?app_assoc, ?app_nil_r; cbn [app]; reflexivity.
  - cbn [andb negb bind ret log call on_ext result final events config
         ext ppcState app].
    destruct (result
                (Load_BS2 sv (m_strBootROM (config w))
                   (mkWorld (set_bWii wii (config w)) (ppcState w) x)));
      cbn [andb negb bind ret log call on_ext result final events config
           ext ppcState app];
      eexists; (split; [reflexivity|]);
      rewrite <- ?app_assoc, ?app_nil_r; cbn [app]; reflexivity.
Qed.

(** The [BOOT_ISO] case fails before any bring-up when the mount left no
    disc. *)
Lemma BootUp_ISO_no_disc :
  forall w,
    IsDiscInside sv (SetVolumeName sv (m_strFilename (config w)) (ext w))
    = false ->
    result (BootUp_ISO sv w) = false /\
    events (BootUp_ISO sv w) = [EvSetVolumeName (m_strFilename (config w))].
Proof.
  intros w H. unfold BootUp_ISO.
  cbn [bind get_config get_ext on_ext result final events config ext
       ppcState app].
  rewrite H. split; reflexivity.
Qed.

(** A whole [BootUp] of a disc image that mounts. *)
Lemma BootUp_ISO_events :
  forall w,
    m_BootType (config w) = BOOT_ISO ->
    IsDiscInside sv (ext_after_mount sv w) = true ->
    exists wk,
      result (BootUp sv w) = true /\
      events (BootUp sv w)
      = (ISO_preamble_events sv w
         ++ ISO_bring_up_events sv (ISO_world_at_bring_up sv w)
         ++ EvLoadPatches
         :: ISO_scan_events sv (config w)
         ++ events (load_map_and_patch sv wk)
         ++ [EvHLE_PatchFixedFunctions])%list.
Proof.
  intros w Hty Hdisc.
  destruct (BootUp_unfold w) as [Er Ee].
  rewrite Hty in Er, Ee. cbn [BootUp_dispatch] in Er, Ee.
  destruct (BootUp_ISO_shape (final (BootUp_prologue sv w)) Hdisc)
    as (wk & Hr & He).
  exists wk. rewrite Er, Ee, Hr, He.
  split; [reflexivity|].
  unfold ISO_preamble_events, ISO_world_at_bring_up, ext_after_mount.
  rewrite <- !app_assoc. cbn [app].
  rewrite <- !app_assoc. cbn [app].
  rewrite <- !app_assoc. reflexivity.
Qed.

Lemma BootUp_BS2_unreadable :
  forall w,
    File_ReadFileToString sv (m_strBootROM (config w)) = None ->
    result (BootUp_BS2 sv w) = false /\
    events (BootUp_BS2 sv w)
    = [EvReadFileToString (m_strBootROM (config w))].
Proof.
  intros w H. unfold BootUp_BS2.
  cbn [bind get_config result final events app].
  rewrite (Load_BS2_unreadable sv _ w H).
  cbn [bind ret result final events app]. split; reflexivity.
Qed.

Lemma Load_BS2_events_kind :
  forall path w e,
    In e (events (Load_BS2 sv path w)) ->
    is_scan_event e = false /\ is_EmulatedBS2 e = false.
Proof.
  intros path w e Hin.
  destruct (File_ReadFileToString sv path) as [data|] eqn:Hread.
  - destruct (Load_BS2_events sv path w data Hread) as (tail & He & Htail).
    rewrite He in Hin. unfold Load_BS2_alerts in Hin.
    destruct Hin as [<- | Hin]; [split; reflexivity|].
    apply in_app_or in Hin. destruct Hin as [Hin | Hin];
      [apply in_app_or in Hin; destruct Hin as [Hin | Hin]|].
    + destruct (Region_eqb _ _); cbn [In] in Hin;
        [destruct Hin as [<- | []]; split; reflexivity | contradiction].
    + destruct (_ && _); cbn [In] in Hin;
        [destruct Hin as [<- | []]; split; reflexivity | contradiction].
    + specialize (Htail e Hin).
      destruct e; try contradiction; split; reflexivity.
  - rewrite (Load_BS2_unreadable sv path w Hread) in Hin.
    cbn [events In] in Hin. destruct Hin as [<- | []]. split; reflexivity.
Qed.

Lemma map_event_is_no_scan_event :
  forall e, is_map_event e = true ->
            is_scan_event e = false /\ is_EmulatedBS2 e = false.
Proof. intros e H. destruct e; try discriminate; split; reflexivity. Qed.

Lemma load_map_and_patch_events_kind :
  forall w e,
    In e (events (load_map_and_patch sv w)) ->
    is_scan_event e = false /\ is_EmulatedBS2 e = false.
Proof.
  intros w e Hin. apply map_event_is_no_scan_event.
  destruct (is_map_event e) eqn:He; [reflexivity|].
  elim (load_map_and_patch_events w e He Hin).
Qed.



End BootUp_facts.

(** C1, on the code.  With the InstalledTitle boot type, [BootUp] returns
    true and raises no alert whatever [Boot_WiiWAD] reports and whether or
    not the container resolves: the call's result is dropped, the final
    fixed-function patches are applied and the attempt counts as a success. *)
Theorem BootUp_WII_NAND_never_fails :
  forall X (sv : Services X) w,
    m_BootType (config w) = BOOT_WII_NAND ->
    let o := BootUp sv w in
    result o = true /\
    (forall a, ~ In (EvPanicAlert a) (events o)) /\
    In (EvBoot_WiiWAD (m_strFilename (config w))) (events o) /\
    In EvHLE_PatchFixedFunctions (events o).
Proof.
  intros X sv w H o. subst o.
  pose proof (BootUp_WII_NAND_outcome sv (final (BootUp_prologue sv w)))
    as [Hres Hev].
  destruct (BootUp_unfold sv w) as [Er Ee].
  rewrite H in Er, Ee. cbn [BootUp_dispatch] in Er, Ee.
  rewrite Er, Ee, Hres.
  split; [reflexivity|].
  split.
  { intros a Hin.
    apply in_app_or in Hin. destruct Hin as [Hin | Hin].
    - cbn in Hin. intuition discriminate.
    - apply in_app_or in Hin. destruct Hin as [Hin | Hin].
      + apply Hev in Hin. discriminate.
      + cbn in Hin. intuition discriminate. }
  split.
  - apply in_or_app. right. apply in_or_app. left.
    unfold BootUp_WII_NAND. run. left. reflexivity.
  - apply in_or_app. right. apply in_or_app. right. left. reflexivity.
Qed.

(** The failing input of C1 on the demo host: the path names no installed
    title, [Boot_WiiWAD] reports failure, and [BootUp] still returns true
    without any alert. *)
Lemma BootUp_WII_NAND_never_fails_witness :
  let w := Demo.world (Demo.cfg BOOT_WII_NAND "absent.wad" true false "")
                      Demo.no_disc in
  m_BootType (config w) = BOOT_WII_NAND /\
  NANDLoader_IsValid Demo.services "absent.wad" = false /\
  fst (fst (Boot_WiiWAD Demo.services "absent.wad"
              (config w) (ppcState w) (ext w))) = false /\
  result (BootUp Demo.services w) = true /\
  events (BootUp Demo.services w)
  = [EvNoticeLog "Booting absent.wad"; EvSymbolDB_Clear;
     EvVideoInterface_Preset false; EvBoot_WiiWAD "absent.wad";
     EvLoadPatches; EvHLE_PatchFixedFunctions].
Proof.
  intro w.
  assert (H : m_BootType (config w) = BOOT_WII_NAND) by reflexivity.
  split; [exact H|].
  split; [reflexivity|]. split; [reflexivity|].
  split; [exact (proj1 (BootUp_WII_NAND_never_fails _ Demo.services w H))|].
  vm_compute. reflexivity.
Defined.

(** C8.  When the firmware file cannot be read: with the Firmware boot type
    [BootUp] returns false, never calls the high-level stub and skips the
    final patches; with the DiscImage boot type (firmware requested, disc
    mounted) the failed read is followed at once by the high-level stub and
    [BootUp] goes on to return true. *)
Theorem BootUp_firmware_failure_fatal_only_for_BS2 :
  forall X (sv : Services X) w,
    File_ReadFileToString sv (m_strBootROM (config w)) = None ->
    let o := BootUp sv w in
    (m_BootType (config w) = BOOT_BS2 ->
     result o = false /\
     (forall e, In e (events o) -> is_EmulatedBS2 e = false) /\
     ~ In EvHLE_PatchFixedFunctions (events o)) /\
    (m_BootType (config w) = BOOT_ISO ->
     bHLE_BS2 (config w) = false ->
     IsDiscInside sv (ext_after_mount sv w) = true ->
     result o = true /\
     (exists post,
         events o
         = (ISO_preamble_events sv w
            ++ [EvReadFileToString (m_strBootROM (config w));
                EvEmulatedBS2
                  (is_WII_DISC
                     (Volume_GetVolumeType sv (ext_after_mount sv w)))]
            ++ post)%list) /\
     In EvHLE_PatchFixedFunctions (events o)).
Proof.
  intros X sv w Hread o. subst o.
  split.
  - intro Hty. destruct (BootUp_unfold sv w) as [Er Ee].
    rewrite Hty in Er, Ee. cbn [BootUp_dispatch] in Er, Ee.
    destruct (BootUp_BS2_unreadable sv (final (BootUp_prologue sv w)) Hread)
      as [Hr He].
    rewrite Hr in Er, Ee. rewrite He in Ee. rewrite Er, Ee.
    split; [reflexivity|].
    split.
    + intros e Hin. cbn [BootUp_prologue bind get_config log on_ext events
                         result final app In] in Hin.
      repeat (destruct Hin as [<- | Hin]; [reflexivity|]). contradiction.
    + intro Hin. cbn [BootUp_prologue bind get_config log on_ext events
                      result final app In] in Hin.
      intuition discriminate.
  - intros Hty Hhle Hdisc.
    destruct (BootUp_ISO_events sv w Hty Hdisc) as (wk & Hr & He).
    rewrite Hr, He.
    unfold ISO_bring_up_events, ISO_world_at_bring_up.
    cbn [config set_bWii bHLE_BS2 m_strBootROM bWii].
    rewrite Hhle, (Load_BS2_unreadable sv _ _ Hread). cbn [result events app].
    split; [reflexivity|].
    split.
    + eexists. reflexivity.
    + apply in_or_app. right. right. right. right.
      apply in_or_app. right. apply in_or_app. right. left. reflexivity.
Qed.

Lemma BootUp_firmware_failure_fatal_only_for_BS2_witness :
  let bs2 := Demo.world (Demo.cfg BOOT_BS2 "" false false "missing.bin")
                        Demo.no_disc in
  let iso := Demo.world (Demo.cfg BOOT_ISO "game.iso" false false
                                  "missing.bin")
                        Demo.no_disc in
  File_ReadFileToString Demo.services "missing.bin" = None /\
  IsDiscInside Demo.services (ext_after_mount Demo.services iso) = true /\
  result (BootUp Demo.services bs2) = false /\
  result (BootUp Demo.services iso) = true.
Proof.
  intros bs2 iso.
  assert (H : File_ReadFileToString Demo.services "missing.bin" = None)
    by reflexivity.
  assert (Hdisc : IsDiscInside Demo.services
                    (ext_after_mount Demo.services iso) = true)
    by reflexivity.
  split; [exact H|]. split; [exact Hdisc|].
  split.
  - exact (proj1 (proj1 (BootUp_firmware_failure_fatal_only_for_BS2
                           _ Demo.services bs2 H) eq_refl)).
  - exact (proj1 (proj2 (BootUp_firmware_failure_fatal_only_for_BS2
                           _ Demo.services iso H) eq_refl eq_refl Hdisc)).
Defined.




(** ** Title identifiers ([FindMapFile]) *)

Lemma begin_after_bounds :
  forall chars s,
    (begin_after chars s <= String.length s)%nat /\
    (occurs chars s = true -> (1 <= begin_after chars s)%nat) /\
    (occurs chars s = false -> begin_after chars s = 0%nat).
Proof.
  intros chars s. induction s as [|a rest IH]; cbn [begin_after occurs
                                                   String.length].
  - repeat split; intros; try discriminate; lia.
  - destruct IH as (Hle & Hpos & Hzero).
    destruct (occurs chars rest); destruct (StdString.mem a chars);
      cbn [orb]; repeat split; intros; try discriminate; lia.
Qed.

Lemma find_last_of_spec :
  forall chars s,
    StdString.size s < SizeT.npos ->
    StdString.find_last_of s chars
    = if occurs chars s then Z.of_nat (begin_after chars s) - 1
      else SizeT.npos.
Proof.
  intros chars s. unfold StdString.size.
  induction s as [|a rest IH]; intro Hlen.
  - reflexivity.
  - cbn [String.length] in Hlen.
    cbn [StdString.find_last_of occurs begin_after].
    rewrite IH by lia.
    destruct (begin_after_bounds chars rest) as (Hle & Hpos & _).
    destruct (occurs chars rest).
    + specialize (Hpos eq_refl). rewrite orb_true_r.
      destruct (Z.eqb_spec (Z.of_nat (begin_after chars rest) - 1)
                           SizeT.npos); lia.
    + rewrite Z.eqb_refl, orb_false_r.
      destruct (StdString.mem a chars); reflexivity.
Qed.

(** [find_last_of(...) + 1] on [size_t]: [npos + 1] wraps to 0. *)
Lemma find_last_of_succ :
  forall chars s,
    StdString.size s < SizeT.npos ->
    SizeT.wrap (StdString.find_last_of s chars + 1)
    = Z.of_nat (begin_after chars s).
Proof.
  intros chars s Hlen. rewrite find_last_of_spec by exact Hlen.
  destruct (begin_after_bounds chars s) as (Hle & Hpos & Hzero).
  unfold StdString.size in Hlen. unfold SizeT.wrap.
  destruct (occurs chars s).
  - specialize (Hpos eq_refl).
    replace (Z.of_nat (begin_after chars s) - 1 + 1)
      with (Z.of_nat (begin_after chars s)) by lia.
    apply Z.mod_small. unfold SizeT.npos in Hlen. lia.
  - rewrite (Hzero eq_refl). reflexivity.
Qed.

Lemma has_separator_occurs :
  forall s, has_separator s = occurs "/" s || occurs "\" s.
Proof.
  induction s as [|a rest IH]; [reflexivity|].
  cbn [has_separator occurs StdString.mem]. rewrite IH.
  unfold is_separator.
  destruct (Ascii.eqb a "/"), (Ascii.eqb a "\"),
    (occurs "/" rest), (occurs "\" rest); reflexivity.
Qed.

Lemma separator_end_max :
  forall s,
    separator_end s = Nat.max (begin_after "/" s) (begin_after "\" s).
Proof.
  induction s as [|a rest IH]; [reflexivity|].
  cbn [separator_end begin_after StdString.mem].
  rewrite has_separator_occurs, IH. unfold is_separator.
  destruct (begin_after_bounds "/" rest) as (_ & P1 & Z1).
  destruct (begin_after_bounds "\" rest) as (_ & P2 & Z2).
  destruct (occurs "/" rest), (occurs "\" rest),
    (Ascii.eqb a "/"), (Ascii.eqb a "\"); cbn [orb];
    try specialize (P1 eq_refl); try specialize (P2 eq_refl);
    try specialize (Z1 eq_refl); try specialize (Z2 eq_refl); lia.
Qed.

Lemma spec_strip_directory_drop :
  forall s, spec_strip_directory s = string_drop (separator_end s) s.
Proof.
  induction s as [|a rest IH]; [reflexivity|].
  cbn [spec_strip_directory separator_end].
  destruct (has_separator rest); [exact IH|].
  destruct (is_separator a); reflexivity.
Qed.

Lemma substring_drop :
  forall n m s, substring n m s = substring 0 m (string_drop n s).
Proof.
  induction n as [|n IH]; intros m s; [reflexivity|].
  destruct s as [|c rest]; cbn [substring string_drop].
  - destruct m; reflexivity.
  - apply IH.
Qed.

Lemma length_string_drop :
  forall n s, String.length (string_drop n s) = (String.length s - n)%nat.
Proof.
  induction n as [|n IH]; intros s; cbn [string_drop].
  - lia.
  - destruct s as [|c rest]; cbn [String.length]; [reflexivity | apply IH].
Qed.

Lemma substring_all :
  forall s, substring 0 (String.length s) s = s.
Proof.
  induction s as [|c rest IH]; [reflexivity|].
  cbn [String.length substring]. rewrite IH. reflexivity.
Qed.

(** The value of [name_begin_index] when [substr] is called. *)
Lemma name_begin_index_spec :
  forall path,
    StdString.size path < SizeT.npos ->
    (if SizeT.wrap (StdString.find_last_of path "\" + 1)
        >? SizeT.wrap (StdString.find_last_of path "/" + 1)
     then SizeT.wrap (StdString.find_last_of path "\" + 1)
     else SizeT.wrap (StdString.find_last_of path "/" + 1))
    = Z.of_nat (separator_end path)
    /\ (separator_end path <= String.length path)%nat.
Proof.
  intros path Hlen. rewrite !find_last_of_succ by exact Hlen.
  rewrite separator_end_max.
  destruct (begin_after_bounds "/" path) as (L1 & _).
  destruct (begin_after_bounds "\" path) as (L2 & _).
  split; [|lia].
  destruct (Z.gtb_spec (Z.of_nat (begin_after "\" path))
                       (Z.of_nat (begin_after "/" path))); lia.
Qed.

(** [substr] never throws in [FindMapFile]. *)
Lemma executable_title_id_defined :
  forall path,
    StdString.size path < SizeT.npos ->
    executable_title_id path <> None.
Proof.
  intros path Hlen. unfold executable_title_id.
  destruct (name_begin_index_spec path Hlen) as [-> Hle].
  unfold StdString.substr, StdString.size.
  destruct (Z.gtb_spec (Z.of_nat (separator_end path))
                       (Z.of_nat (String.length path))); [lia|discriminate].
Qed.

Lemma executable_title_id_spec :
  forall path,
    StdString.size path < SizeT.npos ->
    4 <= StdString.size (spec_strip_directory path) ->
    executable_title_id path = Some (spec_executable_title_id path).
Proof.
  intros path Hlen Hext. unfold executable_title_id.
  destruct (name_begin_index_spec path Hlen) as [-> Hle].
  unfold spec_executable_title_id, spec_strip_extension.
  rewrite spec_strip_directory_drop in *.
  unfold StdString.size in *. rewrite length_string_drop in *.
  unfold StdString.substr, StdString.size, SizeT.npos in *.
  destruct (Z.gtb_spec (Z.of_nat (separator_end path))
                       (Z.of_nat (String.length path))); [lia|].
  f_equal. unfold SizeT.wrap.
  rewrite Z.mod_small by lia.
  rewrite Z.min_l by lia.
  rewrite Nat2Z.id, substring_drop. f_equal. lia.
Qed.

(** A name shorter than four characters is left whole: the count
    [size() - 4 - name_begin_index] wraps around and [substr] clamps it. *)
Lemma executable_title_id_short :
  forall path,
    StdString.size path < SizeT.npos ->
    StdString.size (spec_strip_directory path) < 4 ->
    executable_title_id path = Some (spec_strip_directory path).
Proof.
  intros path Hlen Hext. unfold executable_title_id.
  destruct (name_begin_index_spec path Hlen) as [-> Hle].
  rewrite spec_strip_directory_drop in *.
  unfold StdString.size in *. rewrite length_string_drop in *.
  unfold StdString.substr, StdString.size, SizeT.npos, SizeT.modulus in *.
  change (2 ^ 64) with 18446744073709551616 in *.
  destruct (Z.gtb_spec (Z.of_nat (separator_end path))
                       (Z.of_nat (String.length path))); [lia|].
  f_equal. unfold SizeT.wrap, SizeT.modulus.
  change (2 ^ 64) with 18446744073709551616.
  replace (Z.of_nat (String.length path) - 4 - Z.of_nat (separator_end path))
    with ((Z.of_nat (String.length path) - 4 - Z.of_nat (separator_end path)
           + 18446744073709551616) + (-1) * 18446744073709551616) by lia.
  rewrite Z.mod_add by lia. rewrite Z.mod_small by lia.
  rewrite Z.min_r by lia.
  rewrite Nat2Z.id, substring_drop.
  replace (Z.to_nat (Z.of_nat (String.length path)
                     - Z.of_nat (separator_end path)))
    with (String.length (string_drop (separator_end path) path))
    by (rewrite length_string_drop; lia).
  apply substring_all.
Qed.

Lemma hex_value_of_digit_upper :
  forall d, 0 <= d < 16 -> hex_value_of_digit (hex_digit_upper d) = Some d.
Proof.
  intros d Hd.
  assert (H : d = 0 \/ d = 1 \/ d = 2 \/ d = 3 \/ d = 4 \/ d = 5 \/ d = 6
              \/ d = 7 \/ d = 8 \/ d = 9 \/ d = 10 \/ d = 11 \/ d = 12
              \/ d = 13 \/ d = 14 \/ d = 15) by lia.
  repeat (destruct H as [-> | H]; [reflexivity|]). subst d. reflexivity.
Qed.

Lemma nibble_spec :
  forall v k,
    0 <= k -> Z.land (Z.shiftr v (4 * k)) 0xF = (v / 2 ^ (4 * k)) mod 16.
Proof.
  intros v k Hk. rewrite Z.shiftr_div_pow2 by lia.
  change 0xF with (Z.ones 4). rewrite Z.land_ones by lia. reflexivity.
Qed.

(** Reading the eight digits of [%08X] back gives the argument. *)
Lemma spec_hex_value_format_08X :
  forall v, 0 <= v < 2 ^ 32 -> spec_hex_value (format_08X v) = Some v.
Proof.
  intros v Hv. unfold format_08X, spec_hex_value.
  cbn [map string_of_list_ascii hex_value_from].
  rewrite !nibble_spec by lia.
  rewrite !hex_value_of_digit_upper by (apply Z.mod_pos_bound; lia).
  cbn [hex_value_from]. f_equal.
  change (2 ^ 32) with 4294967296 in Hv.
  change (2 ^ (4 * 7)) with 268435456.
  change (2 ^ (4 * 6)) with 16777216.
  change (2 ^ (4 * 5)) with 1048576.
  change (2 ^ (4 * 4)) with 65536.
  change (2 ^ (4 * 3)) with 4096.
  change (2 ^ (4 * 2)) with 256.
  change (2 ^ (4 * 1)) with 16.
  change (2 ^ (4 * 0)) with 1.
  Z.div_mod_to_equations. lia.
Qed.

Lemma length_format_08X : forall v, String.length (format_08X v) = 8%nat.
Proof. intro v. reflexivity. Qed.

(** The two [u32] arguments handed to the format. *)
Lemma title_id_halves :
  forall TitleID,
    0 <= TitleID < 2 ^ 64 ->
    Z.land (U32.wrap (Z.shiftr TitleID 32)) 0xFFFFFFFF = TitleID / 2 ^ 32 /\
    Z.land (U32.wrap TitleID) 0xFFFFFFFF = TitleID mod 2 ^ 32.
Proof.
  intros t Ht. unfold U32.wrap, U32.modulus.
  change 0xFFFFFFFF with (Z.ones 32).
  rewrite !Z.land_ones by lia. rewrite !Z.mod_mod by lia.
  rewrite Z.shiftr_div_pow2 by lia.
  split; [|reflexivity].
  apply Z.mod_small. split.
  - apply Z.div_pos; lia.
  - apply Z.div_lt_upper_bound; [lia|].
    change (2 ^ 32 * 2 ^ 32) with (2 ^ 64). lia.
Qed.

(** C7.  The title id [FindMapFile] derives: for a raw executable (DOL or
    ELF) whose name carries its four-character extension, the path without
    its directory prefix -- under either separator convention -- and without
    its last four characters; for a valid installed title, the upper and the
    lower half of the 64-bit title id, each as eight uppercase hexadecimal
    digits, joined by an underscore.  In particular "C:/games/Foo.dol" gives
    "Foo" and [0x0001000248414241] gives "00010002_48414241". *)
Theorem FindMapFile_title_id_derivation :
  forall X (sv : Services X) cfg,
    (m_BootType cfg = BOOT_DOL \/ m_BootType cfg = BOOT_ELF ->
     StdString.size (m_strFilename cfg) < SizeT.npos ->
     4 <= StdString.size (spec_strip_directory (m_strFilename cfg)) ->
     title_id (FindMapFile sv cfg)
     = spec_executable_title_id (m_strFilename cfg)) /\
    (m_BootType cfg = BOOT_WII_NAND ->
     NANDLoader_IsValid sv (m_strFilename cfg) = true ->
     0 <= NANDLoader_GetTitleId sv (m_strFilename cfg) < 2 ^ 64 ->
     exists hi lo,
       title_id (FindMapFile sv cfg) = (hi ++ "_" ++ lo)%string /\
       String.length hi = 8%nat /\
       String.length lo = 8%nat /\
       spec_hex_value hi
       = Some (NANDLoader_GetTitleId sv (m_strFilename cfg) / 2 ^ 32) /\
       spec_hex_value lo
       = Some (NANDLoader_GetTitleId sv (m_strFilename cfg) mod 2 ^ 32)) /\
    spec_executable_title_id "C:/games/Foo.dol" = "Foo" /\
    executable_title_id "C:/games/Foo.dol" = Some "Foo" /\
    nand_title_id 0x0001000248414241 = "00010002_48414241".
Proof.
  intros X sv cfg.
  split; [|split; [|repeat split]].
  - intros Hty Hlen Hext. unfold FindMapFile. cbn [title_id].
    unfold title_id_str_of.
    rewrite (executable_title_id_spec _ Hlen Hext).
    destruct Hty as [-> | ->]; reflexivity.
  - intros Hty Hvalid Hid. unfold FindMapFile. cbn [title_id].
    unfold title_id_str_of. rewrite Hty, Hvalid. unfold nand_title_id.
    destruct (title_id_halves _ Hid) as [-> ->].
    eexists. eexists. split; [reflexivity|].
    split; [apply length_format_08X|].
    split; [apply length_format_08X|].
    split; apply spec_hex_value_format_08X.
    + split; [apply Z.div_pos; lia|].
      apply Z.div_lt_upper_bound; [lia|].
      change (2 ^ 32 * 2 ^ 32) with (2 ^ 64). lia.
    + apply Z.mod_pos_bound. lia.
Qed.

Lemma FindMapFile_title_id_derivation_witness :
  let dol := Demo.cfg BOOT_DOL "C:/games/Foo.dol" true false "" in
  let wad := Demo.cfg BOOT_WII_NAND "title.wad" true false "" in
  StdString.size (m_strFilename dol) < SizeT.npos /\
  4 <= StdString.size (spec_strip_directory (m_strFilename dol)) /\
  title_id (FindMapFile Demo.services dol) = "Foo" /\
  NANDLoader_GetTitleId Demo.services "title.wad" = 0x0001000248414241 /\
  title_id (FindMapFile Demo.services wad) = "00010002_48414241".
Proof.
  intros dol wad.
  assert (Hlen : StdString.size (m_strFilename dol) < SizeT.npos)
    by (vm_compute; reflexivity).
  assert (Hext : 4 <= StdString.size
                        (spec_strip_directory (m_strFilename dol)))
    by (vm_compute; discriminate).
  split; [exact Hlen|]. split; [exact Hext|].
  destruct (FindMapFile_title_id_derivation _ Demo.services dol)
    as (Hexe & _ & Hfoo & _).
  split; [rewrite (Hexe (or_introl eq_refl) Hlen Hext); exact Hfoo|].
  split; [reflexivity|].
  vm_compute. reflexivity.
Defined.

(** * Further properties of Boot.cpp *)

(** ** What a run emits and what it leaves alone *)

Section Frames.

Context {X : Type}.

Lemma emits_ret :
  forall A P (a : A), emits P (ret (X := X) a).
Proof. intros A P a w e []. Qed.

Lemma emits_log :
  forall P e, P e = true -> emits P (log (X := X) e).
Proof. intros P e H w e' [<- | []]. exact H. Qed.

Lemma emits_on_ext :
  forall P e (f : X -> X), P e = true -> emits P (on_ext e f).
Proof. intros P e f H w e' [<- | []]. exact H. Qed.

Lemma emits_call :
  forall R P e (c : Collab X R), P e = true -> emits P (call e c).
Proof. intros R P e c H w e' [<- | []]. exact H. Qed.

Lemma emits_modify_ppc :
  forall P f, emits P (modify_ppc (X := X) f).
Proof. intros P f w e []. Qed.

Lemma emits_get_config : forall P, emits P (get_config (X := X)).
Proof. intros P w e []. Qed.

Lemma emits_get_ext : forall P, emits P (get_ext (X := X)).
Proof. intros P w e []. Qed.

Lemma emits_put_config : forall P c, emits P (put_config (X := X) c).
Proof. intros P c w e []. Qed.

Lemma emits_bind :
  forall A B P (m : M X A) (k : A -> M X B),
    emits P m -> (forall a, emits P (k a)) -> emits P (bind m k).
Proof.
  intros A B P m k Hm Hk w e Hin. cbn [bind events] in Hin.
  apply in_app_or in Hin. destruct Hin as [Hin | Hin].
  - exact (Hm w e Hin).
  - exact (Hk _ _ e Hin).
Qed.

Lemma emits_when :
  forall P b (m : M X unit), emits P m -> emits P (when b m).
Proof. intros P [] m H; [exact H | apply emits_ret]. Qed.

Lemma emits_weaken :
  forall A (P Q : Event -> bool) (m : M X A),
    (forall e, P e = true -> Q e = true) -> emits P m -> emits Q m.
Proof. intros A P Q m HPQ H w e Hin. apply HPQ. exact (H w e Hin). Qed.

Lemma keeps_ret :
  forall A T (f : World X -> T) (a : A), keeps f (ret a).
Proof. intros A T f a w. reflexivity. Qed.

Lemma keeps_log :
  forall T (f : World X -> T) e, keeps f (log e).
Proof. intros T f e w. reflexivity. Qed.

Lemma keeps_get_config : forall T (f : World X -> T), keeps f get_config.
Proof. intros T f w. reflexivity. Qed.

Lemma keeps_get_ext : forall T (f : World X -> T), keeps f get_ext.
Proof. intros T f w. reflexivity. Qed.

Lemma keeps_bind :
  forall A B T (f : World X -> T) (m : M X A) (k : A -> M X B),
    keeps f m -> (forall a, keeps f (k a)) -> keeps f (bind m k).
Proof.
  intros A B T f m k Hm Hk w. cbn [bind final].
  rewrite Hk. apply Hm.
Qed.

Lemma keeps_when :
  forall T (f : World X -> T) b (m : M X unit),
    keeps f m -> keeps f (when b m).
Proof. intros T f [] m H; [exact H | apply keeps_ret]. Qed.

Lemma keeps_config_on_ext :
  forall e (g : X -> X), keeps config (on_ext e g).
Proof. intros e g w. reflexivity. Qed.

Lemma keeps_config_call :
  forall R e (c : Collab X R), keeps config (call e c).
Proof. intros R e c w. reflexivity. Qed.

Lemma keeps_config_modify_ppc :
  forall g, keeps config (modify_ppc (X := X) g).
Proof. intros g w. reflexivity. Qed.

Lemma keeps_ppc_on_ext :
  forall e (g : X -> X), keeps ppcState (on_ext e g).
Proof. intros e g w. reflexivity. Qed.

Lemma keeps_ppc_put_config :
  forall c, keeps ppcState (put_config (X := X) c).
Proof. intros c w. reflexivity. Qed.

End Frames.

(** Walks through a computation built from the primitives, choosing the
    lemma by the head of the computation. *)
Ltac walk_step :=
  lazymatch goal with
  | |- emits _ (bind _ _) => apply emits_bind; [|intro]
  | |- emits _ (ret _) => apply emits_ret
  | |- emits _ get_config => apply emits_get_config
  | |- emits _ get_ext => apply emits_get_ext
  | |- emits _ (put_config _) => apply emits_put_config
  | |- emits _ (modify_ppc _) => apply emits_modify_ppc
  | |- emits _ (log _) => apply emits_log; reflexivity
  | |- emits _ (on_ext _ _) => apply emits_on_ext; reflexivity
  | |- emits _ (call _ _) => apply emits_call; reflexivity
  | |- emits _ (when _ _) => apply emits_when
  | |- emits _ (if ?b then _ else _) => destruct b
  | |- emits _ (match ?o with Some _ => _ | None => _ end) => destruct o
  | |- keeps _ (bind _ _) => apply keeps_bind; [|intro]
  | |- keeps _ (ret _) => apply keeps_ret
  | |- keeps _ get_config => apply keeps_get_config
  | |- keeps _ get_ext => apply keeps_get_ext
  | |- keeps _ (log _) => apply keeps_log
  | |- keeps config (on_ext _ _) => apply keeps_config_on_ext
  | |- keeps config (call _ _) => apply keeps_config_call
  | |- keeps config (modify_ppc _) => apply keeps_config_modify_ppc
  | |- keeps ppcState (on_ext _ _) => apply keeps_ppc_on_ext
  | |- keeps ppcState (put_config _) => apply keeps_ppc_put_config
  | |- keeps _ (when _ _) => apply keeps_when
  | |- keeps _ (if ?b then _ else _) => destruct b
  | |- keeps _ (match ?o with Some _ => _ | None => _ end) => destruct o
  end.

Ltac walk := repeat first [ assumption | walk_step ].

Section Boot_frames.

Context {X : Type} (sv : Services X).

Lemma emits_DVDRead :
  forall P a b c d,
    P (EvVolumeRead a c d) = true ->
    (forall bytes, P (EvCopyToEmu b bytes) = true) ->
    emits P (DVDRead sv a b c d).
Proof.
  intros P a b c d H1 H2. unfold DVDRead, Memory_CopyToEmu_.
  apply emits_bind; [walk | intro x].
  apply emits_bind; [apply emits_log; exact H1 | intros _].
  destruct (Volume_Read sv x a c d); [|walk].
  apply emits_bind; [apply emits_on_ext; apply H2 | intros _; walk].
Qed.

Lemma emits_DBATUpdated_ :
  forall P, P EvDBATUpdated = true -> emits P (DBATUpdated_ sv).
Proof. intros P H w e [<- | []]. exact H. Qed.

Lemma emits_IBATUpdated_ :
  forall P, P EvIBATUpdated = true -> emits P (IBATUpdated_ sv).
Proof. intros P H w e [<- | []]. exact H. Qed.

Lemma emits_Memory_Read_U32_ :
  forall P a, emits P (Memory_Read_U32_ sv a).
Proof. intros P a w e []. Qed.

Lemma emits_SymbolDB_LoadMap_ :
  forall P path,
    P (EvSymbolDB_LoadMap path) = true -> emits P (SymbolDB_LoadMap_ sv path).
Proof. intros P path H w e [<- | []]. exact H. Qed.

Lemma keeps_service_wrappers :
  forall T (f : World X -> T),
    (forall c p x x', f (mkWorld c p x) = f (mkWorld c p x')) ->
    keeps f (DBATUpdated_ sv) /\ keeps f (IBATUpdated_ sv) /\
    (forall a, keeps f (Memory_Read_U32_ sv a)) /\
    (forall path, keeps f (SymbolDB_LoadMap_ sv path)).
Proof.
  intros T f H. repeat split; intros; intro w; destruct w as [c p x];
    cbn; try reflexivity; apply H.
Qed.

End Boot_frames.

(** ** [BootUp]: the cases that do no bring-up *)

(** X1.  With a boot type that is none of the enumerators, [BootUp] returns
    false after the prologue and one alert: nothing is mounted or loaded,
    no register and no configuration field is written, and the final
    fixed-function patches are skipped. *)
Theorem BootUp_unknown_boot_type :
  forall X (sv : Services X) w raw,
    m_BootType (config w) = BOOT_out_of_range raw ->
    let o := BootUp sv w in
    result o = false /\
    events o
    = [EvNoticeLog ("Booting " ++ m_strFilename (config w))%string;
       EvSymbolDB_Clear;
       EvVideoInterface_Preset
         (IsNTSC sv (m_region (config w))
          || bWii (config w) && bPAL60 (config w));
       EvPanicAlert Alert_unknown_file_type] /\
    config (final o) = config w /\
    ppcState (final o) = ppcState w /\
    ext (final o) = ext (final (BootUp_prologue sv w)).
Proof.
  intros X sv w raw H o. subst o. unfold BootUp, BootUp_prologue.
  run. rewrite H. cbn [BootUp_dispatch]. unfold PanicAlertT. run.
  repeat split.
Qed.

Lemma BootUp_unknown_boot_type_witness :
  let w := Demo.world (Demo.cfg (BOOT_out_of_range 6) "x.bin" true false "")
                      Demo.no_disc in
  m_BootType (config w) = BOOT_out_of_range 6 /\
  result (BootUp Demo.services w) = false /\
  ppcState (final (BootUp Demo.services w)) = ppcState w.
Proof.
  intro w.
  assert (H : m_BootType (config w) = BOOT_out_of_range 6) by reflexivity.
  destruct (BootUp_unknown_boot_type _ Demo.services w 6 H)
    as (Hr & _ & _ & Hp & _).
  split; [exact H|]. split; [exact Hr | exact Hp].
Defined.

(** X2.  With the recording boot type ([BOOT_DFF]) [BootUp] always returns
    true and does nothing between the prologue and the final fixed-function
    patches: no mount, no load, no register or configuration write. *)
Theorem BootUp_DFF_only_patches :
  forall X (sv : Services X) w,
    m_BootType (config w) = BOOT_DFF ->
    let o := BootUp sv w in
    result o = true /\
    events o
    = [EvNoticeLog ("Booting " ++ m_strFilename (config w))%string;
       EvSymbolDB_Clear;
       EvVideoInterface_Preset
         (IsNTSC sv (m_region (config w))
          || bWii (config w) && bPAL60 (config w));
       EvHLE_PatchFixedFunctions] /\
    config (final o) = config w /\
    ppcState (final o) = ppcState w /\
    ext (final o)
    = HLE_PatchFixedFunctions sv (ext (final (BootUp_prologue sv w))).
Proof.
  intros X sv w H o. subst o. unfold BootUp, BootUp_prologue.
  run. rewrite H. cbn [BootUp_dispatch]. run.
  repeat split.
Qed.

Lemma BootUp_DFF_only_patches_witness :
  let w := Demo.world (Demo.cfg BOOT_DFF "movie.dff" true false "")
                      Demo.no_disc in
  m_BootType (config w) = BOOT_DFF /\
  result (BootUp Demo.services w) = true.
Proof.
  intro w.
  assert (H : m_BootType (config w) = BOOT_DFF) by reflexivity.
  split; [exact H|].
  exact (proj1 (BootUp_DFF_only_patches _ Demo.services w H)).
Defined.

(** X4.  A disc-image boot whose mount leaves no disc inside fails at once:
    [BootUp] returns false having emitted only the prologue and the mount
    request; no bring-up runs, the console-mode flag of the configuration
    and the CPU state are untouched, and the mount itself is not undone. *)
Theorem BootUp_ISO_without_disc :
  forall X (sv : Services X) w,
    m_BootType (config w) = BOOT_ISO ->
    IsDiscInside sv (ext_after_mount sv w) = false ->
    let o := BootUp sv w in
    result o = false /\
    events o
    = (events (BootUp_prologue sv w)
       ++ [EvSetVolumeName (m_strFilename (config w))])%list /\
    config (final o) = config w /\
    ppcState (final o) = ppcState w /\
    ext (final o) = ext_after_mount sv w.
Proof.
  intros X sv w H Hdisc o. subst o.
  unfold ext_after_mount in *. unfold BootUp, BootUp_prologue in *.
  cbn [bind get_config log on_ext result final events config ext ppcState
       app] in *.
  rewrite H. cbn [BootUp_dispatch]. unfold BootUp_ISO.
  cbn [bind get_config get_ext on_ext result final events config ext
       ppcState app].
  rewrite Hdisc. cbn [negb bind ret result final events config ext ppcState
                      app].
  repeat split.
Qed.

Lemma BootUp_ISO_without_disc_witness :
  let w := Demo.world (Demo.cfg BOOT_ISO "nowhere.iso" true false "")
                      Demo.no_disc in
  m_BootType (config w) = BOOT_ISO /\
  IsDiscInside Demo.services (ext_after_mount Demo.services w) = false /\
  result (BootUp Demo.services w) = false.
Proof.
  intro w.
  assert (H : m_BootType (config w) = BOOT_ISO) by reflexivity.
  assert (Hd : IsDiscInside Demo.services
                 (ext_after_mount Demo.services w) = false) by reflexivity.
  split; [exact H|]. split; [exact Hd|].
  exact (proj1 (BootUp_ISO_without_disc _ Demo.services w H Hd)).
Defined.

(** X7.  A DOL boot whose container does not parse fails before anything
    else happens: [BootUp] returns false with the prologue as its only
    events, so no companion disc is mounted even when a directory root or a
    default image is configured, and no register is written. *)
Theorem BootUp_DOL_invalid :
  forall X (sv : Services X) w,
    m_BootType (config w) = BOOT_DOL ->
    DolLoader_IsValid sv (m_strFilename (config w)) = false ->
    let o := BootUp sv w in
    result o = false /\
    events o = events (BootUp_prologue sv w) /\
    final o = final (BootUp_prologue sv w).
Proof.
  intros X sv w H Hinv o. subst o. unfold BootUp, BootUp_prologue.
  run. rewrite H. cbn [BootUp_dispatch]. unfold BootUp_DOL. run.
  rewrite Hinv. cbn [negb]. run. repeat split.
Qed.

Lemma BootUp_DOL_invalid_witness :
  let w := Demo.world (Demo.cfg BOOT_DOL "broken.dol" true false "")
                      Demo.no_disc in
  m_BootType (config w) = BOOT_DOL /\
  DolLoader_IsValid Demo.services (m_strFilename (config w)) = false /\
  result (BootUp Demo.services w) = false.
Proof.
  intro w.
  assert (H : m_BootType (config w) = BOOT_DOL) by reflexivity.
  assert (Hi : DolLoader_IsValid Demo.services (m_strFilename (config w))
               = false) by reflexivity.
  split; [exact H|]. split; [exact Hi|].
  exact (proj1 (BootUp_DOL_invalid _ Demo.services w H Hi)).
Defined.

(** Unfolds the functions of Boot.cpp down to the primitives and walks
    through them. *)
Ltac walk_boot_step :=
  lazymatch goal with
  | |- emits _ (DBATUpdated_ _) => apply emits_DBATUpdated_; reflexivity
  | |- emits _ (IBATUpdated_ _) => apply emits_IBATUpdated_; reflexivity
  | |- emits _ (Memory_Read_U32_ _ _) => apply emits_Memory_Read_U32_
  | |- emits _ (SymbolDB_LoadMap_ _ _) =>
      apply emits_SymbolDB_LoadMap_; reflexivity
  | |- keeps _ (DBATUpdated_ _) =>
      apply keeps_service_wrappers; intros; reflexivity
  | |- keeps _ (IBATUpdated_ _) =>
      apply keeps_service_wrappers; intros; reflexivity
  | |- keeps _ (Memory_Read_U32_ _ _) =>
      apply keeps_service_wrappers; intros; reflexivity
  | |- keeps _ (SymbolDB_LoadMap_ _ _) =>
      apply keeps_service_wrappers; intros; reflexivity
  | |- _ => first [ walk_step | progress cbv zeta ]
  end.

Ltac walk_boot :=
  unfold BootUp_dispatch, BootUp_ISO, BootUp_DOL, BootUp_DOL_direct_entry,
    BootUp_ELF, BootUp_WII_NAND, BootUp_BS2, BootUp_prologue,
    load_map_and_patch, LoadMapFromFilename, HLE_PatchFunctions_,
    UpdateDebugger_MapLoaded, mount_root_or_default, Load_BS2,
    buffer_overrun, Load_BS2_registers, Load_FST, DVDRead, ReadSwapped,
    Memory_CopyToEmu_,
    Memory_Write_U32_, PanicAlertT;
  repeat first [ assumption | walk_boot_step ].

Section BootUp_whole.

Context {X : Type} (sv : Services X).

Lemma BootUp_dispatch_not_final_patch :
  forall boot_type, emits not_final_patch (BootUp_dispatch sv boot_type).
Proof. intros []; walk_boot. Qed.

Lemma BootUp_before_final_patch :
  forall w e,
    In e (events (BootUp_prologue sv w)
          ++ events (BootUp_dispatch sv (m_BootType (config w))
                       (final (BootUp_prologue sv w))))%list ->
    e <> EvHLE_PatchFixedFunctions.
Proof.
  intros w e Hin ->. apply in_app_or in Hin. destruct Hin as [Hin | Hin].
  - cbn in Hin. intuition discriminate.
  - apply BootUp_dispatch_not_final_patch in Hin. discriminate.
Qed.

End BootUp_whole.

(** X3.  For every boot type and every world, [BootUp] applies the final
    fixed-function patches exactly when it returns true, exactly once and as
    its very last action; a failing attempt never applies them.  Every
    attempt, failing or not, starts with the prologue (symbol database
    cleared, video timing preset). *)
Theorem BootUp_final_patches_iff_success :
  forall X (sv : Services X) w,
    let o := BootUp sv w in
    (exists rest,
        events o = (events (BootUp_prologue sv w) ++ rest)%list) /\
    (In EvHLE_PatchFixedFunctions (events o) <-> result o = true) /\
    (result o = true <->
     exists before,
       events o = (before ++ [EvHLE_PatchFixedFunctions])%list /\
       ~ In EvHLE_PatchFixedFunctions before).
Proof.
  intros X sv w o. subst o.
  destruct (BootUp_unfold sv w) as [Er Ee].
  pose proof (BootUp_before_final_patch sv w) as Hbefore.
  rewrite Er, Ee. clear Er Ee.
  set (d := BootUp_dispatch sv (m_BootType (config w))
                            (final (BootUp_prologue sv w))) in *.
  split; [eexists; reflexivity|].
  destruct (result d).
  - rewrite app_assoc. split.
    + split; [reflexivity|]. intros _. apply in_or_app. right. left.
      reflexivity.
    + split; [|reflexivity]. intros _.
      eexists. split; [reflexivity|].
      intro Hin. exact (Hbefore _ Hin eq_refl).
  - rewrite app_nil_r. split.
    + split; [|discriminate]. intro Hin. elim (Hbefore _ Hin eq_refl).
    + split; [discriminate|]. intros (before & Heq & _).
      assert (Hin : In EvHLE_PatchFixedFunctions
                       (events (BootUp_prologue sv w) ++ events d)%list).
      { rewrite Heq. apply in_or_app. right. left. reflexivity. }
      elim (Hbefore _ Hin eq_refl).
Qed.

(** ** [BootUp] and the configuration *)

Section BootUp_config.

Context {X : Type} (sv : Services X).

Lemma BootUp_dispatch_keeps_config :
  forall boot_type,
    boot_type <> BOOT_ISO -> keeps config (BootUp_dispatch sv boot_type).
Proof. intros [] H; try (elim H; reflexivity); walk_boot. Qed.

Lemma final_bind :
  forall A B (m : M X A) (k : A -> M X B) w,
    final (bind m k w) = final (k (result (m w)) (final (m w))).
Proof. reflexivity. Qed.

Lemma BootUp_ISO_config :
  forall w,
    let x := SetVolumeName sv (m_strFilename (config w)) (ext w) in
    IsDiscInside sv x = true ->
    config (final (BootUp_ISO sv w))
    = set_bWii (is_WII_DISC (Volume_GetVolumeType sv x)) (config w).
Proof.
  intros w x Hdisc. unfold BootUp_ISO.
  cbn [bind get_config get_ext on_ext result final events config ext
       ppcState].
  fold x. rewrite Hdisc. cbn [negb].
  set (wii := is_WII_DISC (Volume_GetVolumeType sv x)).
  do 2 (match goal with
        | |- config (final (bind ?m ?k ?w0)) = _ =>
            rewrite (final_bind _ _ m k w0)
        end; cbv beta).
  match goal with
  | |- config (final (?rest ?w2)) = _ =>
      assert (K : keeps config rest) by walk_boot; rewrite (K w2)
  end.
  reflexivity.
Qed.

(** The configuration [BootUp] leaves behind. *)
Lemma BootUp_final_config :
  forall w,
    config (final (BootUp sv w))
    = config (final (BootUp_dispatch sv (m_BootType (config w))
                       (final (BootUp_prologue sv w)))).
Proof.
  intro w. unfold BootUp.
  cbn [bind get_config result final].
  rewrite (proj1 (BootUp_prologue_frame sv w)).
  destruct (result _); reflexivity.
Qed.

End BootUp_config.

(** X6.  [BootUp] treats the configuration as read-only with one exception:
    a disc-image boot whose disc mounts overwrites the console-mode flag
    [bWii] with the platform of the mounted volume.  For every other boot
    type, and for a disc-image boot that fails to mount, the configuration
    after [BootUp] is the configuration before it. *)
Theorem BootUp_configuration_frame :
  forall X (sv : Services X) w,
    config (final (BootUp sv w))
    = match m_BootType (config w) with
      | BOOT_ISO =>
          if IsDiscInside sv (ext_after_mount sv w)
          then set_bWii (is_WII_DISC
                           (Volume_GetVolumeType sv (ext_after_mount sv w)))
                        (config w)
          else config w
      | _ => config w
      end.
Proof.
  intros X sv w. rewrite BootUp_final_config.
  destruct (m_BootType (config w)) eqn:Hty;
    try (rewrite BootUp_dispatch_keeps_config by discriminate; reflexivity).
  cbn [BootUp_dispatch].
  destruct (IsDiscInside sv (ext_after_mount sv w)) eqn:Hdisc.
  - exact (BootUp_ISO_config sv (final (BootUp_prologue sv w)) Hdisc).
  - unfold ext_after_mount in Hdisc. unfold BootUp_ISO, BootUp_prologue in *.
    cbn [bind get_config get_ext log on_ext result final events config ext
         ppcState] in *.
    rewrite Hdisc. reflexivity.
Qed.

Section BootUp_ISO_mode.

Context {X : Type} (sv : Services X).

Lemma Load_BS2_tail_events :
  forall wii path, emits (is_ISO_tail_event wii) (Load_BS2 sv path).
Proof. intros wii path. walk_boot. Qed.

Lemma ISO_tail_vocabulary :
  forall w wk e,
    In e (ISO_bring_up_events sv (ISO_world_at_bring_up sv w)
          ++ EvLoadPatches
          :: ISO_scan_events sv (config w)
          ++ events (load_map_and_patch sv wk)
          ++ [EvHLE_PatchFixedFunctions])%list ->
    is_ISO_tail_event
      (is_WII_DISC (Volume_GetVolumeType sv (ext_after_mount sv w))) e = true.
Proof.
  intros w wk e Hin.
  set (wii := is_WII_DISC (Volume_GetVolumeType sv (ext_after_mount sv w)))
    in *.
  apply in_app_or in Hin. destruct Hin as [Hin | Hin].
  - unfold ISO_bring_up_events, ISO_world_at_bring_up in Hin.
    cbn [config set_bWii bHLE_BS2 bWii m_strBootROM] in Hin. fold wii in Hin.
    destruct (bHLE_BS2 (config w)).
    + destruct Hin as [<- | []]. apply Bool.eqb_reflx.
    + apply in_app_or in Hin. destruct Hin as [Hin | Hin].
      * exact (Load_BS2_tail_events wii _ _ _ Hin).
      * destruct (result _); [contradiction|].
        destruct Hin as [<- | []]. apply Bool.eqb_reflx.
  - destruct Hin as [<- | Hin]; [reflexivity|].
    apply in_app_or in Hin. destruct Hin as [Hin | Hin].
    + unfold ISO_scan_events, signature_scan_events in Hin.
      destruct (_ && _); [|contradiction].
      destruct Hin as [<- | [<- | Hin]]; try reflexivity.
      destruct (SignatureDB_Load _ _); [|contradiction].
      cbn [In] in Hin.
      repeat (destruct Hin as [<- | Hin]; [reflexivity|]). contradiction.
    + apply in_app_or in Hin. destruct Hin as [Hin | Hin].
      * destruct (is_map_event e) eqn:He.
        -- destruct e; try discriminate; reflexivity.
        -- elim (load_map_and_patch_events sv wk e He Hin).
      * destruct Hin as [<- | []]. reflexivity.
Qed.

End BootUp_ISO_mode.



(** ** [BootUp]: raw executables *)

Section BootUp_ppc.

Context {X : Type} (sv : Services X).

Lemma load_map_and_patch_keeps_ppc : keeps ppcState (load_map_and_patch sv).
Proof. walk_boot. Qed.

Lemma BootUp_final_ppc :
  forall w,
    ppcState (final (BootUp sv w))
    = ppcState (final (BootUp_dispatch sv (m_BootType (config w))
                         (final (BootUp_prologue sv w)))).
Proof.
  intro w. unfold BootUp.
  cbn [bind get_config result final].
  rewrite (proj1 (BootUp_prologue_frame sv w)).
  destruct (result _); reflexivity.
Qed.

Lemma mount_root_or_default_frame :
  forall cfg is_wii apploader dol,
    keeps config (mount_root_or_default sv cfg is_wii apploader dol) /\
    keeps ppcState (mount_root_or_default sv cfg is_wii apploader dol).
Proof. intros. split; walk_boot. Qed.

Lemma BootUp_DOL_direct_entry_pc :
  forall filename w,
    pc (ppcState (final (BootUp_DOL_direct_entry sv filename w)))
    = DolLoader_GetEntryPoint sv filename.
Proof.
  intros filename w. unfold BootUp_DOL_direct_entry.
  rewrite !final_bind. reflexivity.
Qed.

Lemma BootUp_DOL_outcome :
  forall w,
    DolLoader_IsValid sv (m_strFilename (config w)) = true ->
    let fn := m_strFilename (config w) in
    let wm := final (mount_root_or_default sv (config w)
                       (DolLoader_IsWii sv fn) (m_strApploader (config w))
                       fn w) in
    let r := EmulatedBS2 sv (DolLoader_IsWii sv fn) (config w) (ppcState w)
                         (ext wm) in
    result (BootUp_DOL sv w) = true /\
    (fst (fst r) = true ->
     ppcState (final (BootUp_DOL sv w)) = snd (fst r)) /\
    (fst (fst r) = false ->
     pc (ppcState (final (BootUp_DOL sv w)))
     = DolLoader_GetEntryPoint sv fn).
Proof.
  intros w Hvalid fn wm r.
  destruct (mount_root_or_default_frame (config w) (DolLoader_IsWii sv fn)
              (m_strApploader (config w)) fn) as [Kc Kp].
  pose proof (Kc w) as Kc'. pose proof (Kp w) as Kp'. fold wm in Kc', Kp'.
  pose proof load_map_and_patch_keeps_ppc as Km. unfold keeps in Km.
  unfold BootUp_DOL. unfold PanicAlertT, when.
  cbn [bind get_config result final]. rewrite Hvalid. cbn [negb].
  split; [reflexivity|].
  rewrite !final_bind. cbv beta.
  rewrite !when_log_final. fold fn. fold wm.
  cbn [call result final config ppcState ext ret].
  rewrite Kc', Kp'. fold r. rewrite Km.
  split; intros E; rewrite E; cbn [negb ret final ppcState].
  - reflexivity.
  - apply BootUp_DOL_direct_entry_pc.
Qed.

End BootUp_ppc.

(** X8.  A DOL boot with a valid container always returns true.  When the
    high-level stub reports that it does not apply, [BootUp] ends with the
    program counter at the container's entry point; when the stub applies,
    [BootUp] itself writes no register: the CPU state is the one the stub
    left. *)
Theorem BootUp_DOL_entry_point :
  forall X (sv : Services X) w,
    m_BootType (config w) = BOOT_DOL ->
    DolLoader_IsValid sv (m_strFilename (config w)) = true ->
    let o := BootUp sv w in
    let stub :=
      EmulatedBS2 sv (DolLoader_IsWii sv (m_strFilename (config w)))
                  (config w) (ppcState w)
                  (ext (DOL_world_at_bring_up sv w)) in
    result o = true /\
    (fst (fst stub) = false ->
     pc (ppcState (final o))
     = DolLoader_GetEntryPoint sv (m_strFilename (config w))) /\
    (fst (fst stub) = true -> ppcState (final o) = snd (fst stub)).
Proof.
  intros X sv w Hty Hvalid o stub. subst o.
  destruct (BootUp_DOL_outcome sv (final (BootUp_prologue sv w)) Hvalid)
    as (Hr & Hstub & Hdirect).
  split.
  { rewrite (proj1 (BootUp_unfold sv w)), Hty. exact Hr. }
  rewrite BootUp_final_ppc, Hty. cbn [BootUp_dispatch].
  split; [exact Hdirect | exact Hstub].
Qed.

Lemma BootUp_DOL_entry_point_witness :
  let w := Demo.world (Demo.cfg BOOT_DOL "C:/games/Foo.dol" false false "")
                      Demo.no_disc in
  m_BootType (config w) = BOOT_DOL /\
  DolLoader_IsValid demo_services_without_stub (m_strFilename (config w))
  = true /\
  pc (ppcState (final (BootUp demo_services_without_stub w))) = 0x80003100.
Proof.
  intro w.
  assert (Hty : m_BootType (config w) = BOOT_DOL) by reflexivity.
  assert (Hv : DolLoader_IsValid demo_services_without_stub
                 (m_strFilename (config w)) = true) by reflexivity.
  split; [exact Hty|]. split; [exact Hv|].
  exact (proj1 (proj2 (BootUp_DOL_entry_point
                         _ demo_services_without_stub w Hty Hv)) eq_refl).
Defined.

(** ** [BootUp]: booting through the firmware *)

Section BootUp_firmware.

Context {X : Type} (sv : Services X).

Lemma BootUp_BS2_readable :
  forall w data,
    File_ReadFileToString sv (m_strBootROM (config w)) = Some data ->
    0x820 + 0x1AFE00 - 1 <= Z.of_nat (List.length data) ->
    result (BootUp_BS2 sv w) = true /\
    ppcState (final (BootUp_BS2 sv w)) = Load_BS2_cpu (ppcState w) /\
    forall e, In e (events (BootUp_BS2 sv w)) -> is_EmulatedBS2 e = false.
Proof.
  intros w data Hread Hlen.
  pose proof (Load_BS2_result sv (m_strBootROM (config w)) w data Hread Hlen)
    as Hres.
  pose proof (load_map_and_patch_keeps_ppc sv) as Km. unfold keeps in Km.
  unfold BootUp_BS2. cbn [bind get_config result final events app].
  rewrite Hres. cbn [bind ret result final events].
  split; [reflexivity|]. split.
  - rewrite Km. exact (Load_BS2_final_cpu X sv _ w data Hread Hlen).
  - intros e Hin. apply in_app_or in Hin. destruct Hin as [Hin | Hin].
    + apply (Load_BS2_events_kind sv _ _ _ Hin).
    + rewrite app_nil_r in Hin.
      apply (load_map_and_patch_events_kind sv _ _ Hin).
Qed.

Lemma BootUp_ISO_firmware_ppc :
  forall w data,
    IsDiscInside sv (SetVolumeName sv (m_strFilename (config w)) (ext w))
    = true ->
    bHLE_BS2 (config w) = false ->
    File_ReadFileToString sv (m_strBootROM (config w)) = Some data ->
    0x820 + 0x1AFE00 - 1 <= Z.of_nat (List.length data) ->
    ppcState (final (BootUp_ISO sv w)) = Load_BS2_cpu (ppcState w).
Proof.
  intros w data Hdisc Hhle Hread Hlen.
  pose proof (load_map_and_patch_keeps_ppc sv) as Km. unfold keeps in Km.
  unfold BootUp_ISO, PanicAlertT, when.
  cbn [bind get_config get_ext on_ext result final config ext ppcState].
  rewrite Hdisc. cbn [negb].
  rewrite !final_bind. cbv beta.
  cbn [bind get_config put_config ret result final config ppcState ext
       set_bWii bHLE_BS2 m_strBootROM bEnableDebugging].
  rewrite !when_log_final.
  cbn [put_config get_config result final config ppcState ext set_bWii
       bHLE_BS2 m_strBootROM bEnableDebugging].
  rewrite Hhle. cbn [andb].
  rewrite !final_bind. cbv beta.
  match goal with
  | |- context [result (Load_BS2 sv ?p ?w0)] =>
      pose proof (Load_BS2_result sv p w0 data Hread Hlen) as Hres;
      rewrite Hres;
      pose proof (Load_BS2_final_cpu X sv p w0 data Hread Hlen) as Hcpu
  end.
  cbn [negb ret on_ext result final ppcState].
  rewrite Km. cbn [ppcState]. exact Hcpu.
Qed.

End BootUp_firmware.

(** X11.  When the boot ROM is a firmware image -- a file that can be read
    and holds the ranges [Load_BS2] installs, so at least [0x1B061F] bytes
    -- a firmware boot never mixes with the high-level stub.  With the
    Firmware boot type, and with the DiscImage boot type when the firmware
    is requested and the disc mounts, [BootUp] returns true, never calls the
    high-level stub, and nothing after [Load_BS2] writes a register: at the
    end of [BootUp] the CPU state is the initial one with exactly the
    assignments of [Load_BS2] applied. *)
Theorem BootUp_firmware_cpu_state :
  forall X (sv : Services X) w data,
    File_ReadFileToString sv (m_strBootROM (config w)) = Some data ->
    0x820 + 0x1AFE00 - 1 <= Z.of_nat (List.length data) ->
    let o := BootUp sv w in
    (m_BootType (config w) = BOOT_BS2 \/
     (m_BootType (config w) = BOOT_ISO /\
      bHLE_BS2 (config w) = false /\
      IsDiscInside sv (ext_after_mount sv w) = true)) ->
    result o = true /\
    ppcState (final o) = Load_BS2_cpu (ppcState w) /\
    hand_set_registers (ppcState (final o)) = Load_BS2_literals /\
    forall e, In e (events o) -> is_EmulatedBS2 e = false.
Proof.
  intros X sv w data Hread Hlen o Hcase. subst o.
  assert (Hmain :
            result (BootUp sv w) = true /\
            ppcState (final (BootUp sv w)) = Load_BS2_cpu (ppcState w) /\
            forall e, In e (events (BootUp sv w)) -> is_EmulatedBS2 e = false).
  { destruct Hcase as [Hty | (Hty & Hhle & Hdisc)].
    - destruct (BootUp_BS2_readable sv (final (BootUp_prologue sv w)) data
                                    Hread Hlen) as (Hr & Hp & Hev).
      destruct (BootUp_unfold sv w) as [Er Ee].
      rewrite Hty in Er, Ee. cbn [BootUp_dispatch] in Er, Ee.
      split; [rewrite Er; exact Hr|]. split.
      + rewrite BootUp_final_ppc, Hty. exact Hp.
      + intros e Hin. rewrite Ee in Hin.
        apply in_app_or in Hin. destruct Hin as [Hin | Hin].
        * cbn in Hin.
          repeat (destruct Hin as [<- | Hin]; [reflexivity|]). contradiction.
        * apply in_app_or in Hin. destruct Hin as [Hin | Hin];
            [exact (Hev e Hin)|].
          destruct (result _); [destruct Hin as [<- | []]; reflexivity
                               | contradiction].
    - destruct (BootUp_ISO_events sv w Hty Hdisc) as (wk & Hr & He).
      split; [exact Hr|]. split.
      + rewrite BootUp_final_ppc, Hty. cbn [BootUp_dispatch].
        exact (BootUp_ISO_firmware_ppc sv (final (BootUp_prologue sv w))
                                       data Hdisc Hhle Hread Hlen).
      + intros e Hin. rewrite He in Hin.
        unfold ISO_preamble_events, ISO_bring_up_events, ISO_scan_events,
          ISO_world_at_bring_up in Hin.
        cbn [config set_bWii bHLE_BS2 m_strBootROM bWii] in Hin.
        rewrite Hhle in Hin.
        rewrite (Load_BS2_result sv _ _ data Hread Hlen) in Hin.
        cbn [andb app] in Hin.
        apply in_app_or in Hin. destruct Hin as [Hin | Hin].
        { apply in_app_or in Hin. destruct Hin as [Hin | Hin].
          - cbn in Hin.
            repeat (destruct Hin as [<- | Hin]; [reflexivity|]).
            contradiction.
          - destruct Hin as [<- | Hin]; [reflexivity|].
            destruct (negb _); [destruct Hin as [<- | []]; reflexivity
                               | contradiction]. }
        apply in_app_or in Hin. destruct Hin as [Hin | Hin].
        { rewrite app_nil_r in Hin.
          apply (Load_BS2_events_kind sv _ _ _ Hin). }
        destruct Hin as [<- | Hin]; [reflexivity|].
        apply in_app_or in Hin. destruct Hin as [Hin | Hin];
          [apply (load_map_and_patch_events_kind sv _ _ Hin)|].
        destruct Hin as [<- | []]. reflexivity. }
  destruct Hmain as (Hr & Hp & Hev).
  split; [exact Hr|]. split; [exact Hp|]. split; [|exact Hev].
  rewrite Hp. apply Load_BS2_cpu_literals.
Qed.

Lemma BootUp_firmware_cpu_state_witness :
  let w := Demo.world (Demo.cfg BOOT_BS2 "" false false "ipl.bin")
                      Demo.no_disc in
  File_ReadFileToString Demo.services (m_strBootROM (config w))
  = Some Demo.ipl_bin /\
  0x820 + 0x1AFE00 - 1 <= Z.of_nat (List.length Demo.ipl_bin) /\
  m_BootType (config w) = BOOT_BS2 /\
  result (BootUp Demo.services w) = true /\
  pc (ppcState (final (BootUp Demo.services w))) = 0x81200150.
Proof.
  intro w.
  assert (Hread : File_ReadFileToString Demo.services
                    (m_strBootROM (config w)) = Some Demo.ipl_bin)
    by reflexivity.
  assert (Hlen : 0x820 + 0x1AFE00 - 1
                 <= Z.of_nat (List.length Demo.ipl_bin)).
  { unfold Demo.ipl_bin, Demo.ipl_size. rewrite repeat_length. lia. }
  assert (Hty : m_BootType (config w) = BOOT_BS2) by reflexivity.
  split; [exact Hread|]. split; [exact Hlen|]. split; [exact Hty|].
  destruct (BootUp_firmware_cpu_state _ Demo.services w Demo.ipl_bin Hread
                                      Hlen (or_introl Hty))
    as (Hr & Hp & _).
  split; [exact Hr|].
  rewrite Hp. reflexivity.
Defined.

(** ** [BootUp]: ELF executables *)

Section BootUp_ELF_facts.

Context {X : Type} (sv : Services X).

Lemma BootUp_ELF_shape :
  forall w,
    exists w1,
      events (BootUp_ELF sv w)
      = (events (mount_root_or_default sv (config w) (bWii (config w))
                   "" "" w)
         ++ (if bWii (config w)
             then EvSetupWiiMemory 0x000000010000003a
             else EvEmulatedBS2_GC true)
         :: events (Load_FST sv (bWii (config w)) w1)
         ++ EvBoot_ELF (m_strFilename (config w))
         :: (if result (BootUp_ELF sv w)
             then [EvHost_NotifyMapLoaded; EvAddAutoBreakpoints]
             else []))%list.
Proof.
  intro w. unfold BootUp_ELF, UpdateDebugger_MapLoaded.
  cbn [bind get_config result final events config app].
  destruct (bWii (config w));
    cbn [bind call ret on_ext result final events config ppcState ext app];
    match goal with
    | |- context [if negb ?b then _ else _] => destruct b
    end;
    cbn [negb bind call ret on_ext result final events config ppcState ext
         app];
    eexists; rewrite <- ?app_assoc; cbn [app]; reflexivity.
Qed.

Lemma ELF_prefix_events :
  forall wii,
    (forall cfg, emits (is_ELF_prefix_event wii)
                       (mount_root_or_default sv cfg wii "" "")) /\
    emits (is_ELF_prefix_event wii) (Load_FST sv wii) /\
    emits (is_ELF_prefix_event wii) (BootUp_prologue sv).
Proof. intro wii. repeat split; intros; walk_boot. Qed.

End BootUp_ELF_facts.

Section BootUp_ELF_exact.

Context {X : Type} (sv : Services X).

(** The world [BootUp] leaves: the one its case left, with the final
    patches applied when the case reached its [break]. *)
Lemma BootUp_final :
  forall w,
    let d := BootUp_dispatch sv (m_BootType (config w))
               (final (BootUp_prologue sv w)) in
    final (BootUp sv w)
    = if result d
      then mkWorld (config (final d)) (ppcState (final d))
             (HLE_PatchFixedFunctions sv (ext (final d)))
      else final d.
Proof.
  intros w d. unfold BootUp.
  cbn [bind get_config result final events app].
  rewrite (proj1 (BootUp_prologue_frame sv w)). fold d.
  destruct (result d); reflexivity.
Qed.

Lemma BootUp_ELF_exact :
  forall w0,
    let cfg := config w0 in
    let fn := m_strFilename cfg in
    let wm := final (mount_root_or_default sv cfg (bWii cfg) "" "" w0) in
    let r := (if bWii cfg
              then SetupWiiMemory sv 0x000000010000003a
              else EmulatedBS2_GC sv true)
               (config wm) (ppcState wm) (ext wm) in
    let wf := mkWorld (config wm) (snd (fst r)) (snd r) in
    let wl := final (Load_FST sv (bWii cfg) wf) in
    let load := Boot_ELF sv fn (config wl) (ppcState wl) (ext wl) in
    result (BootUp_ELF sv w0) = fst (fst load) /\
    events (BootUp_ELF sv w0)
    = (events (mount_root_or_default sv cfg (bWii cfg) "" "" w0)
       ++ (if bWii cfg
           then EvSetupWiiMemory 0x000000010000003a
           else EvEmulatedBS2_GC true)
       :: events (Load_FST sv (bWii cfg) wf)
       ++ EvBoot_ELF fn
       :: (if fst (fst load)
           then [EvHost_NotifyMapLoaded; EvAddAutoBreakpoints]
           else []))%list /\
    final (BootUp_ELF sv w0)
    = if fst (fst load)
      then mkWorld (config wl) (snd (fst load))
             (AddAutoBreakpoints sv (Host_NotifyMapLoaded sv (snd load)))
      else mkWorld (config wl) (snd (fst load)) (snd load).
Proof.
  intros w0 cfg fn wm r wf wl load.
  subst load wl wf r wm fn cfg.
  unfold BootUp_ELF, UpdateDebugger_MapLoaded.
  cbn [bind get_config result final events config app].
  destruct (bWii (config w0));
    cbn [bind call ret result final events config ppcState ext app];
    match goal with
    | |- context [negb (fst (fst ?l))] => destruct (fst (fst l))
    end;
    cbn [negb bind on_ext ret result final events config ppcState ext app];
    (split; [reflexivity|]);
    (split; [|reflexivity]);
    rewrite <- ?app_assoc; cbn [app]; rewrite ?app_nil_r; reflexivity.
Qed.

End BootUp_ELF_exact.

(** X10.  An ELF boot runs, in this order and each once: the prologue; the
    mount of the companion disc, if one is configured; the bring-up of the
    configured console mode only -- [SetupWiiMemory] with the IOS58 title id
    on the secondary console, [EmulatedBS2_GC(true)] on the primary one,
    never the other and never [EmulatedBS2] --; [Load_FST]; and [Boot_ELF],
    called in the world [Load_FST] left.  [BootUp] returns exactly what that
    call of [Boot_ELF] returned.  On failure nothing follows the failed load
    (no debugger notification, no breakpoints, no final patches) and the
    machine is left as [Boot_ELF] left it: nothing is undone.  On success the
    debugger is notified, the automatic breakpoints are installed and the
    final patches applied, in this order. *)
Theorem BootUp_ELF_sequence :
  forall X (sv : Services X) w,
    m_BootType (config w) = BOOT_ELF ->
    let o := BootUp sv w in
    let cfg := config w in
    let fn := m_strFilename cfg in
    let wl := ELF_world_at_load sv w in
    let load := Boot_ELF sv fn (config wl) (ppcState wl) (ext wl) in
    let before :=
      (events (BootUp_prologue sv w)
       ++ events (mount_root_or_default sv cfg (bWii cfg) "" ""
                    (final (BootUp_prologue sv w)))
       ++ (if bWii cfg
           then EvSetupWiiMemory 0x000000010000003a
           else EvEmulatedBS2_GC true)
       :: events (Load_FST sv (bWii cfg) (ELF_world_at_FST sv w)))%list in
    result o = fst (fst load) /\
    events o
    = (before
       ++ EvBoot_ELF fn
       :: (if fst (fst load)
           then [EvHost_NotifyMapLoaded; EvAddAutoBreakpoints;
                 EvHLE_PatchFixedFunctions]
           else []))%list /\
    final o
    = (if fst (fst load)
       then mkWorld (config wl) (snd (fst load))
              (HLE_PatchFixedFunctions sv
                 (AddAutoBreakpoints sv
                    (Host_NotifyMapLoaded sv (snd load))))
       else mkWorld (config wl) (snd (fst load)) (snd load)) /\
    (forall e, In e before ->
               is_ELF_prefix_event (bWii cfg) e = true).
Proof.
  intros X sv w Hty o cfg fn wl load before.
  destruct (BootUp_unfold sv w) as [Er Ee].
  pose proof (BootUp_final sv w) as Ef.
  rewrite Hty in Er, Ee, Ef. cbn [BootUp_dispatch] in Er, Ee, Ef.
  destruct (BootUp_ELF_exact sv (final (BootUp_prologue sv w)))
    as (Hr & He & Hf).
  rewrite (proj1 (BootUp_prologue_frame sv w)) in Hr, He, Hf.
  fold cfg in Hr, He, Hf. fold fn in Hr, He, Hf.
  change (result (BootUp_ELF sv (final (BootUp_prologue sv w)))
          = fst (fst load)) in Hr.
  subst o.
  split; [rewrite Er; exact Hr|].
  split.
  { rewrite Ee, Hr, He. subst before.
    change (Boot_ELF sv fn _ _ _) with load.
    destruct (fst (fst load));
      rewrite <- ?app_assoc; cbn [app]; rewrite <- ?app_assoc; cbn [app];
      reflexivity. }
  split.
  { cbv zeta in Ef. rewrite Ef, Hr, Hf.
    change (Boot_ELF sv fn _ _ _) with load.
    destruct (fst (fst load)); reflexivity. }
  intros e Hin. subst before.
  destruct (ELF_prefix_events sv (bWii cfg)) as (Hm & Hfst & Hp).
  apply in_app_or in Hin. destruct Hin as [Hin | Hin];
    [exact (Hp _ _ Hin)|].
  apply in_app_or in Hin. destruct Hin as [Hin | Hin];
    [exact (Hm _ _ _ Hin)|].
  destruct Hin as [<- | Hin]; [|exact (Hfst _ _ Hin)].
  destruct (bWii cfg); reflexivity.
Qed.

Lemma BootUp_ELF_sequence_witness :
  let broken := Demo.world (Demo.cfg BOOT_ELF "broken.elf" false false "")
                           Demo.no_disc in
  let good := Demo.world (Demo.cfg BOOT_ELF "homebrew.elf" false false "")
                         Demo.no_disc in
  m_BootType (config broken) = BOOT_ELF /\
  result (BootUp Demo.services broken) = false /\
  m_BootType (config good) = BOOT_ELF /\
  result (BootUp Demo.services good) = true.
Proof.
  intros broken good.
  assert (Hb : m_BootType (config broken) = BOOT_ELF) by reflexivity.
  assert (Hg : m_BootType (config good) = BOOT_ELF) by reflexivity.
  split; [exact Hb|].
  split; [exact (proj1 (BootUp_ELF_sequence _ Demo.services broken Hb))|].
  split; [exact Hg|].
  exact (proj1 (BootUp_ELF_sequence _ Demo.services good Hg)).
Defined.

(** ** [FindMapFile] and [LoadMapFromFilename] *)

Lemma has_separator_strip_directory :
  forall s, has_separator (spec_strip_directory s) = false.
Proof.
  induction s as [|a rest IH]; [reflexivity|].
  cbn [spec_strip_directory].
  destruct (has_separator rest) eqn:Hrest; [exact IH|].
  destruct (is_separator a) eqn:Ha; [exact Hrest|].
  cbn [has_separator]. rewrite Ha, Hrest. reflexivity.
Qed.

Lemma has_separator_substring :
  forall n s, has_separator s = false ->
              has_separator (substring 0 n s) = false.
Proof.
  induction n as [|n IH]; intros s Hs.
  - destruct s; reflexivity.
  - destruct s as [|a rest]; [reflexivity|].
    cbn [has_separator] in Hs. apply orb_false_iff in Hs.
    destruct Hs as [Ha Hrest].
    cbn [substring has_separator]. rewrite Ha, (IH _ Hrest). reflexivity.
Qed.

Lemma substring_split :
  forall n s, s = (substring 0 n s ++ string_drop n s)%string.
Proof.
  induction n as [|n IH]; intros s.
  - destruct s; reflexivity.
  - destruct s as [|a rest]; [reflexivity|].
    cbn [substring string_drop append]. rewrite <- IH. reflexivity.
Qed.

(** What [FindMapFile] reports as existing does exist, and it reports
    nothing exactly when it returns false. *)
Lemma FindMapFile_search_order_aux :
  forall X (sv : Services X) cfg,
    (found (FindMapFile sv cfg) = false ->
     existing_map_file (FindMapFile sv cfg) = None) /\
    (forall p, existing_map_file (FindMapFile sv cfg) = Some p ->
               File_Exists sv p = true).
Proof.
  intros X sv cfg. unfold FindMapFile, maps_directories.
  cbn [found existing_map_file search_maps_directories].
  destruct (File_Exists sv (File_GetUserPath_D_MAPS_IDX sv
                            ++ title_id_str_of sv cfg ++ ".map")) eqn:Hu;
    [|destruct (File_Exists sv ((File_GetSysDirectory sv
                                 ++ MAPS_DIR_DIR_SEP sv)
                                ++ title_id_str_of sv cfg ++ ".map"))
        eqn:Hs];
    split; try discriminate; try reflexivity;
    intros p Hp; try discriminate; injection Hp as <-; assumption.
Qed.

(** X12.  [FindMapFile] looks in the user's maps directory before the
    system one and stops at the first hit: when both hold a map for the
    title the user's file is the one reported.  The file it reports always
    exists, it reports none exactly when it returns false, and the writable
    path is the user's one whether or not anything was found. *)
Theorem FindMapFile_search_order :
  forall X (sv : Services X) cfg,
    let r := FindMapFile sv cfg in
    let user :=
      (File_GetUserPath_D_MAPS_IDX sv ++ title_id r ++ ".map")%string in
    let sys :=
      ((File_GetSysDirectory sv ++ MAPS_DIR_DIR_SEP sv)
       ++ title_id r ++ ".map")%string in
    writable_map_file r = user /\
    found r = (File_Exists sv user || File_Exists sv sys) /\
    existing_map_file r
    = (if File_Exists sv user then Some user
       else if File_Exists sv sys then Some sys else None) /\
    (found r = false <-> existing_map_file r = None) /\
    (forall p, existing_map_file r = Some p -> File_Exists sv p = true).
Proof.
  intros X sv cfg r user sys. subst r user sys.
  unfold FindMapFile, maps_directories.
  cbn [title_id writable_map_file found existing_map_file
       search_maps_directories].
  destruct (File_Exists sv (File_GetUserPath_D_MAPS_IDX sv
                            ++ title_id_str_of sv cfg ++ ".map")) eqn:Hu;
    [|destruct (File_Exists sv ((File_GetSysDirectory sv
                                 ++ MAPS_DIR_DIR_SEP sv)
                                ++ title_id_str_of sv cfg ++ ".map"))
        eqn:Hs];
    cbn [orb]; (split; [reflexivity|]); (split; [reflexivity|]);
    (split; [reflexivity|]);
    (split; [split; intro; first [discriminate | reflexivity]|]);
    intros p Hp; try discriminate; injection Hp as <-; assumption.
Qed.

(** X13.  [LoadMapFromFilename] returns true exactly when [FindMapFile]
    found a map file and the symbol database accepted it: its result is the
    result of [g_symbolDB.LoadMap] on the file found, and false when none
    was found.  It loads that file only -- one that exists -- and only
    once, and it notifies the debugger exactly when it returns true, after
    the load.  With no map file it does nothing at all, and in no case does
    it touch the configuration or the CPU state; the rest of the machine is
    what the load, and then the notification, made of it. *)
Theorem LoadMapFromFilename_outcome :
  forall X (sv : Services X) w,
    let o := LoadMapFromFilename sv w in
    let r := FindMapFile sv (config w) in
    result o
    = match existing_map_file r with
      | None => false
      | Some p => fst (SymbolDB_LoadMap sv p (ext w))
      end /\
    events o
    = match existing_map_file r with
      | None => []
      | Some p =>
          EvSymbolDB_LoadMap p
          :: (if fst (SymbolDB_LoadMap sv p (ext w))
              then [EvHost_NotifyMapLoaded] else [])
      end /\
    ext (final o)
    = match existing_map_file r with
      | None => ext w
      | Some p =>
          if fst (SymbolDB_LoadMap sv p (ext w))
          then Host_NotifyMapLoaded sv (snd (SymbolDB_LoadMap sv p (ext w)))
          else snd (SymbolDB_LoadMap sv p (ext w))
      end /\
    config (final o) = config w /\
    ppcState (final o) = ppcState w /\
    (result o = true <-> In EvHost_NotifyMapLoaded (events o)) /\
    (found r = false -> result o = false /\ final o = w) /\
    (result o = true <->
     exists p, existing_map_file r = Some p /\
               File_Exists sv p = true /\
               fst (SymbolDB_LoadMap sv p (ext w)) = true).
Proof.
  intros X sv w o r. subst o.
  destruct (FindMapFile_search_order_aux _ sv (config w)) as (Hnone & Hex).
  fold r in Hnone, Hex.
  unfold LoadMapFromFilename, SymbolDB_LoadMap_, UpdateDebugger_MapLoaded.
  cbn [bind get_config result final events config ppcState ext app].
  fold r.
  destruct (existing_map_file r) as [p|] eqn:Hp.
  - cbn [bind result final events config ppcState ext app].
    destruct (fst (SymbolDB_LoadMap sv p (ext w))) eqn:Hl;
      cbn [bind on_ext ret result final events config ppcState ext app];
      (split; [reflexivity|]); (split; [reflexivity|]);
      (split; [reflexivity|]); (split; [reflexivity|]);
      (split; [reflexivity|]); split.
    + split; [intros _; right; left; reflexivity | reflexivity].
    + split.
      * intro Hf. apply Hnone in Hf. discriminate.
      * split; [|reflexivity].
        intros _. exists p. split; [reflexivity|].
        split; [apply Hex; reflexivity | exact Hl].
    + split; [discriminate|].
      intros [Hin | []]; discriminate.
    + split.
      * intro Hf. apply Hnone in Hf. discriminate.
      * split; [discriminate|].
        intros (q & Hq & _ & Hacc). injection Hq as <-.
        rewrite Hl in Hacc. discriminate.
  - cbn [ret result final events].
    (split; [reflexivity|]); (split; [reflexivity|]);
    (split; [reflexivity|]); (split; [reflexivity|]);
    (split; [reflexivity|]); split.
    + split; [discriminate | intros []].
    + split; [intros _; split; reflexivity|].
      split; [discriminate|].
      intros (q & Hq & _). discriminate.
Qed.

(** X14.  For an installed-title boot whose loader is not valid
    [FindMapFile] leaves the title id empty and carries on: the map file it
    names and searches for is the bare ".map" of each maps directory, and
    it returns whether such a file exists. *)
Theorem FindMapFile_invalid_title :
  forall X (sv : Services X) cfg,
    m_BootType cfg = BOOT_WII_NAND ->
    NANDLoader_IsValid sv (m_strFilename cfg) = false ->
    let r := FindMapFile sv cfg in
    title_id r = "" /\
    writable_map_file r = (File_GetUserPath_D_MAPS_IDX sv ++ ".map")%string /\
    found r
    = (File_Exists sv (File_GetUserPath_D_MAPS_IDX sv ++ ".map")
       || File_Exists sv ((File_GetSysDirectory sv ++ MAPS_DIR_DIR_SEP sv)
                          ++ ".map")).
Proof.
  intros X sv cfg Hty Hinv r. subst r.
  unfold FindMapFile, maps_directories, title_id_str_of.
  rewrite Hty, Hinv.
  cbn [title_id writable_map_file found search_maps_directories append].
  split; [reflexivity|]. split; [reflexivity|].
  destruct (File_Exists sv (File_GetUserPath_D_MAPS_IDX sv ++ ".map"));
    [reflexivity|].
  destruct (File_Exists sv ((File_GetSysDirectory sv ++ MAPS_DIR_DIR_SEP sv)
                            ++ ".map")); reflexivity.
Qed.

Lemma FindMapFile_invalid_title_witness :
  let cfg := Demo.cfg BOOT_WII_NAND "absent.wad" true false "" in
  m_BootType cfg = BOOT_WII_NAND /\
  NANDLoader_IsValid Demo.services (m_strFilename cfg) = false /\
  writable_map_file (FindMapFile Demo.services cfg) = "Maps/.map".
Proof.
  intro cfg.
  assert (Hty : m_BootType cfg = BOOT_WII_NAND) by reflexivity.
  assert (Hinv : NANDLoader_IsValid Demo.services (m_strFilename cfg)
                 = false) by reflexivity.
  split; [exact Hty|]. split; [exact Hinv|].
  exact (proj1 (proj2 (FindMapFile_invalid_title _ Demo.services cfg
                         Hty Hinv))).
Defined.

(** X15.  For a raw executable (DOL or ELF) the title id [FindMapFile]
    derives is always defined -- [substr] cannot throw -- and is a leading
    part of the file name: it never contains a directory separator of either
    convention, so the map file stays inside the maps directory.  What is
    cut off after it is exactly four characters, or nothing at all when the
    file name has fewer than four. *)
Theorem FindMapFile_executable_title_is_a_file_name :
  forall X (sv : Services X) cfg,
    m_BootType cfg = BOOT_DOL \/ m_BootType cfg = BOOT_ELF ->
    StdString.size (m_strFilename cfg) < SizeT.npos ->
    let t := title_id (FindMapFile sv cfg) in
    let name := spec_strip_directory (m_strFilename cfg) in
    executable_title_id (m_strFilename cfg) = Some t /\
    has_separator t = false /\
    exists cut,
      name = (t ++ cut)%string /\
      String.length cut
      = if 4 <=? StdString.size name then 4%nat else 0%nat.
Proof.
  intros X sv cfg Hty Hlen t name.
  assert (Ht : t = match executable_title_id (m_strFilename cfg) with
                   | Some t => t
                   | None => ""
                   end).
  { subst t. unfold FindMapFile. cbn [title_id]. unfold title_id_str_of.
    destruct Hty as [-> | ->]; reflexivity. }
  clearbody t.
  destruct (Z.leb_spec 4 (StdString.size name)) as [Hext | Hext].
  - rewrite (executable_title_id_spec _ Hlen Hext) in *. subst t.
    unfold spec_executable_title_id, spec_strip_extension. fold name.
    split; [reflexivity|].
    split; [apply has_separator_substring, has_separator_strip_directory|].
    exists (string_drop (String.length name - 4) name).
    split; [apply substring_split|].
    rewrite length_string_drop. unfold StdString.size in Hext. lia.
  - rewrite (executable_title_id_short _ Hlen Hext) in *. subst t.
    fold name.
    split; [reflexivity|].
    split; [apply has_separator_strip_directory|].
    exists ""%string. split; [|reflexivity].
    rewrite (substring_split (String.length name) name) at 1.
    rewrite substring_all.
    replace (string_drop (String.length name) name) with ""%string;
      [reflexivity|].
    pose proof (length_string_drop (String.length name) name) as Hl.
    destruct (string_drop (String.length name) name);
      [reflexivity | cbn [String.length] in Hl; lia].
Qed.

Lemma FindMapFile_executable_title_is_a_file_name_witness :
  let long := Demo.cfg BOOT_ELF "apps\homebrew/boot.elf" true false "" in
  let short := Demo.cfg BOOT_DOL "C:/a" true false "" in
  title_id (FindMapFile Demo.services long) = "boot" /\
  has_separator (title_id (FindMapFile Demo.services long)) = false /\
  title_id (FindMapFile Demo.services short) = "a" /\
  has_separator (title_id (FindMapFile Demo.services short)) = false.
Proof.
  intros long short.
  assert (Hl : StdString.size (m_strFilename long) < SizeT.npos)
    by (vm_compute; reflexivity).
  assert (Hs : StdString.size (m_strFilename short) < SizeT.npos)
    by (vm_compute; reflexivity).
  split; [vm_compute; reflexivity|].
  split;
    [exact (proj1 (proj2 (FindMapFile_executable_title_is_a_file_name
                            _ Demo.services long (or_intror eq_refl) Hl)))|].
  split; [vm_compute; reflexivity|].
  exact (proj1 (proj2 (FindMapFile_executable_title_is_a_file_name
                         _ Demo.services short (or_introl eq_refl) Hs))).
Defined.

(** X16.  The title-id string of an installed title determines its 64-bit
    title id: two different ids never give the same string, hence never
    the same map file name. *)
Theorem nand_title_id_injective :
  forall a b,
    0 <= a < 2 ^ 64 -> 0 <= b < 2 ^ 64 ->
    a <> b -> nand_title_id a <> nand_title_id b.
Proof.
  intros a b Ha Hb Hne Heq. apply Hne. clear Hne.
  unfold nand_title_id in Heq.
  destruct (title_id_halves _ Ha) as [Ea1 Ea2].
  destruct (title_id_halves _ Hb) as [Eb1 Eb2].
  rewrite Ea1, Ea2, Eb1, Eb2 in Heq. clear Ea1 Ea2 Eb1 Eb2.
  assert (Hhi : spec_hex_value (format_08X (a / 2 ^ 32))
                = spec_hex_value (format_08X (b / 2 ^ 32))).
  { apply (f_equal (fun s => spec_hex_value (substring 0 8 s))) in Heq.
    exact Heq. }
  assert (Hlo : spec_hex_value (format_08X (a mod 2 ^ 32))
                = spec_hex_value (format_08X (b mod 2 ^ 32))).
  { apply (f_equal (fun s => spec_hex_value (substring 9 8 s))) in Heq.
    exact Heq. }
  assert (Hr : forall t, 0 <= t < 2 ^ 64 -> 0 <= t / 2 ^ 32 < 2 ^ 32).
  { intros t Ht. split; [apply Z.div_pos; lia|].
    apply Z.div_lt_upper_bound; [lia|].
    change (2 ^ 32 * 2 ^ 32) with (2 ^ 64). lia. }
  rewrite !spec_hex_value_format_08X in Hhi by (apply Hr; assumption).
  rewrite !spec_hex_value_format_08X in Hlo
    by (apply Z.mod_pos_bound; lia).
  injection Hhi as Hhi. injection Hlo as Hlo. clear Hr Heq.
  change (2 ^ 32) with 4294967296 in Hhi, Hlo.
  Z.div_mod_to_equations. lia.
Qed.

Lemma nand_title_id_injective_witness :
  nand_title_id 1 = "00000000_00000001" /\
  nand_title_id (2 ^ 32) = "00000001_00000000" /\
  nand_title_id 1 <> nand_title_id (2 ^ 32).
Proof.
  split; [vm_compute; reflexivity|].
  split; [vm_compute; reflexivity|].
  apply nand_title_id_injective; [lia | lia | discriminate].
Defined.

(** ** [DVDRead] and [Load_FST] *)

Section Disc_reads.

Context {X : Type} (sv : Services X).

Lemma DVDRead_events :
  forall dvd_offset output_address length decrypt w,
    events (DVDRead sv dvd_offset output_address length decrypt w)
    = EvVolumeRead dvd_offset length decrypt
      :: match Volume_Read sv (ext w) dvd_offset length decrypt with
         | Some buffer => [EvCopyToEmu output_address buffer]
         | None => []
         end.
Proof.
  intros dvd_offset output_address length decrypt w.
  unfold DVDRead, Memory_CopyToEmu_.
  cbn [bind get_ext log result final events ext app].
  destruct (Volume_Read sv (ext w) dvd_offset length decrypt); reflexivity.
Qed.

Lemma DVDRead_frame :
  forall dvd_offset output_address length decrypt w,
    let o := DVDRead sv dvd_offset output_address length decrypt w in
    config (final o) = config w /\ ppcState (final o) = ppcState w.
Proof.
  intros dvd_offset output_address length decrypt w.
  unfold DVDRead, Memory_CopyToEmu_.
  cbn [bind get_ext log result final events ext app].
  destruct (Volume_Read sv (ext w) dvd_offset length decrypt);
    split; reflexivity.
Qed.

Lemma ReadSwapped_events :
  forall offset buffer decrypt w,
    events (ReadSwapped sv offset buffer decrypt w)
    = [EvVolumeRead offset 4 decrypt].
Proof.
  intros offset buffer decrypt w. unfold ReadSwapped.
  cbn [bind get_ext log result final events ext app].
  destruct (Volume_Read sv (ext w) offset 4 decrypt); reflexivity.
Qed.

Lemma DVDRead_is_copy_to :
  forall dvd_offset output_address length decrypt w,
    is_copy_to output_address
      match Volume_Read sv (ext w) dvd_offset length decrypt with
      | Some buffer => [EvCopyToEmu output_address buffer]
      | None => []
      end.
Proof.
  intros dvd_offset output_address length decrypt w. unfold is_copy_to.
  destruct (Volume_Read sv (ext w) dvd_offset length decrypt) as [b|];
    [right; exists b; reflexivity | left; reflexivity].
Qed.

End Disc_reads.

(** X17.  [DVDRead] asks the volume for exactly one block and returns
    whether the volume delivered it.  Guest memory is written exactly when
    it returns true, once, at the requested address and with the bytes the
    volume delivered; a failed read leaves the whole machine as it was. *)
Theorem DVDRead_writes_only_what_it_read :
  forall X (sv : Services X) dvd_offset output_address length decrypt w,
    let o := DVDRead sv dvd_offset output_address length decrypt w in
    let read := Volume_Read sv (ext w) dvd_offset length decrypt in
    filter is_disc_read (events o)
    = [EvVolumeRead dvd_offset length decrypt] /\
    filter is_memory_write (events o)
    = match read with
      | Some buffer => [EvCopyToEmu output_address buffer]
      | None => []
      end /\
    (result o = true <-> read <> None) /\
    (result o = false -> final o = w) /\
    config (final o) = config w /\
    ppcState (final o) = ppcState w.
Proof.
  intros X sv dvd_offset output_address length decrypt w o read.
  subst o read. rewrite DVDRead_events.
  unfold DVDRead, Memory_CopyToEmu_.
  cbn [bind get_ext log result final events ext app].
  destruct (Volume_Read sv (ext w) dvd_offset length decrypt) as [b|];
    cbn [bind on_ext ret result final events config ppcState ext app
         filter is_disc_read is_memory_write];
    repeat split; intros; try discriminate; try reflexivity;
    try congruence.
Qed.

Lemma Load_FST_keeps :
  forall X (sv : Services X) is_wii,
    keeps config (Load_FST sv is_wii) /\ keeps ppcState (Load_FST sv is_wii).
Proof. intros X sv is_wii. split; walk_boot. Qed.

(** X18.  With a disc inside, [Load_FST] never stops early, whatever the
    volume answers: it always issues the same five read requests -- the
    32-byte disc header, never decrypted, then the three header words and
    the FST itself with decryption exactly in Wii mode -- and always stores
    four words, in the order [0x3180], [0x34], [0x38], [0x3c].  The FST is
    read to the very address stored in [0x34] and [0x38], its disc offset
    and length are the header words shifted by the mode's shift and cut to
    32 bits, and neither the configuration nor the CPU state changes. *)
Theorem Load_FST_sequence :
  forall X (sv : Services X) is_wii w,
    IsDiscInside sv (ext w) = true ->
    let o := Load_FST sv is_wii w in
    exists id fst_offset fst_size max_fst_size header fst,
      let arena_high := arena_high_of max_fst_size is_wii in
      let shift := fst_shift is_wii in
      events o
      = (EvVolumeRead 0 0x20 false :: header
         ++ [EvWrite_U32 id 0x3180;
             EvVolumeRead 0x0424 4 is_wii;
             EvVolumeRead 0x0428 4 is_wii;
             EvVolumeRead 0x042c 4 is_wii;
             EvWrite_U32 arena_high 0x34;
             EvVolumeRead (U32.shl fst_offset shift)
                          (U32.shl fst_size shift) is_wii]
         ++ fst
         ++ [EvWrite_U32 arena_high 0x38;
             EvWrite_U32 (U32.shl max_fst_size shift) 0x3c])%list /\
      is_copy_to 0 header /\
      is_copy_to arena_high fst /\
      U32.in_range fst_offset /\ U32.in_range fst_size /\
      U32.in_range max_fst_size /\
      config (final o) = config w /\
      ppcState (final o) = ppcState w.
Proof.
  intros X sv is_wii w Hdisc o. subst o.
  destruct (Load_FST_keeps _ sv is_wii) as [Kc Kp].
  rewrite (Kc w), (Kp w). clear Kc Kp.
  unfold Load_FST.
  cbn [bind get_ext result final events ext app]. rewrite Hdisc.
  cbn [negb].
  unfold Memory_Read_U32_, Memory_Write_U32_.
  cbn [bind get_ext on_ext result final events ext app].
  rewrite !ReadSwapped_final, !ReadSwapped_events, !DVDRead_events.
  do 6 eexists.
  split; [cbn [app]; reflexivity|].
  split; [apply DVDRead_is_copy_to|].
  split; [apply DVDRead_is_copy_to|].
  assert (H0 : U32.in_range 0) by (unfold U32.in_range, U32.modulus; lia).
  split; [apply ReadSwapped_range; exact H0|].
  split; [apply ReadSwapped_range; exact H0|].
  split; [apply ReadSwapped_range; exact H0|].
  split; reflexivity.
Qed.

Lemma Load_FST_sequence_witness :
  let w := Demo.world (Demo.cfg BOOT_ELF "homebrew.elf" true false "")
                      (Demo.with_disc "game.iso") in
  IsDiscInside Demo.services (ext w) = true /\
  List.length (events (Load_FST Demo.services false w)) = 11%nat /\
  In (EvWrite_U32 0x817FEFE0 0x34) (events (Load_FST Demo.services false w)) /\
  ppcState (final (Load_FST Demo.services false w)) = ppcState w.
Proof.
  intro w.
  assert (Hdisc : IsDiscInside Demo.services (ext w) = true) by reflexivity.
  split; [exact Hdisc|].
  split; [vm_compute; reflexivity|].
  split; [vm_compute; tauto|].
  destruct (Load_FST_sequence _ Demo.services false w Hdisc)
    as (id & fo & fs & mx & header & fst & _ & _ & _ & _ & _ & _ & _ & Hp).
  exact Hp.
Defined.

(** X19.  A disc that is inside but cannot be read does not stop
    [Load_FST] either: no read result is checked.  Nothing is copied from
    the disc, the word already at guest address 0 is stored as the game id
    at [0x3180], the three header words keep their initial zero, so the
    arena boundary stored at [0x34] and [0x38] is [0x817FFFE0], the FST
    request is for zero bytes at offset zero, and zero is stored at
    [0x3c]. *)
Theorem Load_FST_unreadable_disc :
  forall X (sv : Services X) is_wii w,
    IsDiscInside sv (ext w) = true ->
    (forall x offset length decrypt,
        Volume_Read sv x offset length decrypt = None) ->
    events (Load_FST sv is_wii w)
    = [EvVolumeRead 0 0x20 false;
       EvWrite_U32 (Memory_Read_U32 sv 0 (ext w)) 0x3180;
       EvVolumeRead 0x0424 4 is_wii;
       EvVolumeRead 0x0428 4 is_wii;
       EvVolumeRead 0x042c 4 is_wii;
       EvWrite_U32 0x817FFFE0 0x34;
       EvVolumeRead 0 0 is_wii;
       EvWrite_U32 0x817FFFE0 0x38;
       EvWrite_U32 0 0x3c].
Proof.
  intros X sv is_wii w Hdisc Hread. unfold Load_FST.
  cbn [bind get_ext result final events ext app]. rewrite Hdisc.
  cbn [negb].
  unfold Memory_Read_U32_, Memory_Write_U32_, DVDRead, ReadSwapped.
  cbn [bind get_ext log on_ext result final events ext app].
  repeat (rewrite ?Hread;
          cbn [bind get_ext log on_ext ret result final events ext app]).
  replace (arena_high_of 0 is_wii) with 0x817FFFE0
    by (destruct is_wii; reflexivity).
  replace (U32.shl 0 (fst_shift is_wii)) with 0
    by (destruct is_wii; reflexivity).
  reflexivity.
Qed.

Lemma Load_FST_unreadable_disc_witness :
  let w := Demo.world (Demo.cfg BOOT_ELF "homebrew.elf" true false "")
                      Demo.no_disc in
  IsDiscInside demo_services_unreadable_disc (ext w) = true /\
  In (EvWrite_U32 0x817FFFE0 0x34)
     (events (Load_FST demo_services_unreadable_disc true w)) /\
  ~ In (EvVolumeRead 0 0x20 true)
       (events (Load_FST demo_services_unreadable_disc true w)).
Proof.
  intro w.
  assert (Hdisc : IsDiscInside demo_services_unreadable_disc (ext w) = true)
    by reflexivity.
  split; [exact Hdisc|].
  rewrite (Load_FST_unreadable_disc _ demo_services_unreadable_disc true w
             Hdisc (fun _ _ _ _ => eq_refl)).
  split; [do 5 right; left; reflexivity|].
  cbn [In]. intuition discriminate.
Defined.

(** ** What [BootUp] mounts *)

Lemma filter_none :
  forall (P : Event -> bool) (l : list Event),
    (forall e, In e l -> negb (P e) = true) -> filter P l = [].
Proof.
  intros P l. induction l as [|a l IH]; intro H; [reflexivity|].
  cbn [filter].
  assert (Ha : negb (P a) = true) by (apply H; left; reflexivity).
  apply negb_true_iff in Ha. rewrite Ha.
  apply IH. intros e He. apply H. right. exact He.
Qed.

Lemma filter_silent :
  forall X A (m : M X A) w,
    emits no_mount m -> filter is_mount (events (m w)) = [].
Proof. intros X A m w H. apply filter_none. exact (H w). Qed.

Section Mounts.

Context {X : Type} (sv : Services X).

Lemma silent_parts :
  emits no_mount (BootUp_prologue sv) /\
  emits no_mount (load_map_and_patch sv) /\
  (forall is_wii, emits no_mount (Load_FST sv is_wii)) /\
  (forall path, emits no_mount (Load_BS2 sv path)) /\
  (forall fn, emits no_mount (BootUp_DOL_direct_entry sv fn)).
Proof. repeat split; intros; walk_boot. Qed.

Lemma mount_root_or_default_mounts :
  forall cfg is_wii apploader dol w,
    filter is_mount
      (events (mount_root_or_default sv cfg is_wii apploader dol w))
    = companion_mount cfg is_wii apploader dol.
Proof.
  intros cfg is_wii apploader dol w.
  unfold mount_root_or_default, companion_mount.
  destruct (negb (string_empty (m_strDVDRoot cfg)));
    [|destruct (negb (string_empty (m_strDefaultISO cfg)))];
    reflexivity.
Qed.

Lemma BootUp_DOL_mounts :
  forall w,
    filter is_mount (events (BootUp_DOL sv w))
    = if DolLoader_IsValid sv (m_strFilename (config w))
      then companion_mount (config w)
             (DolLoader_IsWii sv (m_strFilename (config w)))
             (m_strApploader (config w)) (m_strFilename (config w))
      else [].
Proof.
  intro w. destruct silent_parts as (_ & Hmap & _ & _ & Hentry).
  unfold BootUp_DOL, PanicAlertT.
  cbn [bind get_config result final events app].
  destruct (DolLoader_IsValid sv (m_strFilename (config w)));
    [|reflexivity].
  cbn [negb bind call ret result final events app].
  rewrite !filter_app. cbn [filter is_mount]. rewrite !filter_app.
  rewrite mount_root_or_default_mounts.
  rewrite (filter_silent _ _ (load_map_and_patch sv) _ Hmap).
  repeat match goal with
  | |- context [filter is_mount (events (when ?b ?m ?v))] =>
      rewrite (filter_silent _ _ (when b m) v)
        by (apply emits_when;
            first [apply Hentry | apply emits_log; reflexivity])
  end.
  cbn [app]. rewrite ?app_nil_r. reflexivity.
Qed.

Lemma BootUp_ELF_mounts :
  forall w,
    filter is_mount (events (BootUp_ELF sv w))
    = companion_mount (config w) (bWii (config w)) "" "".
Proof.
  intro w. destruct silent_parts as (_ & _ & Hfst & _).
  destruct (BootUp_ELF_shape sv w) as (w1 & ->).
  rewrite filter_app, mount_root_or_default_mounts.
  replace (filter is_mount _) with (@nil Event);
    [rewrite app_nil_r; reflexivity|].
  symmetry.
  destruct (bWii (config w)); cbn [filter is_mount];
    rewrite filter_app, (filter_silent _ _ (Load_FST sv _) _ (Hfst _));
    cbn [filter is_mount app];
    destruct (result (BootUp_ELF sv w)); reflexivity.
Qed.

Lemma BootUp_WII_NAND_mounts :
  forall w,
    filter is_mount (events (BootUp_WII_NAND sv w))
    = companion_mount (config w) true "" "".
Proof.
  intro w. destruct silent_parts as (_ & Hmap & _).
  unfold BootUp_WII_NAND, companion_mount. run.
  cbn [filter is_mount].
  rewrite !filter_app, (filter_silent _ _ (load_map_and_patch sv) _ Hmap).
  destruct (negb (string_empty (m_strDVDRoot (config w))));
    [|destruct (negb (string_empty (m_strDefaultISO (config w))))];
    reflexivity.
Qed.

Lemma BootUp_BS2_mounts :
  forall w, filter is_mount (events (BootUp_BS2 sv w)) = [].
Proof.
  intro w. apply filter_silent. walk_boot.
Qed.

Lemma ISO_tail_no_mount :
  forall wii e, is_ISO_tail_event wii e = true -> no_mount e = true.
Proof. intros wii e. destruct e; cbn; intro H; congruence. Qed.

End Mounts.

(** X9.  What a boot attempt mounts.  A disc-image boot mounts the image it
    was given, once, whether or not a disc ends up inside.  A DOL boot with
    a valid container, an ELF boot and an installed-title boot mount at most
    one companion disc: the configured directory when there is one -- the
    default image is then not used -- else the default image when there is
    one.  The virtual disc is built for the container's own console mode
    with the configured apploader and the container itself (DOL), for the
    configured mode with neither (ELF), and always for the secondary console
    (installed title).  Nothing is mounted by a DOL boot whose container is
    invalid, by a firmware boot, a recording boot or an unknown boot
    type. *)
Theorem BootUp_mounts :
  forall X (sv : Services X) w,
    let cfg := config w in
    let fn := m_strFilename cfg in
    filter is_mount (events (BootUp sv w))
    = match m_BootType cfg with
      | BOOT_ISO => [EvSetVolumeName fn]
      | BOOT_DOL =>
          if DolLoader_IsValid sv fn
          then companion_mount cfg (DolLoader_IsWii sv fn)
                               (m_strApploader cfg) fn
          else []
      | BOOT_ELF => companion_mount cfg (bWii cfg) "" ""
      | BOOT_WII_NAND => companion_mount cfg true "" ""
      | _ => []
      end.
Proof.
  intros X sv w cfg fn. subst cfg fn.
  destruct (silent_parts sv) as (Hpro & _).
  destruct (BootUp_unfold sv w) as [_ Ee].
  assert (Hfinal : forall b : bool,
             filter is_mount
               (if b then [EvHLE_PatchFixedFunctions] else []) = [])
    by (intros []; reflexivity).
  destruct (m_BootType (config w)) eqn:Hty;
    lazymatch type of Hty with
    | _ = BOOT_ISO => idtac
    | _ =>
        rewrite Ee; cbn [BootUp_dispatch];
        rewrite !filter_app, (filter_silent _ _ (BootUp_prologue sv) w Hpro),
          ?Hfinal, ?BootUp_DOL_mounts, ?BootUp_ELF_mounts,
          ?BootUp_WII_NAND_mounts, ?BootUp_BS2_mounts, ?app_nil_r;
        reflexivity
    end.
  destruct (IsDiscInside sv (ext_after_mount sv w)) eqn:Hdisc.
  - destruct (BootUp_ISO_events sv w Hty Hdisc) as (wk & _ & ->).
    rewrite filter_app.
    rewrite (filter_none is_mount (ISO_bring_up_events _ _ ++ _)).
    + unfold ISO_preamble_events. rewrite filter_app.
      rewrite (filter_silent _ _ (BootUp_prologue sv) _ Hpro).
      cbn [filter is_mount app].
      destruct (negb (Bool.eqb _ _)); reflexivity.
    + intros e He.
      exact (ISO_tail_no_mount _ e (ISO_tail_vocabulary sv w wk e He)).
  - rewrite Ee. cbn [BootUp_dispatch].
    destruct (BootUp_ISO_no_disc sv (final (BootUp_prologue sv w)) Hdisc)
      as [-> ->].
    rewrite filter_app, (filter_silent _ _ (BootUp_prologue sv) _ Hpro).
    reflexivity.
Qed.

(** X20.  The one thing that makes a disc-image boot fail is that no disc
    is inside after the mount.  Once a disc is inside, [BootUp] returns true
    whatever happens next: what the high-level stub reports is not looked
    at, an unreadable firmware file is replaced by the stub, and a missing
    signature database or symbol map is skipped.  This is stated of the
    runs in which [Load_BS2] stays inside its buffer: when the firmware is
    requested and its file can be read, the file is a firmware image of at
    least [0x1B061F] bytes. *)
Theorem BootUp_ISO_fails_only_without_disc :
  forall X (sv : Services X) w,
    m_BootType (config w) = BOOT_ISO ->
    (bHLE_BS2 (config w) = false ->
     forall data,
       File_ReadFileToString sv (m_strBootROM (config w)) = Some data ->
       0x820 + 0x1AFE00 - 1 <= Z.of_nat (List.length data)) ->
    result (BootUp sv w) = IsDiscInside sv (ext_after_mount sv w).
Proof.
  intros X sv w Hty _.
  destruct (IsDiscInside sv (ext_after_mount sv w)) eqn:Hdisc.
  - destruct (BootUp_ISO_events sv w Hty Hdisc) as (wk & Hr & _).
    exact Hr.
  - destruct (BootUp_unfold sv w) as [Er _]. rewrite Er, Hty.
    cbn [BootUp_dispatch].
    exact (proj1 (BootUp_ISO_no_disc sv (final (BootUp_prologue sv w))
                    Hdisc)).
Qed.

Lemma BootUp_ISO_fails_only_without_disc_witness :
  let w := Demo.world (Demo.cfg BOOT_ISO "game.iso" false true "ipl.bin")
                      Demo.no_disc in
  m_BootType (config w) = BOOT_ISO /\
  bHLE_BS2 (config w) = false /\
  File_ReadFileToString Demo.services "ipl.bin" = Some Demo.ipl_bin /\
  0x820 + 0x1AFE00 - 1 <= Z.of_nat (List.length Demo.ipl_bin) /\
  result (BootUp Demo.services w) = true.
Proof.
  intro w.
  assert (Hty : m_BootType (config w) = BOOT_ISO) by reflexivity.
  assert (Hlen : 0x820 + 0x1AFE00 - 1
                 <= Z.of_nat (List.length Demo.ipl_bin)).
  { unfold Demo.ipl_bin, Demo.ipl_size. rewrite repeat_length. lia. }
  assert (Hrom : bHLE_BS2 (config w) = false ->
                 forall data,
                   File_ReadFileToString Demo.services
                     (m_strBootROM (config w)) = Some data ->
                   0x820 + 0x1AFE00 - 1 <= Z.of_nat (List.length data)).
  { intros _ data H. change (Some Demo.ipl_bin = Some data) in H.
    assert (E : Demo.ipl_bin = data) by congruence.
    rewrite <- E. exact Hlen. }
  split; [exact Hty|]. split; [reflexivity|]. split; [reflexivity|].
  split; [exact Hlen|].
  rewrite (BootUp_ISO_fails_only_without_disc _ Demo.services w Hty Hrom).
  reflexivity.
Defined.

(** * Properties of the notebook panes (FrameAui.cpp) *)

Section Notebooks.

Import FrameAui.

Lemma GetNotebookCount_loop_acc :
  forall panes Ret,
    GetNotebookCount_loop panes Ret = Ret + GetNotebookCount_loop panes 0.
Proof.
  induction panes as [|window rest IH]; intro Ret;
    cbn [GetNotebookCount_loop]; [lia|].
  rewrite IH, (IH (if IsKindOf_AuiNotebook window then 0 + 1 else 0)).
  destruct (IsKindOf_AuiNotebook window); lia.
Qed.

Lemma GetNotebookCount_loop_nonneg :
  forall panes, 0 <= GetNotebookCount_loop panes 0.
Proof.
  induction panes as [|window rest IH]; cbn [GetNotebookCount_loop]; [lia|].
  rewrite GetNotebookCount_loop_acc.
  destruct (IsKindOf_AuiNotebook window); lia.
Qed.

Lemma GetNotebookCount_cons :
  forall window rest,
    GetNotebookCount_loop (window :: rest) 0
    = (if IsKindOf_AuiNotebook window then 1 else 0)
      + GetNotebookCount_loop rest 0.
Proof.
  intros window rest. cbn [GetNotebookCount_loop].
  rewrite GetNotebookCount_loop_acc.
  destruct (IsKindOf_AuiNotebook window); reflexivity.
Qed.

Lemma GetNotebookFromId_loop_spec :
  forall panes j NBId,
    j <= NBId ->
    (GetNotebookFromId_loop panes j NBId <> None
     <-> NBId < j + GetNotebookCount_loop panes 0) /\
    (forall window,
        GetNotebookFromId_loop panes j NBId = Some window ->
        IsKindOf_AuiNotebook window = true /\ In window panes).
Proof.
  induction panes as [|window rest IH]; intros j NBId Hj.
  - cbn [GetNotebookFromId_loop GetNotebookCount_loop].
    split; [split; [congruence | lia] | discriminate].
  - rewrite GetNotebookCount_cons. cbn [GetNotebookFromId_loop].
    destruct (IsKindOf_AuiNotebook window) eqn:Hk; cbn [negb].
    + destruct (Z.eqb_spec j NBId) as [-> | Hne].
      * pose proof (GetNotebookCount_loop_nonneg rest).
        split; [split; [lia | discriminate]|].
        intros w Hw. injection Hw as <-.
        split; [exact Hk | left; reflexivity].
      * destruct (IH (j + 1) NBId ltac:(lia)) as [Hiff Hin].
        split; [rewrite Hiff; lia|].
        intros w Hw. destruct (Hin w Hw) as [Hkw Hinw].
        split; [exact Hkw | right; exact Hinw].
    + destruct (IH j NBId Hj) as [Hiff Hin].
      split; [rewrite Hiff; lia|].
      intros w Hw. destruct (Hin w Hw) as [Hkw Hinw].
      split; [exact Hkw | right; exact Hinw].
Qed.

Lemma page_with_id_spec :
  forall pages Id page,
    page_with_id pages Id = Some page -> GetId page = Id /\ In page pages.
Proof.
  induction pages as [|p rest IH]; intros Id page H; [discriminate|].
  cbn [page_with_id] in H.
  destruct (Z.eqb_spec (GetId p) Id) as [E | _].
  - injection H as <-. split; [exact E | left; reflexivity].
  - destruct (IH _ _ H) as [Hid Hin]. split; [exact Hid | right; exact Hin].
Qed.

Lemma GetNotebookAffiliation_loop_spec :
  forall panes j0 Id,
    0 <= j0 ->
    let j := GetNotebookAffiliation_loop panes j0 Id in
    (j = -1 <-> GetNotebookPageFromId panes Id = None) /\
    (j = -1 \/ j0 <= j < j0 + GetNotebookCount_loop panes 0) /\
    (forall page,
        GetNotebookPageFromId panes Id = Some page ->
        exists pages,
          GetNotebookFromId_loop panes j0 j = Some (AuiNotebook pages) /\
          page_with_id pages Id = Some page).
Proof.
  induction panes as [|window rest IH]; intros j0 Id Hj0.
  - cbn. split; [tauto|]. split; [left; reflexivity | discriminate].
  - rewrite GetNotebookCount_cons.
    cbn [GetNotebookAffiliation_loop GetNotebookPageFromId
         GetNotebookFromId_loop].
    destruct window as [pages|]; cbn [IsKindOf_AuiNotebook negb].
    + destruct (page_with_id pages Id) as [page|] eqn:Hp.
      * pose proof (GetNotebookCount_loop_nonneg rest).
        split; [split; [lia | discriminate]|].
        split; [right; lia|].
        intros page' Hpage'. injection Hpage' as <-.
        exists pages. rewrite Z.eqb_refl. split; [reflexivity | exact Hp].
      * destruct (IH (j0 + 1) Id ltac:(lia)) as (Hiff & Hrange & Hpage).
        split; [exact Hiff|].
        split; [destruct Hrange as [E | R]; [left; exact E | right; lia]|].
        intros page Hfound.
        destruct (Hpage page Hfound) as (pages' & Hnb & Hpg).
        exists pages'. split; [|exact Hpg].
        destruct Hrange as [E | R].
        -- apply Hiff in E. congruence.
        -- destruct (Z.eqb_spec j0 (GetNotebookAffiliation_loop rest
                                      (j0 + 1) Id)); [lia | exact Hnb].
    + destruct (IH j0 Id Hj0) as (Hiff & Hrange & Hpage).
      split; [exact Hiff|].
      split; [destruct Hrange as [E | R]; [left; exact E | right; lia]|].
      exact Hpage.
Qed.

End Notebooks.

(** X21.  [GetNotebookFromId] and [GetNotebookCount] number the notebook
    panes alike: for an index that is not negative, [GetNotebookFromId]
    returns a window exactly when the index is below [GetNotebookCount],
    and the window it returns is a notebook of one of the panes, never
    another kind of window. *)
Theorem GetNotebookFromId_defined_iff :
  forall panes NBId,
    0 <= NBId ->
    (FrameAui.GetNotebookFromId panes NBId <> None
     <-> NBId < FrameAui.GetNotebookCount panes) /\
    (forall window,
        FrameAui.GetNotebookFromId panes NBId = Some window ->
        FrameAui.IsKindOf_AuiNotebook window = true /\ In window panes).
Proof.
  intros panes NBId H.
  exact (GetNotebookFromId_loop_spec panes 0 NBId H).
Qed.

Lemma GetNotebookFromId_defined_iff_witness :
  let log := FrameAui.AuiNotebook [FrameAui.mkPage 7 "Log"] in
  let code := FrameAui.AuiNotebook [FrameAui.mkPage 9 "Code"] in
  let panes := [FrameAui.OtherWindow; log; FrameAui.OtherWindow; code] in
  FrameAui.GetNotebookCount panes = 2 /\
  FrameAui.GetNotebookFromId panes 1 = Some code /\
  FrameAui.GetNotebookFromId panes 2 = None.
Proof.
  intros log code panes.
  split; [reflexivity|]. split; [reflexivity|].
  destruct (GetNotebookFromId_defined_iff panes 2 ltac:(lia)) as [Hiff _].
  destruct (FrameAui.GetNotebookFromId panes 2) eqn:E; [|reflexivity].
  assert (H : 2 < FrameAui.GetNotebookCount panes)
    by (apply Hiff; discriminate).
  vm_compute in H. discriminate.
Defined.

(** X22.  [GetNotebookAffiliation] and [GetNotebookPageFromId] agree: the
    affiliation is -1 exactly when no page has the id, and otherwise it is
    an index below [GetNotebookCount] at which [GetNotebookFromId] yields
    the very notebook that holds the page [GetNotebookPageFromId] returns;
    that page carries the id asked for. *)
Theorem GetNotebookAffiliation_names_the_notebook_of_the_page :
  forall panes Id,
    let j := FrameAui.GetNotebookAffiliation panes Id in
    (j = -1 <-> FrameAui.GetNotebookPageFromId panes Id = None) /\
    (j = -1 \/ 0 <= j < FrameAui.GetNotebookCount panes) /\
    (forall page,
        FrameAui.GetNotebookPageFromId panes Id = Some page ->
        FrameAui.GetId page = Id /\
        exists pages,
          FrameAui.GetNotebookFromId panes j
          = Some (FrameAui.AuiNotebook pages) /\
          In page pages).
Proof.
  intros panes Id j. subst j.
  destruct (GetNotebookAffiliation_loop_spec panes 0 Id ltac:(lia))
    as (Hiff & Hrange & Hpage).
  split; [exact Hiff|]. split; [exact Hrange|].
  intros page Hfound.
  destruct (Hpage page Hfound) as (pages & Hnb & Hpg).
  destruct (page_with_id_spec _ _ _ Hpg) as [Hid Hin].
  split; [exact Hid|]. exists pages. split; [exact Hnb | exact Hin].
Qed.

(** ** The guest memory [Load_BS2] writes *)

Lemma Load_BS2_alerts_write_nothing :
  forall ipl_hash boot_region,
    filter is_memory_write (Load_BS2_alerts ipl_hash boot_region) = [].
Proof.
  intros ipl_hash boot_region. unfold Load_BS2_alerts.
  destruct (Region_eqb (classify_ipl ipl_hash) UNKNOWN_REGION);
    destruct (negb (Region_eqb boot_region (classify_ipl ipl_hash)));
    reflexivity.
Qed.

(** X25.  A successful [Load_BS2] writes guest memory exactly twice, by
    block copies and in this order: [0x700] bytes to [0x01200000], then
    [0x1AFE00] bytes to [0x01300000]; it stores no single word.  For an
    image long enough to hold both ranges the first block is, byte for byte,
    the first [0x700] bytes the descrambler produced: unlike the second
    block it holds no raw byte of the file. *)
Theorem Load_BS2_memory_writes :
  forall X (sv : Services X) path data w,
    File_ReadFileToString sv path = Some data ->
    0x820 + 0x1AFE00 <= Z.of_nat (List.length data) ->
    let o := Load_BS2 sv path w in
    let plain := Descrambler sv (slice data 0x100 0x1AFE00) in
    let buffer := in_place (Descrambler sv) data 0x100 0x1AFE00 in
    let first := slice buffer 0x100 0x700 in
    filter is_memory_write (events o)
    = [EvCopyToEmu 0x01200000 first;
       EvCopyToEmu 0x01300000 (slice buffer 0x820 0x1AFE00)] /\
    Z.of_nat (List.length first) = 0x700 /\
    (forall i, 0 <= i < 0x700 ->
               byte_at first i = byte_at plain i /\
               byte_at plain i <> None).
Proof.
  intros X sv path data w Hread Hlen o plain buffer first.
  assert (Hin : 0x100 + 0x1AFE00 <= Z.of_nat (List.length data)) by lia.
  pose proof (Descrambler_size sv) as Hsize.
  subst o. rewrite (Load_BS2_readable _ sv path w data Hread Hlen).
  cbv zeta. fold buffer. fold first. cbn [events].
  split.
  { cbn [filter is_memory_write]. rewrite filter_app.
    rewrite Load_BS2_alerts_write_nothing. reflexivity. }
  split.
  { unfold first. apply length_slice; [lia | lia |].
    unfold buffer.
    rewrite length_in_place; first [assumption | lia]. }
  intros i Hi.
  assert (E : byte_at first i = byte_at plain i).
  { unfold first. rewrite byte_at_slice by lia.
    unfold buffer.
    rewrite byte_at_in_place_inside; try first [assumption | lia].
    fold plain. f_equal. lia. }
  split; [exact E|].
  apply byte_at_defined. unfold plain. rewrite Hsize.
  pose proof (length_slice data 0x100 0x1AFE00 ltac:(lia) ltac:(lia) Hin).
  lia.
Qed.

Lemma Load_BS2_memory_writes_witness :
  File_ReadFileToString Demo.services "ipl.bin" = Some Demo.ipl_bin /\
  0x820 + 0x1AFE00 <= Z.of_nat (List.length Demo.ipl_bin) /\
  Z.of_nat (List.length
              (slice (in_place Demo.descramble Demo.ipl_bin 0x100 0x1AFE00)
                     0x100 0x700)) = 0x700.
Proof.
  assert (Hread : File_ReadFileToString Demo.services "ipl.bin"
                  = Some Demo.ipl_bin) by reflexivity.
  assert (Hlen : 0x820 + 0x1AFE00 <= Z.of_nat (List.length Demo.ipl_bin)).
  { unfold Demo.ipl_bin, Demo.ipl_size. rewrite repeat_length. lia. }
  split; [exact Hread|]. split; [exact Hlen|].
  pose proof (Load_BS2_memory_writes
                _ Demo.services "ipl.bin" Demo.ipl_bin
                (Demo.world (Demo.cfg BOOT_BS2 "" false false "ipl.bin")
                            Demo.no_disc) Hread Hlen)
    as (_ & Hl & _).
  exact Hl.
Defined.

(** ** [BootUp]: what loads a DOL *)

Lemma filter_quiet :
  forall X A (P : Event -> bool) (m : M X A) w,
    emits (fun e => negb (P e)) m -> filter P (events (m w)) = [].
Proof. intros X A P m w H. apply filter_none. exact (H w). Qed.

Section BootUp_DOL_load.

Context {X : Type} (sv : Services X).

Lemma quiet_parts :
  emits (fun e => negb (is_direct_entry_event e)) (BootUp_prologue sv) /\
  emits (fun e => negb (is_direct_entry_event e)) (load_map_and_patch sv) /\
  (forall cfg is_wii apploader dol,
      emits (fun e => negb (is_direct_entry_event e))
            (mount_root_or_default sv cfg is_wii apploader dol)).
Proof. repeat split; intros; walk_boot. Qed.

Lemma BootUp_DOL_direct_entry_calls :
  forall filename w,
    filter is_direct_entry_event
      (events (BootUp_DOL_direct_entry sv filename w))
    = (EvDBATUpdated :: EvIBATUpdated
       :: (if DolLoader_IsWii sv filename
           then [EvSetupWiiMemory 0x000000010000003a] else [])
       ++ [EvDolLoader_Load filename])%list.
Proof.
  intros filename w. unfold BootUp_DOL_direct_entry, DBATUpdated_,
    IBATUpdated_, when.
  destruct (DolLoader_IsWii sv filename); run; reflexivity.
Qed.

Lemma BootUp_DOL_loads :
  forall w,
    DolLoader_IsValid sv (m_strFilename (config w)) = true ->
    let fn := m_strFilename (config w) in
    let wm := final (mount_root_or_default sv (config w)
                       (DolLoader_IsWii sv fn) (m_strApploader (config w))
                       fn w) in
    let r := EmulatedBS2 sv (DolLoader_IsWii sv fn) (config w) (ppcState w)
                         (ext wm) in
    filter is_direct_entry_event (events (BootUp_DOL sv w))
    = if fst (fst r) then []
      else (EvDBATUpdated :: EvIBATUpdated
            :: (if DolLoader_IsWii sv fn
                then [EvSetupWiiMemory 0x000000010000003a] else [])
            ++ [EvDolLoader_Load fn])%list.
Proof.
  intros w Hvalid fn wm r.
  destruct quiet_parts as (_ & Hmap & Hmount).
  destruct (mount_root_or_default_frame sv (config w) (DolLoader_IsWii sv fn)
              (m_strApploader (config w)) fn) as [Kc Kp].
  pose proof (Kc w) as Kc'. pose proof (Kp w) as Kp'. fold wm in Kc', Kp'.
  unfold BootUp_DOL, PanicAlertT.
  cbn [bind get_config result final events app]. rewrite Hvalid.
  cbn [negb bind call ret result final events app].
  unfold when. rewrite !when_log_final, !when_log_events.
  fold fn. fold wm. rewrite Kc', Kp'. fold r.
  rewrite !filter_app. cbn [filter is_direct_entry_event].
  rewrite !filter_app.
  rewrite (filter_quiet _ _ _ (mount_root_or_default sv _ _ _ _) _
             (Hmount _ _ _ _)).
  rewrite (filter_quiet _ _ _ (load_map_and_patch sv) _ Hmap).
  replace (filter is_direct_entry_event
             (if negb (Bool.eqb (DolLoader_IsWii sv fn) (bWii (config w)))
              then [EvPanicAlert Alert_DOL_wrong_console_mode] else []))
    with (@nil Event) by (destruct (negb _); reflexivity).
  cbn [app]. rewrite !app_nil_r.
  destruct (fst (fst r)); cbn [negb].
  - reflexivity.
  - apply BootUp_DOL_direct_entry_calls.
Qed.

End BootUp_DOL_load.

(** X26.  In a DOL boot with a valid container, [BootUp] itself loads the
    container only when the high-level stub reports that it does not apply.
    Then it announces the new BAT registers, sets up the Wii memory -- for a
    Wii container only, with the IOS58 title id -- and loads the container,
    in this order and each once.  When the stub applies, [BootUp] makes none
    of these calls: the container is not loaded a second time. *)
Theorem BootUp_DOL_loads_only_without_stub :
  forall X (sv : Services X) w,
    m_BootType (config w) = BOOT_DOL ->
    DolLoader_IsValid sv (m_strFilename (config w)) = true ->
    let fn := m_strFilename (config w) in
    let stub :=
      EmulatedBS2 sv (DolLoader_IsWii sv fn) (config w) (ppcState w)
                  (ext (DOL_world_at_bring_up sv w)) in
    filter is_direct_entry_event (events (BootUp sv w))
    = if fst (fst stub) then []
      else (EvDBATUpdated :: EvIBATUpdated
            :: (if DolLoader_IsWii sv fn
                then [EvSetupWiiMemory 0x000000010000003a] else [])
            ++ [EvDolLoader_Load fn])%list.
Proof.
  intros X sv w Hty Hvalid fn stub.
  destruct (quiet_parts sv) as (Hpro & _).
  destruct (BootUp_unfold sv w) as [_ Ee].
  rewrite Ee, Hty. cbn [BootUp_dispatch].
  rewrite !filter_app.
  rewrite (filter_quiet _ _ _ (BootUp_prologue sv) w Hpro).
  rewrite (BootUp_DOL_loads sv (final (BootUp_prologue sv w)) Hvalid).
  assert (Hfinal : forall b : bool,
             filter is_direct_entry_event
               (if b then [EvHLE_PatchFixedFunctions] else []) = [])
    by (intros []; reflexivity).
  rewrite Hfinal, app_nil_r. reflexivity.
Qed.

Lemma BootUp_DOL_loads_only_without_stub_witness :
  let w := Demo.world (Demo.cfg BOOT_DOL "C:/games/Foo.dol" false false "")
                      Demo.no_disc in
  m_BootType (config w) = BOOT_DOL /\
  DolLoader_IsValid Demo.services (m_strFilename (config w)) = true /\
  filter is_direct_entry_event (events (BootUp Demo.services w)) = [] /\
  filter is_direct_entry_event (events (BootUp demo_services_without_stub w))
  = [EvDBATUpdated; EvIBATUpdated; EvDolLoader_Load "C:/games/Foo.dol"].
Proof.
  intro w.
  assert (Hty : m_BootType (config w) = BOOT_DOL) by reflexivity.
  assert (Hv : DolLoader_IsValid Demo.services (m_strFilename (config w))
               = true) by reflexivity.
  split; [exact Hty|]. split; [exact Hv|].
  split.
  - exact (BootUp_DOL_loads_only_without_stub _ Demo.services w Hty Hv).
  - exact (BootUp_DOL_loads_only_without_stub
             _ demo_services_without_stub w Hty Hv).
Defined.
